(** * agent.js: the browser tool-calling agent, embedded in Rocq

    The development follows [src/agent.js]:
    - JavaScript values as an inductive type (JSON-shaped data);
    - exceptions and rejected promises as an error monad;
    - the host (JSON, fetch, the settings form, the Worker) as a record
      of operations the code calls but does not define;
    - the message sanitizer, the provider transcript adapters, the three
      tools and the agent loop as functions over these. *)

From Stdlib Require Import ZArith String Ascii List Bool Lia.
From stdpp Require Import base tactics option list strings pretty gmap.

Local Open Scope string_scope.
Local Open Scope list_scope.
Local Open Scope Z_scope.

(** ** Values

    Numbers are the integers (the tool schema only declares integer
    parameters); a string is a sequence of one-byte code units; an object
    is its list of own properties in insertion order. Functions and
    symbols are not values of the model: nothing the code reads from
    JSON or builds itself contains one. *)

#[local] Set Warnings "-register-all".

Inductive value : Type :=
| VUndef
| VNull
| VBool (b : bool)
| VNum (n : Z)
| VStr (s : string)
| VArr (elems : list value)
| VObj (fields : list (string * value)).

(** Thrown values and rejection reasons: an error with its name and
    message. The wording of the messages of the errors the engine itself
    throws is the engine's; the model gives each a short text. *)
Record exn : Type := Exn { exn_name : string; exn_message : string }.

Inductive completion (A : Type) : Type :=
| Normal (a : A)
| Throw (e : exn).
Arguments Normal {A} a.
Arguments Throw {A} e.

(** Sequencing: an exception skips the rest. The notation [x ← c; k] is
    stdpp's, for [mbind]. *)
#[global] Instance completion_ret : MRet completion := λ A a, Normal a.
#[global] Instance completion_bind : MBind completion := λ A B k c,
  match c with
  | Normal a => k a
  | Throw e => Throw e
  end.

(** [try { c } catch { h }] *)
Definition try_catch {A} (c : completion A) (h : exn → completion A) : completion A :=
  match c with
  | Normal a => Normal a
  | Throw e => h e
  end.

Definition TypeError (msg : string) : exn := Exn "TypeError" msg.

Module JS.

(** [Boolean(v)], also the test of [if], [!], [||], [&&] and [filter(Boolean)]. *)
Definition truthy (v : value) : bool :=
  match v with
  | VUndef | VNull => false
  | VBool b => b
  | VNum n => negb (n =? 0)
  | VStr s => negb (String.eqb s "")
  | VArr _ | VObj _ => true
  end.

Definition nullish (v : value) : bool :=
  match v with
  | VUndef | VNull => true
  | _ => false
  end.

Fixpoint assoc (k : string) (fs : list (string * value)) : option value :=
  match fs with
  | [] => None
  | (k', v) :: fs' => if String.eqb k k' then Some v else assoc k fs'
  end.

(** [v.k] for a [v] that is neither [null] nor [undefined]. The keys the
    code reads (role, content, tool_calls, id, function, name, arguments,
    items, ...) are own properties of objects only: on a string, a number,
    a boolean or an array the read gives [undefined]. The exceptions are
    [length] and the index [0], which have their own functions below, and
    [link], which a string answers with a method of its prototype: the
    code reads it from search hits only, and the statements about those
    take the hits to be objects. *)
Definition get (v : value) (k : string) : value :=
  match v with
  | VObj fs => default VUndef (assoc k fs)
  | _ => VUndef
  end.

(** [v.k], which throws on [null] and [undefined]. *)
Definition prop (v : value) (k : string) : completion value :=
  if nullish v then Throw (TypeError ("Cannot read properties of " +:+
                                      (if v is VNull then "null" else "undefined")))
  else Normal (get v k).

(** [v?.k] *)
Definition optprop (v : value) (k : string) : value :=
  if nullish v then VUndef else get v k.

(** [v ?? d] *)
Definition coalesce (v d : value) : value := if nullish v then d else v.

(** [v || d] *)
Definition or (v d : value) : value := if truthy v then v else d.

Definition isArray (v : value) : bool := if v is VArr _ then true else false.

(** [typeof v === 'string'] *)
Definition isString (v : value) : bool := if v is VStr _ then true else false.

(** [v === 'lit'] for a string literal. *)
Definition isStr (v : value) (lit : string) : bool :=
  if v is VStr s then String.eqb s lit else false.

(** [l.filter(Boolean)] *)
Definition filterBoolean (l : list value) : list value := List.filter truthy l.

(** [Array.isArray(v) ? v.filter(Boolean) : []], lines 192 and 238. *)
Definition keptToolCalls (v : value) : list value :=
  if v is VArr l then filterBoolean l else [].

(** White space code units of [String.prototype.trim] below 256. *)
Definition isWhite (c : ascii) : bool :=
  let n := nat_of_ascii c in
  ((9 <=? n) && (n <=? 13) || (n =? 32) || (n =? 160))%nat.

Fixpoint trimStart (s : string) : string :=
  match s with
  | EmptyString => EmptyString
  | String c s' => if isWhite c then trimStart s' else s
  end.

(** Drops the white space at the end: [trimEnd (c :: s)] keeps [c] unless
    everything from [c] on is white space. *)
Fixpoint trimEnd (s : string) : string :=
  match s with
  | EmptyString => EmptyString
  | String c s' =>
      match trimEnd s' with
      | EmptyString => if isWhite c then EmptyString else String c EmptyString
      | t => String c t
      end
  end.

Definition trim (s : string) : string := trimEnd (trimStart s).

Definition hasOwn (k : string) (fs : list (string * value)) : bool :=
  if assoc k fs is Some _ then true else false.

(** [String(v)], [v.toString()] on a non-nullish [v], and the conversion
    of template literals and [+]. An object answers "[object Object]"
    through [Object.prototype.toString]; an own property [toString]
    shadows it, and since no value of the model is callable the
    conversion then throws. Array elements are joined with commas, with
    [null] and [undefined] elements empty. Numbers are the integers, and
    [VNum n] is written with all its digits: that is the text of the
    double [n] for the safe integers, up to [2^53] in size; beyond them
    the code rounds and, from [1e21] on, writes an exponent. *)
Fixpoint toString (v : value) : completion string :=
  match v with
  | VUndef => Normal "undefined"
  | VNull => Normal "null"
  | VBool b => Normal (if b then "true" else "false")
  | VNum n => Normal (pretty n)
  | VStr s => Normal s
  | VArr l =>
      (fix join (l : list value) : completion string :=
         match l with
         | [] => Normal ""
         | x :: rest =>
             s ← (if nullish x then Normal "" else toString x) ;
             match rest with
             | [] => Normal s
             | _ => r ← join rest ; Normal (s +:+ "," +:+ r)
             end
         end) l
  | VObj fs =>
      if hasOwn "toString" fs
      then Throw (TypeError "toString is not a function")
      else Normal "[object Object]"
  end.

(** [v.length] on a non-nullish [v]. *)
Definition lengthOf (v : value) : value :=
  match v with
  | VArr l => VNum (Z.of_nat (List.length l))
  | VStr s => VNum (Z.of_nat (String.length s))
  | _ => get v "length"
  end.

(** [v[0]] on a non-nullish [v]. *)
Definition at0 (v : value) : value :=
  match v with
  | VArr (x :: _) => x
  | VStr (String c _) => VStr (String c EmptyString)
  | VObj _ => get v "0"
  | _ => VUndef
  end.

(** [v?.[0]] *)
Definition optat0 (v : value) : value := if nullish v then VUndef else at0 v.

(** The elements of an array value. *)
Definition elems (v : value) : list value := if v is VArr l then l else [].

(** [ToNumber(v)], [None] for NaN. An array converts through its string;
    an object through "[object Object]", which is not a number, unless
    an own [toString] makes the conversion throw. *)
Definition toNumber (StringToNumber : string → option Z) (v : value) : completion (option Z) :=
  match v with
  | VUndef => Normal None
  | VNull => Normal (Some 0)
  | VBool b => Normal (Some (if b then 1 else 0))
  | VNum n => Normal (Some n)
  | VStr s => Normal (StringToNumber s)
  | VArr _ => s ← toString v ; Normal (StringToNumber s)
  | VObj _ => _ ← toString v ; Normal None
  end.

(** [l.slice(0, Math.max(0, x))] for a number [x]: NaN selects nothing. *)
Definition sliceMax0 (l : list value) (x : option Z) : list value :=
  match x with
  | None => []
  | Some z => firstn (Z.to_nat (Z.max 0 z)) l
  end.

(** [s.split(sep)[0]]: the part of [s] before the first [sep]. *)
Definition splitHead (sep s : string) : string :=
  match String.index 0 sep s with
  | Some n => String.substring 0 n s
  | None => s
  end.

(** [s.replace(/\s+/g, "_")]: every maximal run of white space becomes
    one underscore. [inRun] tells that the previous unit was white. *)
Fixpoint replaceWhiteRuns (inRun : bool) (s : string) : string :=
  match s with
  | EmptyString => EmptyString
  | String c s' =>
      if isWhite c
      then (if inRun then replaceWhiteRuns true s' else String "_" (replaceWhiteRuns true s'))
      else String c (replaceWhiteRuns false s')
  end.

Definition lowerAscii (c : ascii) : ascii :=
  let n := nat_of_ascii c in
  if ((65 <=? n) && (n <=? 90))%nat then ascii_of_nat (n + 32) else c.

Fixpoint lowerString (s : string) : string :=
  match s with
  | EmptyString => EmptyString
  | String c s' => String (lowerAscii c) (lowerString s')
  end.

(** [s.replace(/<\/script>/gi, '<\\/script>')]: [skip] counts the units of
    a match still to drop. *)
Fixpoint neutralizeScriptEnd (skip : nat) (s : string) : string :=
  match s with
  | EmptyString => EmptyString
  | String c s' =>
      match skip with
      | S k => neutralizeScriptEnd k s'
      | O =>
          if String.eqb (lowerString (String.substring 0 9 s)) "</script>"
          then "<\/script>" +:+ neutralizeScriptEnd 8 s'
          else String c (neutralizeScriptEnd 0 s')
      end
  end.

(** [s.replace(/&/g,'&amp;').replace(/</g,'&lt;').replace(/>/g,'&gt;')] *)
Fixpoint escapeChars (s : string) : string :=
  match s with
  | EmptyString => EmptyString
  | String c s' =>
      (if Ascii.eqb c "&" then "&amp;"
       else if Ascii.eqb c "<" then "&lt;"
       else if Ascii.eqb c ">" then "&gt;"
       else String c EmptyString) +:+ escapeChars s'
  end.

(** [String(e)] for a thrown error. *)
Definition exnToString (e : exn) : string :=
  if String.eqb (exn_message e) "" then exn_name e
  else if String.eqb (exn_name e) "" then exn_message e
  else exn_name e +:+ ": " +:+ exn_message e.

(** [for (const x of l) body]: the body threads its state; an exception
    ends the loop. *)
Fixpoint forOf {S A} (body : S → A → completion S) (l : list A) (s : S) : completion S :=
  match l with
  | [] => Normal s
  | x :: l' => s' ← body s x ; forOf body l' s'
  end.

End JS.

(** ** The host

    What the page's environment provides. [JSON_parse] answers [None] for
    a [SyntaxError]. [JSON_stringify] is only ever applied by the code to
    a value that is not [undefined], so it always yields a string. Every
    promise the code awaits settles, with a value or with a rejection:
    the code sets no timeout, and a request or a worker that never
    answers is outside the model. *)

Record Response : Type := mkResponse {
  res_ok : bool;
  res_status : Z;
  res_statusText : string;
  res_text : completion string;   (* await res.text() *)
  res_json : completion value     (* await res.json() *)
}.

Record Settings : Type := mkSettings {
  provider : string;
  apiKey : string;
  model : string;
  maxTokens : Z;
  googleKey : string;
  googleCx : string
}.

(** The last message a run of the sandbox worker script posts: the script
    wraps the user code in try/catch and posts [done] or [error]. *)
Inductive workerFinal : Type :=
| WDone (result : value)
| WError (error : string).

Record Host : Type := mkHost {
  JSON_parse : string → option value;
  JSON_stringify : value → string;
  encodeURIComponent : string → string;
  getSettings : Settings;
  (* await fetch(url): a response, or a rejection (network failure) *)
  fetch : string → completion Response;
  (* await fetch(url, {method: 'POST', headers, body}) *)
  fetchPost : string → list (string * string) → string → completion Response;
  (* the console.log messages (each the list of its arguments, as strings)
     and the final message of a worker run on the given code *)
  runWorker : string → list (list string) * workerFinal;
  (* the k-th value of Math.random().toString(36).slice(2) *)
  randomSuffix : nat → string;
  (* the conversion of a string to a number, None for NaN *)
  StringToNumber : string → option Z;
  (* (await import('https://aipipe.org/aipipe.js'))?.getProfile?.() *)
  aipipeProfile : completion value
}.

(** ** The sanitizer (agent.js, lines 184-222) *)

Section Sanitizer.
Context (host : Host).
Import JS.

(** [asString], line 189. *)
Definition asString (v : value) : string :=
  match v with
  | VStr s => s
  | VUndef | VNull => ""
  | _ => JSON_stringify host v
  end.

(** The callback of [tc.map], lines 195-204; [t] is truthy. *)
Definition sanitizeToolCall (t : value) : value :=
  let f := get t "function" in
  VObj [("id", get t "id");
        ("type", VStr "function");
        ("function",
          VObj [("name", optprop f "name");
                ("arguments",
                  if isString (optprop f "arguments")
                  then get f "arguments"
                  else VStr (JSON_stringify host (or (optprop f "arguments") (VObj []))))])].

(** The callback of [messages.map], lines 185-221. The object [out] is
    built property by property, in the order of the assignments. *)
Definition sanitizeMessage (m : value) : completion value :=
  role ← prop m "role" ;
  let out := [("role", role)] in
  if isStr role "assistant" then
    let tc := keptToolCalls (get m "tool_calls") in
    if (0 <? length tc)%nat then
      let out := out ++ [("tool_calls", VArr (map sanitizeToolCall tc))] in
      c0 ← toString (coalesce (get m "content") (VStr "")) ;
      let c := trim c0 in
      Normal (VObj (out ++ [("content", if (0 <? String.length c)%nat then VStr c else VNull)]))
    else
      Normal (VObj (out ++ [("content", VStr (asString (coalesce (get m "content") (VStr ""))))]))
  else if isStr role "tool" then
    let out := out ++ [("tool_call_id", get m "tool_call_id")] in
    let out := if truthy (get m "name") then out ++ [("name", get m "name")] else out in
    Normal (VObj (out ++ [("content", VStr (asString (coalesce (get m "content") (VStr ""))))]))
  else
    let out := out ++ [("content", VStr (asString (coalesce (get m "content") (VStr ""))))] in
    let out := if truthy (get m "name") then out ++ [("name", get m "name")] else out in
    Normal (VObj out).

(** [messages.map(...)]: the callback runs on the elements in order and
    the first exception ends the call. *)
Fixpoint mapM {A B} (f : A → completion B) (l : list A) : completion (list B) :=
  match l with
  | [] => Normal []
  | x :: l' => y ← f x ; ys ← mapM f l' ; Normal (y :: ys)
  end.

Definition sanitizeMessagesForOpenAI (messages : list value) : completion (list value) :=
  mapM sanitizeMessage messages.

End Sanitizer.

(** ** The transcript adapters of Gemini and Anthropic (lines 347-359, 396-408) *)

Section Adapters.
Context (host : Host).
Import JS.

(** [try { parsed = JSON.parse(c); } catch { parsed = { text: String(c) }; }]:
    [JSON.parse] first converts its argument to a string. *)
Definition parseToolContent (c : value) : completion value :=
  try_catch
    (s ← toString c ;
     if JSON_parse host s is Some v then Normal v
     else Throw (Exn "SyntaxError" "Unexpected token"))
    (λ _, s ← toString c ; Normal (VObj [("text", VStr s)])).

(** One turn of the loop of [toGeminiContents]. *)
Definition geminiStep (contents : list value) (m : value) : completion (list value) :=
  if negb (truthy m) || negb (truthy (get m "role")) then Normal contents
  else if isStr (get m "role") "user" || isStr (get m "role") "assistant" then
    text ← toString (or (get m "content") (VStr "")) ;
    Normal (contents ++
      [VObj [("role", VStr (if isStr (get m "role") "assistant" then "model" else "user"));
             ("parts", VArr [VObj [("text", VStr text)]])]])
  else if isStr (get m "role") "tool" then
    parsed ← parseToolContent (get m "content") ;
    Normal (contents ++
      [VObj [("role", VStr "tool");
             ("parts", VArr [VObj [("functionResponse",
                VObj [("name", or (get m "name") (VStr "tool"));
                      ("response", parsed)])]])]])
  else Normal contents.

Definition toGeminiContents (messages : list value) : completion (list value) :=
  forOf geminiStep messages [].

(** One turn of the loop of [toAnthropicMessages]; [rnd] counts the draws
    of [Math.random] so far. *)
Definition anthropicStep (acc : list value * nat) (m : value) : completion (list value * nat) :=
  let '(out, rnd) := acc in
  if negb (truthy m) || negb (truthy (get m "role")) then Normal (out, rnd)
  else if isStr (get m "role") "user" || isStr (get m "role") "assistant" then
    text ← toString (or (get m "content") (VStr "")) ;
    Normal (out ++
      [VObj [("role", get m "role");
             ("content", VArr [VObj [("type", VStr "text"); ("text", VStr text)]])]], rnd)
  else if isStr (get m "role") "tool" then
    parsed ← parseToolContent (get m "content") ;
    let '(id, rnd') :=
      if truthy (get m "tool_call_id") then (get m "tool_call_id", rnd)
      else (VStr ("tool_" +:+ randomSuffix host rnd), S rnd) in
    Normal (out ++
      [VObj [("role", VStr "user");
             ("content", VArr [VObj [("type", VStr "tool_result");
                                     ("tool_use_id", id);
                                     ("content", VStr (JSON_stringify host parsed));
                                     ("is_error", VBool false)]])]], rnd')
  else Normal (out, rnd).

Definition toAnthropicMessages (rnd : nat) (messages : list value) : completion (list value * nat) :=
  forOf anthropicStep messages ([], rnd).

End Adapters.

(** ** The tools (lines 435-556) *)

Section Tools.
Context (host : Host).
Import JS.

(** [{ error: `<label> ${res.status} ${res.statusText}`, detail: await res.text() }] *)
Definition httpError (label : string) (res : Response) : completion value :=
  detail ← res_text res ;
  Normal (VObj [("error", VStr (label +:+ pretty (res_status res) +:+ " " +:+ res_statusText res));
                ("detail", VStr detail)]).

(** [v.map(f)]: only an array has [map]. *)
Definition arrayMap (v : value) (f : value → completion value) : completion (list value) :=
  match v with
  | VArr l => mapM f l
  | _ => Throw (TypeError "map is not a function")
  end.

(** [i => ({ title: i.title, link: i.link, snippet: i.snippet })], line 453,
    for a hit [i] that is not a string (see [JS.get]). *)
Definition googleItem (i : value) : completion value :=
  title ← prop i "title" ;
  Normal (VObj [("title", title); ("link", get i "link"); ("snippet", get i "snippet")]).

(** The request of line 449, for the texts of [q] and [num]. *)
Definition googleUrl (qs ns : string) : string :=
  let s := getSettings host in
  "https://www.googleapis.com/customsearch/v1?key=" +:+
  encodeURIComponent host (googleKey s) +:+ "&cx=" +:+
  encodeURIComponent host (googleCx s) +:+ "&q=" +:+
  encodeURIComponent host qs +:+ "&num=" +:+ ns.

(** The Google branch of [toolWebSearch], lines 449-454. *)
Definition googleSearch (q num : value) : completion value :=
  qs ← toString q ;
  ns ← toString num ;
  res ← fetch host (googleUrl qs ns) ;
  if negb (res_ok res) then httpError "Google CSE error: " res
  else
    json ← res_json res ;
    items0 ← prop json "items" ;
    items ← arrayMap (or items0 (VArr [])) googleItem ;
    Normal (VObj [("query", q); ("provider", VStr "google_cse"); ("items", VArr items)]).

(** The body of the loop over the related topics, line 469. *)
Definition ddgTopic (q : value) (items : list value) (rt : value) : completion (list value) :=
  if truthy (optprop rt "Text") then
    head ← (if optprop rt "Text" is VStr t
            then Normal (VStr (splitHead " - " t))
            else Throw (TypeError "split is not a function")) ;
    Normal (items ++
      [VObj [("title", or head q);
             ("link", or (optprop rt "FirstURL") (VStr ""));
             ("snippet", optprop rt "Text")]])
  else Normal items.

(** The body of the first [try], lines 460-473: the value [ddg] ends with. *)
Definition ddgLookup (q num : value) : completion value :=
  qs ← toString q ;
  ddgRes ← fetch host ("https://api.duckduckgo.com/?q=" +:+ encodeURIComponent host qs +:+
                       "&format=json&no_html=1&skip_disambig=1") ;
  if res_ok ddgRes then
    data ← res_json ddgRes ;
    abstract ← prop data "AbstractText" ;
    let items :=
      if truthy abstract
      then [VObj [("title", or (get data "Heading") q);
                  ("link", or (or (get data "AbstractURL")
                                  (optprop (optat0 (get data "Results")) "FirstURL"))
                              (VStr ""));
                  ("snippet", abstract)]]
      else [] in
    items ←
      (if isArray (get data "RelatedTopics") then
         n ← toNumber (StringToNumber host) num ;
         forOf (ddgTopic q)
               (sliceMax0 (elems (get data "RelatedTopics"))
                          ((λ z, z - Z.of_nat (length items)) <$> n))
               items
       else Normal items) ;
    Normal (if (0 <? length items)%nat
            then VObj [("query", q); ("provider", VStr "duckduckgo"); ("items", VArr items)]
            else VNull)
  else Normal VNull.

(** The body of the second [try], lines 479-486: the value [wiki] ends with. *)
Definition wikiLookup (q : value) : completion value :=
  qs ← (if q is VStr s then Normal s else Throw (TypeError "q.trim is not a function")) ;
  let titleGuess := replaceWhiteRuns false (trim qs) in
  wres ← fetch host ("https://en.wikipedia.org/api/rest_v1/page/summary/" +:+
                     encodeURIComponent host titleGuess) ;
  if res_ok wres then
    w ← res_json wres ;
    if truthy (optprop w "extract") then
      Normal (VObj [("query", q); ("provider", VStr "wikipedia");
                    ("items", VArr [VObj
                       [("title", or (get w "title") q);
                        ("link", or (or (optprop (optprop (get w "content_urls") "desktop") "page")
                                        (optprop (optprop (get w "content_urls") "mobile") "page"))
                                    (VStr ""));
                        ("snippet", get w "extract")]])])
    else Normal VNull
  else Normal VNull.

(** [try { ... } catch {}] around a lookup: a failure leaves [null]. *)
Definition swallow (c : completion value) : value :=
  match c with
  | Normal v => v
  | Throw _ => VNull
  end.

(** Lines 457-492: the path without a key pair. *)
Definition fallbackSearch (q num : value) : completion value :=
  let ddg := swallow (ddgLookup q num) in
  let wiki := swallow (wikiLookup q) in
  if truthy ddg && truthy wiki then
    n ← toNumber (StringToNumber host) num ;
    Normal (VObj [("query", q); ("provider", VStr "fallback(duckduckgo+wiki)");
                  ("items", VArr (sliceMax0 (elems (get ddg "items")) ((λ z, z - 1) <$> n) ++
                                  firstn 1 (elems (get wiki "items"))))])
  else if truthy ddg then Normal ddg
  else if truthy wiki then Normal wiki
  else Normal (VObj [("query", q); ("provider", VStr "fallback"); ("items", VArr []);
                     ("warning", VStr "No-key fallbacks returned no results (network/CORS?).")]).

(** A destructured parameter with a default: [{ k = d }]. *)
Definition paramDefault (args : value) (k : string) (d : value) : value :=
  if get args k is VUndef then d else get args k.

(** [toolWebSearch({ q, num = 3 })]: destructuring throws on [null] and
    [undefined]. *)
Definition toolWebSearch (args : value) : completion value :=
  q ← prop args "q" ;
  let num := paramDefault args "num" (VNum 3) in
  let s := getSettings host in
  if truthy (VStr (googleKey s)) && truthy (VStr (googleCx s))
  then googleSearch q num
  else fallbackSearch q num.

Definition toolAIPipeProxy (args : value) : completion value :=
  prompt ← prop args "prompt" ;
  let model := paramDefault args "model" (VStr "openai/gpt-4o-mini") in
  let max_tokens := paramDefault args "max_tokens" (VNum 200) in
  let s := getSettings host in
  let key := VStr (apiKey s) in
  let key :=
    if negb (truthy key) && String.eqb (provider s) "aipipe" then
      match aipipeProfile host with
      | Normal profile => if truthy (optprop profile "token") then get profile "token" else key
      | Throw _ => key
      end
    else key in
  if negb (truthy key) then
    Normal (VObj [("error",
      VStr "AI Pipe token required (use Provider: AI Pipe or log in via AI Pipe).")])
  else
    bearer ← toString key ;
    let body := VObj [("model", model);
                      ("messages", VArr [VObj [("role", VStr "user"); ("content", prompt)]]);
                      ("max_tokens", max_tokens)] in
    res ← fetchPost host "https://aipipe.org/openrouter/v1/chat/completions"
            [("Content-Type", "application/json"); ("Authorization", "Bearer " +:+ bearer)]
            (JSON_stringify host body) ;
    if negb (res_ok res) then httpError "AI Pipe error: " res
    else
      data ← res_json res ;
      Normal (VObj [("text",
        or (optprop (optprop (optat0 (optprop data "choices")) "message") "content")
           (VStr ""))]).

(** [data.join(' ')] on the strings of one console message. *)
Fixpoint joinSpace (l : list string) : string :=
  match l with
  | [] => ""
  | [s] => s
  | s :: l' => s +:+ " " +:+ joinSpace l'
  end.

(** The promise of [toolJsExec] settles with the worker's final message;
    a throw inside the executor rejects it. *)
Definition toolJsExec (args : value) : completion value :=
  code ← prop args "code" ;
  safe ← (if or code (VStr "") is VStr s then Normal (neutralizeScriptEnd 0 s)
          else Throw (TypeError "replace is not a function")) ;
  let '(msgs, final) := runWorker host safe in
  let logs := VArr (map (λ data, VStr (joinSpace data)) msgs) in
  Normal (match final with
          | WError e => VObj [("logs", logs); ("error", VStr e)]
          | WDone r => VObj [("logs", logs); ("result", r)]
          end).

(** [switch (name)] compares with [===]. *)
Definition executeTool (name args : value) : completion value :=
  if isStr name "web_search" then toolWebSearch args
  else if isStr name "aipipe_proxy" then toolAIPipeProxy args
  else if isStr name "js_exec" then toolJsExec args
  else n ← toString name ; Normal (VObj [("error", VStr ("Unknown tool: " +:+ n))]).

End Tools.

(** ** The session and the agent loop (lines 20, 23-66, 225-277, 596-607) *)

(** [state], with what the page shows: the alert banners and the chat
    rows, each in the order added. *)
Record session : Type := mkSession {
  messages : list value;
  running : bool;
  alerts : list (string * string);
  chat : list (string * string)
}.

Definition setBusy (b : bool) (st : session) : session :=
  mkSession (messages st) b (alerts st) (chat st).

Definition addAlert (type msg : string) (st : session) : session :=
  mkSession (messages st) (running st) (alerts st ++ [(type, msg)]) (chat st).

(** [addMessage(role, content)] with a string [content]: tool and system
    rows stay hidden. *)
Definition addMessage (role content : string) (st : session) : session :=
  if String.eqb role "tool" || String.eqb role "system" then st
  else mkSession (messages st) (running st) (alerts st) (chat st ++ [(role, content)]).

(** [state.messages.push(m)] *)
Definition pushMessage (m : value) (st : session) : session :=
  mkSession (messages st ++ [m]) (running st) (alerts st) (chat st).

Definition escapeHtml (v : value) : completion string :=
  s ← JS.toString v ; Normal (JS.escapeChars s).

(** How a turn of the [while] loop ends. *)
Inductive flow : Type := Continue | Break.

Section AgentLoop.
Context (host : Host).
(** [callLLM(state.messages, tools)] (lines 280-313) with all that lies
    behind it, the provider and the network: at the k-th call and on the
    given transcript it raises some alerts and settles with a reply, with
    [null] for no reply, or with an exception. *)
Context (callLLM : nat → list value → list (string * string) * completion value).
Import JS.

(** [getAssistantMessage], line 432. *)
Definition getAssistantMessage (data : value) : completion value :=
  let choices := optprop data "choices" in
  if truthy (if nullish choices then VUndef else lengthOf choices)
  then prop (at0 (get data "choices")) "message"
  else Normal VNull.

(** Lines 253-258: the arguments of a tool call, [{}] when reading or
    parsing them throws. *)
Definition toolCallArgs (tc : value) : value :=
  match (a ← prop (get tc "function") "arguments" ;
         if a is VStr s
         then (if JSON_parse host s is Some v then Normal v
               else Throw (Exn "SyntaxError" "Unexpected token"))
         else Normal (or a (VObj [])))
  with
  | Normal args => args
  | Throw _ => VObj []
  end.

(** [await executeTool(name, args).catch(e => ({ error: String(e) }))], line 260. *)
Definition executeToolCaught (name args : value) : value :=
  match executeTool host name args with
  | Normal result => result
  | Throw e => VObj [("error", VStr (exnToString e))]
  end.

(** The body of [for (const tc of toolCalls)], lines 253-268. *)
Definition runToolCall (st : session) (tc : value) : session * completion unit :=
  let args := toolCallArgs tc in
  match prop (get tc "function") "name" with
  | Throw e => (st, Throw e)
  | Normal name =>
      let result := executeToolCaught name args in
      (pushMessage (VObj [("role", VStr "tool");
                          ("tool_call_id", or (get tc "id") VUndef);
                          ("name", name);
                          ("content", VStr (JSON_stringify host result))]) st,
       Normal ())
  end.

Fixpoint runToolCalls (st : session) (tcs : list value) : session * completion unit :=
  match tcs with
  | [] => (st, Normal ())
  | tc :: tcs' =>
      match runToolCall st tc with
      | (st', Normal _) => runToolCalls st' tcs'
      | (st', Throw e) => (st', Throw e)
      end
  end.

(** The body of the [while] loop, lines 232-270; [k] numbers the call of
    the provider. *)
Definition iteration (k : nat) (st : session) : session * completion flow :=
  let '(raised, reply) := callLLM k (messages st) in
  let st := mkSession (messages st) (running st) (alerts st ++ raised) (chat st) in
  match reply with
  | Throw e => (st, Throw e)
  | Normal resp =>
      if negb (truthy resp) then (st, Normal Break)
      else
        match getAssistantMessage resp with
        | Throw e => (st, Throw e)
        | Normal msg =>
            let toolCalls := keptToolCalls (optprop msg "tool_calls") in
            let assistantMsg :=
              [("role", VStr "assistant"); ("content", or (optprop msg "content") (VStr ""))] ++
              (if (0 <? length toolCalls)%nat then [("tool_calls", VArr toolCalls)] else []) in
            let st := pushMessage (VObj assistantMsg) st in
            match (if truthy (optprop msg "content")
                   then (html ← escapeHtml (get msg "content") ;
                         Normal (addMessage "assistant" html st))
                   else Normal st)
            with
            | Throw e => (st, Throw e)
            | Normal st =>
                if (length toolCalls =? 0)%nat then (st, Normal Break)
                else
                  match runToolCalls st toolCalls with
                  | (st', Normal _) => (st', Normal Continue)
                  | (st', Throw e) => (st', Throw e)
                  end
            end
        end
  end.

(** What the [while] loop leaves: how many times its body ran, the
    session, and whether it ended normally. *)
Record loopEnd : Type := mkLoopEnd {
  iterations : nat;
  final : session;
  outcome : completion unit
}.

(** [let turns = 0; while (turns++ < 8) { ... }], lines 230-271. [turns]
    is the variable's value before the test, which is also the number of
    turns done so far and the number of the next call of the provider.
    [None] when the fuel does not suffice. *)
Fixpoint whileTurns (fuel : nat) (turns : nat) (st : session) : option loopEnd :=
  match fuel with
  | O => None
  | S fuel' =>
      if (turns <? 8)%nat then
        match iteration turns st with
        | (st', Normal Continue) => whileTurns fuel' (S turns) st'
        | (st', Normal Break) => Some (mkLoopEnd (S turns) st' (Normal ()))
        | (st', Throw e) => Some (mkLoopEnd (S turns) st' (Throw e))
        end
      else Some (mkLoopEnd turns st (Normal ()))
  end.

(** [err?.message || String(err)] *)
Definition errorText (err : exn) : string :=
  if negb (String.eqb (exn_message err) "") then exn_message err else exnToString err.

(** [agentLoop], lines 225-277: the guard, then the loop inside
    try/catch/finally. The count is that of the loop. *)
Definition agentLoop (fuel : nat) (st : session) : option (nat * session) :=
  if running st then Some (O, st)
  else
    let st := setBusy true st in
    match whileTurns fuel 0 st with
    | None => None
    | Some r =>
        let st :=
          match outcome r with
          | Normal _ => final r
          | Throw err =>
              addAlert "danger" ("Agent loop error: " +:+ escapeChars (errorText err)) (final r)
          end in
        Some (iterations r, setBusy false st)
    end.

(** [onSend], lines 596-607, on the text of the input box. *)
Definition onSend (fuel : nat) (input : string) (st : session) : option session :=
  if running st then Some st
  else
    let text := trim input in
    if negb (truthy (VStr text)) then Some st
    else
      let st := addMessage "user" (escapeChars text) st in
      let st := pushMessage (VObj [("role", VStr "user"); ("content", VStr text)]) st in
      snd <$> agentLoop fuel st.

End AgentLoop.

(** ** Stand-ins for the host

    Small hosts to run the code on concrete inputs. [stubStringify] writes
    a value in JSON syntax (without escapes inside strings); [stubParse]
    reads back the few texts the examples use. *)

Definition quoted (s : string) : string :=
  String (ascii_of_nat 34) (s +:+ String (ascii_of_nat 34) EmptyString).

Fixpoint joinComma (l : list string) : string :=
  match l with
  | [] => ""
  | [s] => s
  | s :: l' => s +:+ "," +:+ joinComma l'
  end.

Fixpoint stubStringify (v : value) : string :=
  match v with
  | VUndef | VNull => "null"
  | VBool b => if b then "true" else "false"
  | VNum n => pretty n
  | VStr s => quoted s
  | VArr l => "[" +:+ joinComma (map stubStringify l) +:+ "]"
  | VObj fs =>
      "{" +:+
      joinComma
        ((fix members (fs : list (string * value)) : list string :=
            match fs with
            | [] => []
            | (_, VUndef) :: fs' => members fs'
            | (k, v) :: fs' => (quoted k +:+ ":" +:+ stubStringify v) :: members fs'
            end) fs) +:+
      "}"
  end.

Definition stubParse (s : string) : option value :=
  if String.eqb s "{}" then Some (VObj [])
  else if String.eqb s "null" then Some VNull
  else if String.eqb s "[]" then Some (VArr [])
  else if String.eqb s "3" then Some (VNum 3)
  else None.

Definition okResponse (body : value) : Response :=
  mkResponse true 200 "OK" (Normal (stubStringify body)) (Normal body).

Definition failResponse (status : Z) (statusText body : string) : Response :=
  mkResponse false status statusText (Normal body)
    (Throw (Exn "SyntaxError" "Unexpected token")).

Definition offline : exn := TypeError "Failed to fetch".

Definition noSettings : Settings := mkSettings "openai" "" "gpt-4o-mini" 800 "" "".

Definition googleSettings : Settings := mkSettings "openai" "" "gpt-4o-mini" 800 "KEY" "CX".

(** A host without network: every request is rejected. *)
Definition offlineHost (s : Settings) : Host :=
  mkHost stubParse stubStringify (λ s, s) s
    (λ _, Throw offline) (λ _ _ _, Throw offline)
    (λ _, ([], WDone VUndef)) (λ _, "r4nd0m") (λ _, None)
    (Throw offline).

(** A host whose every GET is answered by [get] and every POST by [post]. *)
Definition stubHost (s : Settings) (get : string → completion Response)
    (post : completion Response) : Host :=
  mkHost stubParse stubStringify (λ s, s) s
    get (λ _ _ _, post)
    (λ _, ([], WDone VUndef)) (λ _, "r4nd0m") (λ _, None)
    (Throw offline).

(** ** Vocabulary of the statements *)

(** The assistant messages that keep their tool calls: the test of
    lines 191-193. *)
Definition carriesToolCalls (m : value) : bool :=
  JS.isStr (JS.get m "role") "assistant" &&
  (0 <? length (JS.keptToolCalls (JS.get m "tool_calls")))%nat.

(** The messages on which the callback of the sanitizer does not throw:
    [m.role] can be read, and the text of a message that keeps its tool
    calls converts to a string. *)
Definition sanitizable (m : value) : bool :=
  negb (JS.nullish m) &&
  (if carriesToolCalls m
   then (if JS.toString (JS.coalesce (JS.get m "content") (VStr "")) is Normal _
         then true else false)
   else true).

(** The own properties of an object value. *)
Definition fieldsOf (v : value) : list (string * value) :=
  if v is VObj fs then fs else [].

(** A transcript for the examples: an assistant turn with a tool call and
    blank text, one with a tool call and text, one with an empty
    [tool_calls] array, and a user turn. *)
Definition exampleCall : value :=
  VObj [("id", VStr "call_1"); ("type", VStr "function");
        ("function", VObj [("name", VStr "web_search"); ("arguments", VStr "{}")])].

Definition exampleTranscript : list value :=
  [VObj [("role", VStr "assistant"); ("content", VStr "  ");
         ("tool_calls", VArr [VNull; exampleCall])];
   VObj [("role", VStr "assistant"); ("content", VStr " searching ");
         ("tool_calls", VArr [exampleCall])];
   VObj [("role", VStr "assistant"); ("content", VStr "done"); ("tool_calls", VArr [])];
   VObj [("role", VStr "user"); ("content", VNum 7)]].

(** The messages the two adapters translate: a truthy message whose role
    is [user], [assistant] or [tool]. *)
Definition translated (m : value) : bool :=
  JS.truthy m &&
  (JS.isStr (JS.get m "role") "user" || JS.isStr (JS.get m "role") "assistant" ||
   JS.isStr (JS.get m "role") "tool").

(** A transcript with a system prompt, a message without role and one
    with an unknown role among the others. *)
Definition mixedTranscript : list value :=
  [VObj [("role", VStr "system"); ("content", VStr "You are helpful.")];
   VObj [("role", VStr "user"); ("content", VStr "hi")];
   VObj [("content", VStr "no role")];
   VObj [("role", VStr "assistant"); ("content", VStr ""); ("tool_calls", VArr [exampleCall])];
   VObj [("role", VStr "tool"); ("tool_call_id", VStr "call_1"); ("name", VStr "web_search");
         ("content", VStr "{}")];
   VObj [("role", VStr "developer"); ("content", VStr "x")];
   VNull;
   VObj [("role", VStr "tool"); ("name", VStr "js_exec"); ("content", VStr "oops")]].

(** The roles of the entries each adapter writes. *)
Definition geminiRole (entry : value) : Prop :=
  (JS.isStr (JS.get entry "role") "user" || JS.isStr (JS.get entry "role") "model" ||
   JS.isStr (JS.get entry "role") "tool") = true.

Definition anthropicRole (entry : value) : Prop :=
  (JS.isStr (JS.get entry "role") "user" || JS.isStr (JS.get entry "role") "assistant") = true.

(** The items of a search result, and what a lookup that found nothing
    or failed leaves. *)
Definition itemsOf (result : value) : list value := JS.elems (JS.get result "items").

Definition sourceResult (q : value) (provider : string) (items : list value) : value :=
  match items with
  | [] => VNull
  | _ => VObj [("query", q); ("provider", VStr provider); ("items", VArr items)]
  end.

(** The two no-key sources, answering as the public services do: the
    first with an abstract and one related topic, the second with a page
    summary. *)
Definition ddgAnswer : value :=
  VObj [("Heading", VStr "Rocq");
        ("AbstractText", VStr "Rocq is a proof assistant.");
        ("AbstractURL", VStr "https://rocq-prover.org");
        ("RelatedTopics",
          VArr [VObj [("Text", VStr "Coq - the former name of Rocq");
                      ("FirstURL", VStr "https://coq.inria.fr")]])].

Definition wikiAnswer : value :=
  VObj [("title", VStr "Rocq");
        ("extract", VStr "Rocq is an interactive theorem prover.");
        ("content_urls",
          VObj [("desktop", VObj [("page", VStr "https://en.wikipedia.org/wiki/Rocq")])])].

Definition fallbackHost : Host :=
  stubHost noSettings
    (λ url, if String.prefix "https://api.duckduckgo.com/" url
            then Normal (okResponse ddgAnswer)
            else Normal (okResponse wikiAnswer))
    (Throw offline).

(** A search engine that answers every request with five items. *)
Definition searchHit (k : Z) : value :=
  VObj [("title", VStr ("title " +:+ pretty k));
        ("link", VStr ("https://example.org/" +:+ pretty k));
        ("snippet", VStr ("snippet " +:+ pretty k));
        ("displayLink", VStr "example.org")].

Definition fiveHits : value :=
  VObj [("items", VArr (map searchHit [1; 2; 3; 4; 5]))].

(** The three properties kept of a search hit. *)
Definition shapedItem (i : value) : value :=
  VObj [("title", JS.get i "title"); ("link", JS.get i "link");
        ("snippet", JS.get i "snippet")].

Definition isObject (v : value) : Prop := ∃ fs, v = VObj fs.

(** The tool message of lines 263-268 for the call [tc] and the result
    [result] of its tool. *)
Definition toolMessage (host : Host) (tc result : value) : value :=
  VObj [("role", VStr "tool");
        ("tool_call_id", JS.or (JS.get tc "id") VUndef);
        ("name", JS.get (JS.get tc "function") "name");
        ("content", VStr (JSON_stringify host result))].

(** The tool calls of a reply, as the loop reads them (lines 235-238). *)
Definition replyToolCalls (resp : value) : completion (list value) :=
  msg ← getAssistantMessage resp ;
  Normal (JS.keptToolCalls (JS.optprop msg "tool_calls")).

(** A reply the loop can show: its text, when there is one, converts to
    a string. *)
Definition showable (resp : value) : Prop :=
  ∃ msg, getAssistantMessage resp = Normal msg ∧
         (JS.truthy (JS.optprop msg "content") = true →
          ∃ s, JS.toString (JS.get msg "content") = Normal s).

(** Providers for the loop: one that always answers, raising no alert,
    with a reply without tool calls; one that always answers with a
    reply carrying exactly one tool call that names its function. *)
Definition alwaysNoToolCall
    (callLLM : nat → list value → list (string * string) * completion value) : Prop :=
  ∀ k ms, ∃ resp,
    callLLM k ms = ([], Normal resp) ∧ JS.truthy resp = true ∧
    replyToolCalls resp = Normal [].

Definition alwaysOneToolCall
    (callLLM : nat → list value → list (string * string) * completion value) : Prop :=
  ∀ k ms, ∃ resp tc,
    callLLM k ms = ([], Normal resp) ∧ JS.truthy resp = true ∧
    replyToolCalls resp = Normal [tc] ∧
    JS.nullish (JS.get tc "function") = false ∧
    showable resp.

(** A tool call of the data model, with its id, the name of its
    function and its raw arguments, as the providers write it. *)
Definition toolCallOf (id name arguments : string) : value :=
  VObj [("id", VStr id); ("type", VStr "function");
        ("function", VObj [("name", VStr name); ("arguments", VStr arguments)])].

(** Replies in the shape of the OpenAI API, and the two providers above. *)
Definition replyWith (content : string) (toolCalls : list value) : value :=
  VObj [("choices",
          VArr [VObj [("message",
                       VObj [("role", VStr "assistant"); ("content", VStr content);
                             ("tool_calls", VArr toolCalls)])]])].

(** A reply whose message has text and no [tool_calls] property. *)
Definition replyText (content : string) : value :=
  VObj [("choices",
          VArr [VObj [("message",
                       VObj [("role", VStr "assistant"); ("content", VStr content)])]])].

(** Provider stubs, by the replies they give: at every call and on
    every transcript, a reply with some text and no tool call (the
    property missing, or an empty array); a reply with some text and
    exactly one tool call of the data model. *)
Definition stubWithoutToolCalls
    (callLLM : nat → list value → list (string * string) * completion value) : Prop :=
  ∀ k ms, ∃ content,
    callLLM k ms = ([], Normal (replyText content)) ∨
    callLLM k ms = ([], Normal (replyWith content [])).

Definition stubWithOneToolCall
    (callLLM : nat → list value → list (string * string) * completion value) : Prop :=
  ∀ k ms, ∃ content id name arguments,
    callLLM k ms = ([], Normal (replyWith content [toolCallOf id name arguments])).

Definition answeringProvider (_ : nat) (_ : list value)
    : list (string * string) * completion value :=
  ([], Normal (replyWith "All done." [])).

Definition searchingProvider (_ : nat) (_ : list value)
    : list (string * string) * completion value :=
  ([], Normal (replyWith "" [exampleCall])).

Definition idleSession : session := mkSession [] false [] [].

Definition busySession : session :=
  mkSession [VObj [("role", VStr "user"); ("content", VStr "hi")]] true [] [].

(** A tool call whose arguments are not JSON. *)
Definition garbledCall : value :=
  VObj [("id", VStr "call_2"); ("type", VStr "function");
        ("function", VObj [("name", VStr "web_search"); ("arguments", VStr "{q: rocq")])].

(** ** The sanitizer on a store

    The same function, lines 184-222, with the objects and arrays of the
    page in a store: a message is a reference, [messages.map], [filter]
    and the object literals allocate, an assignment [out.k = v] writes to
    the object [out] refers to. This is the model for what the sanitizer
    does to the objects it is given. *)

Module Heap.

Definition loc := positive.

Inductive hval : Type :=
| HUndef
| HNull
| HBool (b : bool)
| HNum (n : Z)
| HStr (s : string)
| HRef (l : loc).

Inductive hobj : Type :=
| HObject (fields : list (string * hval))
| HArray (items : list hval).

Abbreviation heap := (gmap loc hobj).

Definition truthy (v : hval) : bool :=
  match v with
  | HUndef | HNull => false
  | HBool b => b
  | HNum n => negb (n =? 0)
  | HStr s => negb (String.eqb s "")
  | HRef _ => true
  end.

Definition nullish (v : hval) : bool :=
  match v with
  | HUndef | HNull => true
  | _ => false
  end.

Definition isStr (v : hval) (lit : string) : bool :=
  if v is HStr s then String.eqb s lit else false.

Definition isString (v : hval) : bool := if v is HStr _ then true else false.

Definition coalesce (v d : hval) : hval := if nullish v then d else v.

Fixpoint assoc (k : string) (fs : list (string * hval)) : option hval :=
  match fs with
  | [] => None
  | (k', v) :: fs' => if String.eqb k k' then Some v else assoc k fs'
  end.

(** [o.k = v] on the property list: replace in place, or add at the end. *)
Fixpoint setField (k : string) (v : hval) (fs : list (string * hval)) : list (string * hval) :=
  match fs with
  | [] => [(k, v)]
  | (k', v') :: fs' => if String.eqb k k' then (k, v) :: fs' else (k', v') :: setField k v fs'
  end.

(** [v.k] on a [v] that is neither [null] nor [undefined]. *)
Definition get (h : heap) (v : hval) (k : string) : hval :=
  match v with
  | HRef l => if h !! l is Some (HObject fs) then default HUndef (assoc k fs) else HUndef
  | _ => HUndef
  end.

(** [v?.k] *)
Definition optprop (h : heap) (v : hval) (k : string) : hval :=
  if nullish v then HUndef else get h v k.

(** A new object or array, at a location the store does not use. *)
Definition alloc (o : hobj) (h : heap) : loc * heap :=
  let l := fresh (dom h) in (l, <[l := o]> h).

(** [l.k = v] *)
Definition setProp (l : loc) (k : string) (v : hval) (h : heap) : heap :=
  if h !! l is Some (HObject fs) then <[l := HObject (setField k v fs)]> h else h.

(** The store of the next element of the array [map] is filling. *)
Definition pushItem (l : loc) (v : hval) (h : heap) : heap :=
  if h !! l is Some (HArray items) then <[l := HArray (items ++ [v])]> h else h.

(** [Array.isArray(v) ? v.filter(Boolean) : []]: the elements of the new
    array. *)
Definition keptToolCalls (h : heap) (v : hval) : list hval :=
  match v with
  | HRef l => if h !! l is Some (HArray items) then List.filter truthy items else []
  | _ => []
  end.

Section Sanitizer.
(** The conversions of the host read the store and leave it as it is:
    [String(v)] / [v.toString()] and [JSON.stringify(v)]. *)
Context (toStringH : heap → hval → completion string).
Context (stringifyH : heap → hval → string).

Definition asString (h : heap) (v : hval) : string :=
  match v with
  | HStr s => s
  | HUndef | HNull => ""
  | _ => stringifyH h v
  end.

(** The callback of [tc.map], lines 195-204: two new objects. *)
Definition sanitizeToolCall (h : heap) (t : hval) : hval * heap :=
  let '(o, h) := alloc (HObject []) h in
  let h := setProp o "id" (get h t "id") h in
  let h := setProp o "type" (HStr "function") h in
  let f := get h t "function" in
  let '(fo, h) := alloc (HObject []) h in
  let h := setProp fo "name" (optprop h f "name") h in
  let '(arguments, h) :=
    if isString (optprop h f "arguments") then (get h f "arguments", h)
    else if truthy (optprop h f "arguments")
         then (HStr (stringifyH h (optprop h f "arguments")), h)
         else let '(empty, h) := alloc (HObject []) h in
              (HStr (stringifyH h (HRef empty)), h) in
  let h := setProp fo "arguments" arguments h in
  let h := setProp o "function" (HRef fo) h in
  (HRef o, h).

(** [tc.map(callback)]: a new array, filled in order. *)
Definition mapToolCalls (h : heap) (tc : list hval) : hval * heap :=
  let '(arr, h) := alloc (HArray []) h in
  (HRef arr,
   fold_left (λ h t, let '(v, h) := sanitizeToolCall h t in pushItem arr v h) tc h).

(** The callback of [messages.map], lines 185-221. *)
Definition sanitizeMessage (h : heap) (m : hval) : completion hval * heap :=
  if nullish m then (Throw (TypeError "Cannot read properties"), h)
  else
    let '(out, h) := alloc (HObject []) h in
    let h := setProp out "role" (get h m "role") h in
    if isStr (get h m "role") "assistant" then
      let items := keptToolCalls h (get h m "tool_calls") in
      let '(_, h) := alloc (HArray items) h in
      if (0 <? length items)%nat then
        let '(calls, h) := mapToolCalls h items in
        let h := setProp out "tool_calls" calls h in
        match toStringH h (coalesce (get h m "content") (HStr "")) with
        | Throw e => (Throw e, h)
        | Normal c0 =>
            let c := JS.trim c0 in
            (Normal (HRef out),
             setProp out "content" (if (0 <? String.length c)%nat then HStr c else HNull) h)
        end
      else
        (Normal (HRef out),
         setProp out "content" (HStr (asString h (coalesce (get h m "content") (HStr "")))) h)
    else if isStr (get h m "role") "tool" then
      let h := setProp out "tool_call_id" (get h m "tool_call_id") h in
      let h := if truthy (get h m "name") then setProp out "name" (get h m "name") h else h in
      (Normal (HRef out),
       setProp out "content" (HStr (asString h (coalesce (get h m "content") (HStr "")))) h)
    else
      let h := setProp out "content"
                 (HStr (asString h (coalesce (get h m "content") (HStr "")))) h in
      let h := if truthy (get h m "name") then setProp out "name" (get h m "name") h else h in
      (Normal (HRef out), h).

(** The loop of [messages.map] over the elements, storing each result in
    the array [arr]; the first exception ends it. *)
Fixpoint mapMessages (arr : loc) (ms : list hval) (h : heap) : completion unit * heap :=
  match ms with
  | [] => (Normal (), h)
  | m :: ms' =>
      match sanitizeMessage h m with
      | (Normal v, h) => mapMessages arr ms' (pushItem arr v h)
      | (Throw e, h) => (Throw e, h)
      end
  end.

(** [sanitizeMessagesForOpenAI(messages)] for the array at [messages]. *)
Definition sanitizeMessagesForOpenAI (h : heap) (messages : hval) : completion hval * heap :=
  match messages with
  | HRef l =>
      match h !! l with
      | Some (HArray ms) =>
          let '(arr, h) := alloc (HArray []) h in
          match mapMessages arr ms h with
          | (Normal _, h) => (Normal (HRef arr), h)
          | (Throw e, h) => (Throw e, h)
          end
      | _ => (Throw (TypeError "messages.map is not a function"), h)
      end
  | _ => (Throw (TypeError "messages.map is not a function"), h)
  end.

End Sanitizer.

(** Every object of [h0] is in [h], unchanged. *)
Definition unchanged (h0 h : heap) : Prop :=
  ∀ l o, h0 !! l = Some o → h !! l = Some o.

(** A reference to an object that [h0] does not have. *)
Definition newIn (h0 : heap) (v : hval) : Prop :=
  ∃ l, v = HRef l ∧ h0 !! l = None.

End Heap.

(** A store for the examples: the transcript array at 1, a user message
    at 2, an assistant message at 3 with its tool calls at 4 and one call
    at 5, whose function object is at 6. The conversions of the examples
    know strings only. *)
Definition exampleHeap : Heap.heap :=
  list_to_map
    [(1%positive, Heap.HArray [Heap.HRef 2%positive; Heap.HRef 3%positive]);
     (2%positive, Heap.HObject [("role", Heap.HStr "user"); ("content", Heap.HStr "hi")]);
     (3%positive, Heap.HObject [("role", Heap.HStr "assistant"); ("content", Heap.HStr " ");
                                ("tool_calls", Heap.HRef 4%positive)]);
     (4%positive, Heap.HArray [Heap.HRef 5%positive]);
     (5%positive, Heap.HObject [("id", Heap.HStr "call_1"); ("function", Heap.HRef 6%positive)]);
     (6%positive, Heap.HObject [("name", Heap.HStr "js_exec");
                                ("arguments", Heap.HStr "{}")])].

Definition stubToStringH (h : Heap.heap) (v : Heap.hval) : completion string :=
  match v with
  | Heap.HStr s => Normal s
  | Heap.HRef _ => Normal "[object Object]"
  | _ => Normal ""
  end.

Definition stubStringifyH (h : Heap.heap) (v : Heap.hval) : string :=
  match v with
  | Heap.HStr s => quoted s
  | _ => "{}"
  end.

(** ** Vocabulary of the further properties *)

(** [s] starts with [p], the letters of [s] read without case. *)
Fixpoint startsWithFold (p s : string) : bool :=
  match p, s with
  | EmptyString, _ => true
  | String a p', String c s' => Ascii.eqb (JS.lowerAscii c) a && startsWithFold p' s'
  | _, _ => false
  end.

(** [s] without its first [n] units. *)
Fixpoint dropString (n : nat) (s : string) : string :=
  match n, s with
  | O, _ => s
  | S n', String _ s' => dropString n' s'
  | S _, EmptyString => EmptyString
  end.

(** A message of the kinds the loop writes, and a chat row it shows. *)
Definition loopMessage (m : value) : Prop :=
  (JS.isStr (JS.get m "role") "assistant" || JS.isStr (JS.get m "role") "tool") = true.

Definition escapedRow (row : string * string) : Prop :=
  row.1 = "assistant" ∧
  Forall (λ c, c ≠ "<"%char ∧ c ≠ ">"%char) (list_ascii_of_string row.2).

(** [st'] is [st] with more at the end of its transcript, its chat and
    its alerts, and nothing else changed in them. *)
Definition extends (st st' : session) : Prop :=
  ∃ added rows raised,
    messages st' = messages st ++ added ∧ Forall loopMessage added ∧
    chat st' = chat st ++ rows ∧ Forall escapedRow rows ∧
    alerts st' = alerts st ++ raised.

(** A provider whose first answer is a text and whose later answers ask
    for two tools at once. *)
Definition secondCall : value :=
  VObj [("id", VStr "call_3"); ("type", VStr "function");
        ("function", VObj [("name", VStr "js_exec");
                           ("arguments", VStr "{}")])].

Definition twoToolsProvider (_ : nat) (_ : list value)
    : list (string * string) * completion value :=
  ([], Normal (replyWith "<b>working</b>" [exampleCall; secondCall])).

(** The tool message the loop pushes for the call [tc]. *)
Definition toolMessageOf (host : Host) (tc : value) : value :=
  toolMessage host tc
    (executeToolCaught host (JS.get (JS.get tc "function") "name") (toolCallArgs host tc)).

(** Providers that fail: one without a reply, after a warning; one that
    throws; one whose reply has no choices. *)
Definition silentProvider (_ : nat) (_ : list value)
    : list (string * string) * completion value :=
  ([("warning", "Missing API key/token for openai.")], Normal VNull).

Definition brokenProvider (_ : nat) (_ : list value)
    : list (string * string) * completion value :=
  ([], Throw (TypeError "key.trim is not a function")).

Definition emptyProvider (_ : nat) (_ : list value)
    : list (string * string) * completion value :=
  ([], Normal (VObj [("choices", VArr [])])).

(** The shape of a sanitized tool call: the kind [function], and the
    arguments as a string. *)
Definition strictToolCall (c : value) : Prop :=
  JS.get c "type" = VStr "function" ∧
  ∃ a, JS.get (JS.get c "function") "arguments" = VStr a.

(** What the sanitizer makes of the message [m]: the same role; content
    that is a string, or [null] beside tool calls only; string content
    kept as it is where no tool calls are kept; the id of a tool message
    kept; tool calls in the strict shape. *)
Definition sanitizedFrom (m o : value) : Prop :=
  JS.get o "role" = JS.get m "role" ∧
  (JS.get o "content" = VNull ∧ carriesToolCalls m = true ∨
   ∃ s, JS.get o "content" = VStr s) ∧
  (∀ s, carriesToolCalls m = false → JS.get m "content" = VStr s →
        JS.get o "content" = VStr s) ∧
  (JS.isStr (JS.get m "role") "tool" = true →
   JS.get o "tool_call_id" = JS.get m "tool_call_id") ∧
  Forall strictToolCall (JS.elems (JS.get o "tool_calls")).

(** ** The tool schema (lines 99-143) *)

Definition tools : value :=
  VArr
    [VObj [("type", VStr "function");
           ("function",
             VObj [("name", VStr "web_search");
                   ("description",
                     VStr "Search the web for top snippets (Google CSE if keys provided; otherwise DDG/Wikipedia fallback).");
                   ("parameters",
                     VObj [("type", VStr "object");
                           ("properties",
                             VObj [("q", VObj [("type", VStr "string");
                                               ("description", VStr "Search query")]);
                                   ("num", VObj [("type", VStr "integer");
                                                 ("description", VStr "Number of results");
                                                 ("default", VNum 3); ("minimum", VNum 1);
                                                 ("maximum", VNum 10)])]);
                           ("required", VArr [VStr "q"])])])];
     VObj [("type", VStr "function");
           ("function",
             VObj [("name", VStr "aipipe_proxy");
                   ("description",
                     VStr "Call AI Pipe OpenRouter-compatible chat endpoint to get a short completion.");
                   ("parameters",
                     VObj [("type", VStr "object");
                           ("properties",
                             VObj [("prompt", VObj [("type", VStr "string")]);
                                   ("model", VObj [("type", VStr "string");
                                                   ("description", VStr "Model on AI Pipe");
                                                   ("default", VStr "openai/gpt-4o-mini")]);
                                   ("max_tokens", VObj [("type", VStr "integer");
                                                        ("default", VNum 200)])]);
                           ("required", VArr [VStr "prompt"])])])];
     VObj [("type", VStr "function");
           ("function",
             VObj [("name", VStr "js_exec");
                   ("description",
                     VStr "Securely execute JavaScript code in a sandboxed Worker; return logs & result.");
                   ("parameters",
                     VObj [("type", VStr "object");
                           ("properties",
                             VObj [("code", VObj [("type", VStr "string");
                                                  ("description",
                                                    VStr "JavaScript code to run")])]);
                           ("required", VArr [VStr "code"])])])]].

(** ** The reply adapters and the tool declarations
    (lines 341-346, 360-375, 391-395, 409-420) *)

Section ReplyAdapters.
Context (host : Host).
Import JS.

(** [for (const x of v)]: the elements of an array, the units of a
    string; no other value of the model is iterable. *)
Definition iterate (v : value) : completion (list value) :=
  match v with
  | VArr l => Normal l
  | VStr s => Normal (map (λ c, VStr (String c EmptyString)) (list_ascii_of_string s))
  | _ => Throw (TypeError "is not iterable")
  end.

(** [content += (content ? '\n' : '') + text] *)
Definition appendText (content text : string) : string :=
  content +:+ (if truthy (VStr content) then String (ascii_of_nat 10) EmptyString else "")
          +:+ text.

(** The canonical tool call both reply adapters build. *)
Definition canonicalCall (id name : value) (arguments : value) : value :=
  VObj [("id", id); ("type", VStr "function");
        ("function",
          VObj [("name", name);
                ("arguments", VStr (JSON_stringify host (or arguments (VObj []))))])].

(** The body of the loop of [fromGeminiResponseToOpenAI], lines 365-372,
    on the text so far, the tool calls so far and the number of draws of
    [Math.random] so far. *)
Definition geminiPart (acc : string * list value * nat) (p : value)
    : string * list value * nat :=
  let '(content, calls, rnd) := acc in
  let content := if optprop p "text" is VStr t then appendText content t else content in
  let fc := optprop p "functionCall" in
  if truthy fc && truthy (get fc "name")
  then (content,
        calls ++ [canonicalCall (VStr ("gemini_" +:+ randomSuffix host rnd))
                                (get fc "name") (get fc "args")],
        S rnd)
  else (content, calls, rnd).

(** The reply both adapters return: [{ choices }] with the one message. *)
Definition canonicalReply (content : string) (calls : list value) : value :=
  VObj [("choices",
          VArr [VObj [("message",
                       VObj [("role", VStr "assistant"); ("content", VStr content);
                             ("tool_calls", VArr calls)])]])].

Definition fromGeminiResponseToOpenAI (rnd : nat) (data : value) : completion value :=
  parts ← iterate
             (or (optprop (optprop (optat0 (optprop data "candidates")) "content") "parts")
                 (VArr [])) ;
  let '(content, calls, _) := fold_left geminiPart parts ("", [], rnd) in
  Normal (canonicalReply content calls).

(** The body of the loop of [fromAnthropicResponseToOpenAI], lines 414-417. *)
Definition anthropicBlock (acc : string * list value * nat) (b : value)
    : completion (string * list value * nat) :=
  let '(content, calls, rnd) := acc in
  type ← prop b "type" ;
  if isStr type "text" && isString (get b "text") then
    Normal ((if get b "text" is VStr t then appendText content t else content), calls, rnd)
  else if isStr type "tool_use" then
    let '(id, rnd') :=
      if truthy (get b "id") then (get b "id", rnd)
      else (VStr ("claude_" +:+ randomSuffix host rnd), S rnd) in
    Normal (content, calls ++ [canonicalCall id (get b "name") (get b "input")], rnd')
  else Normal acc.

Definition fromAnthropicResponseToOpenAI (rnd : nat) (data : value) : completion value :=
  blocks ← iterate (or (optprop data "content") (VArr [])) ;
  acc ← forOf anthropicBlock blocks ("", [], rnd) ;
  let '(content, calls, _) := acc in
  Normal (canonicalReply content calls).

(** [(openaiTools || []).map(t => t?.function).filter(Boolean)] *)
Definition toolFunctions (openaiTools : value) : completion (list value) :=
  match or openaiTools (VArr []) with
  | VArr l => Normal (filterBoolean (map (λ t, optprop t "function") l))
  | _ => Throw (TypeError "map is not a function")
  end.

(** [toGeminiTools], lines 341-346. *)
Definition geminiDeclaration (fn : value) : value :=
  VObj [("name", get fn "name");
        ("description", or (get fn "description") (VStr ""));
        ("parameters", or (get fn "parameters") (VObj [("type", VStr "object")]))].

Definition toGeminiTools (openaiTools : value) : completion value :=
  fns ← toolFunctions openaiTools ;
  let declarations := map geminiDeclaration fns in
  Normal (VArr (if truthy (VNum (Z.of_nat (length declarations)))
                then [VObj [("functionDeclarations", VArr declarations)]]
                else [])).

(** [toAnthropicTools], lines 391-395. *)
Definition anthropicDeclaration (fn : value) : value :=
  VObj [("name", get fn "name");
        ("description", or (get fn "description") (VStr ""));
        ("input_schema", or (get fn "parameters") (VObj [("type", VStr "object")]))].

Definition toAnthropicTools (openaiTools : value) : completion value :=
  fns ← toolFunctions openaiTools ;
  Normal (VArr (map anthropicDeclaration fns)).

End ReplyAdapters.

(** ** The provider calls and their dispatcher (lines 80-96, 280-338, 376-388, 421-429) *)

(** [/^sk-[A-Za-z0-9]/.test(s)] *)
Definition isAlnum (c : ascii) : bool :=
  let n := nat_of_ascii c in
  ((48 <=? n) && (n <=? 57) || (65 <=? n) && (n <=? 90) || (97 <=? n) && (n <=? 122))%nat.

Definition looksLikeOpenAIKey (s : string) : bool :=
  match s with
  | String "s" (String "k" (String "-" (String c _))) => isAlnum c
  | _ => false
  end.

(** [validateApiKeyOrWarn(provider, key)]: the answer and the alerts it
    adds. [(key || '').trim()] throws on a truthy key that is no string. *)
Definition validateApiKeyOrWarn (provider : string) (key : value)
    : completion (bool * list (string * string)) :=
  trimmed ← (if JS.or key (VStr "") is VStr s then Normal (JS.trim s)
             else Throw (TypeError "trim is not a function")) ;
  if negb (JS.truthy (VStr trimmed)) then
    if String.eqb provider "aipipe" then Normal (true, [])
    else Normal (false, [("warning", "Missing API key/token for " +:+ provider +:+ ".")])
  else if String.eqb provider "openai" && negb (looksLikeOpenAIKey trimmed) then
    Normal (false,
            [("warning",
              "That does not look like an OpenAI key (should start with " +:+
              quoted "sk-" +:+ ").")])
  else if String.eqb provider "aipipe" && (String.length trimmed <? 20)%nat then
    Normal (false, [("warning", "AI Pipe token looks too short.")])
  else Normal (true, []).

(** What [callLLM] leaves: the alerts it added, whether it sent the page
    to the login of AI Pipe, and its result. *)
Record llmResult : Type := mkLlmResult {
  llm_raised : list (string * string);
  llm_redirected : bool;
  llm_reply : completion value
}.

Section Providers.
Context (host : Host).
(** The literal [0.7] of the request bodies, which the integer numbers
    of the model do not have. *)
Context (temperature : value).
Import JS.

Definition jsonHeaders (more : list (string * string)) : list (string * string) :=
  ("Content-Type", "application/json") :: more.

(** [callOpenAI], lines 316-324. *)
Definition callOpenAI (apiKey : value) (model : string) (messages : list value)
    (maxTokens : Z) (tools : value) : completion value :=
  bearer ← toString apiKey ;
  safeMessages ← sanitizeMessagesForOpenAI host messages ;
  let body := VObj [("model", VStr model); ("messages", VArr safeMessages);
                    ("max_tokens", VNum maxTokens); ("temperature", temperature);
                    ("tools", tools)] in
  res ← fetchPost host "https://api.openai.com/v1/chat/completions"
          (jsonHeaders [("Authorization", "Bearer " +:+ bearer)])
          (JSON_stringify host body) ;
  if negb (res_ok res) then text ← res_text res ; Throw (Exn "Error" text)
  else res_json res.

(** [callAIPipe], lines 327-338. *)
Definition callAIPipe (apiKey : value) (model : string) (messages : list value)
    (maxTokens : Z) (tools : value) : completion value :=
  bearer ← (if apiKey is VStr s then Normal (trim s)
            else Throw (TypeError "apiKey.trim is not a function")) ;
  safeMessages ← sanitizeMessagesForOpenAI host messages ;
  let body := VObj [("model", VStr model); ("messages", VArr safeMessages);
                    ("max_tokens", VNum maxTokens); ("temperature", temperature);
                    ("tools", tools)] in
  res ← fetchPost host "https://aipipe.org/openrouter/v1/chat/completions"
          (jsonHeaders [("Authorization", "Bearer " +:+ bearer)])
          (JSON_stringify host body) ;
  if negb (res_ok res) then
    text ← res_text res ;
    Throw (Exn "Error" (pretty (res_status res) +:+ " " +:+ res_statusText res +:+ ": " +:+ text))
  else res_json res.

(** [callGemini], lines 376-388; [rnd] is the number of draws of
    [Math.random] before the call. *)
Definition callGemini (rnd : nat) (apiKey : value) (model : string) (messages : list value)
    (maxTokens : Z) (openaiTools : value) : completion value :=
  key ← toString apiKey ;
  contents ← toGeminiContents host messages ;
  declared ← toGeminiTools openaiTools ;
  let body := VObj [("contents", VArr contents); ("tools", declared);
                    ("generationConfig",
                      VObj [("maxOutputTokens", VNum maxTokens);
                            ("temperature", temperature)])] in
  res ← fetchPost host
          ("https://generativelanguage.googleapis.com/v1beta/models/" +:+
           encodeURIComponent host model +:+ ":generateContent?key=" +:+
           encodeURIComponent host key)
          (jsonHeaders []) (JSON_stringify host body) ;
  if negb (res_ok res) then
    text ← res_text res ;
    Throw (Exn "Error" (pretty (res_status res) +:+ " " +:+ res_statusText res +:+ ": " +:+ text))
  else
    data ← res_json res ;
    fromGeminiResponseToOpenAI host rnd data.

(** [callAnthropic], lines 421-429: the key goes into a header, which
    [fetch] converts to a string. *)
Definition callAnthropic (rnd : nat) (apiKey : value) (model : string)
    (messages : list value) (maxTokens : Z) (openaiTools : value) : completion value :=
  declared ← toAnthropicTools openaiTools ;
  translated ← toAnthropicMessages host rnd messages ;
  let body := VObj [("model", VStr model); ("max_tokens", VNum maxTokens);
                    ("temperature", temperature); ("tools", declared);
                    ("messages", VArr translated.1)] in
  key ← toString apiKey ;
  res ← fetchPost host "https://api.anthropic.com/v1/messages"
          (jsonHeaders [("x-api-key", key); ("anthropic-version", "2023-06-01")])
          (JSON_stringify host body) ;
  if negb (res_ok res) then
    text ← res_text res ;
    Throw (Exn "Error" (pretty (res_status res) +:+ " " +:+ res_statusText res +:+ ": " +:+ text))
  else
    data ← res_json res ;
    fromAnthropicResponseToOpenAI host translated.2 data.

(** [return await call]: the reply of a provider that is one of the four. *)
Definition answered (call : completion value) : completion (option value) :=
  reply ← call ; Normal (Some reply).

(** The dispatch of lines 303-308: [None] for a provider that is none of
    the four. *)
Definition dispatch (rnd : nat) (key : value) (messages : list value) (tools : value)
    : completion (option value) :=
  let s := getSettings host in
  if String.eqb (provider s) "openai" then
    answered (callOpenAI key (model s) messages (maxTokens s) tools)
  else if String.eqb (provider s) "aipipe" then
    answered (callAIPipe key (model s) messages (maxTokens s) tools)
  else if String.eqb (provider s) "gemini" then
    answered (callGemini rnd key (model s) messages (maxTokens s) tools)
  else if String.eqb (provider s) "anthropic" then
    answered (callAnthropic rnd key (model s) messages (maxTokens s) tools)
  else Normal None.

(** The key of lines 284-298: the one of the settings, or for AI Pipe
    without one the token of the profile; [inr] when the call ends there. *)
Definition resolveKey : value + llmResult :=
  let s := getSettings host in
  let key := VStr (apiKey s) in
  if String.eqb (provider s) "aipipe" && negb (truthy key) then
    match aipipeProfile host with
    | Normal profile =>
        if truthy (optprop profile "token") then inl (get profile "token")
        else inr (mkLlmResult [] true (Normal VNull))
    | Throw _ =>
        inr (mkLlmResult
               [("warning",
                 "Could not load AI Pipe profile. Enter your AI Pipe token manually.")]
               false (Normal VNull))
    end
  else inl key.

(** [callLLM(messages, tools)], lines 280-313. *)
Definition callLLM (rnd : nat) (messages : list value) (tools : value) : llmResult :=
  let s := getSettings host in
  match resolveKey with
  | inr ended => ended
  | inl key =>
      match validateApiKeyOrWarn (provider s) key with
      | Throw e => mkLlmResult [] false (Throw e)
      | Normal (false, warned) => mkLlmResult warned false (Normal VNull)
      | Normal (true, warned) =>
          match dispatch rnd key messages tools with
          | Normal (Some reply) => mkLlmResult warned false (Normal reply)
          | Normal None =>
              mkLlmResult
                (warned ++ [("danger", "Unsupported provider: " +:+ provider s)])
                false (Normal VNull)
          | Throw err =>
              mkLlmResult
                (warned ++ [("danger", provider s +:+ " error: " +:+
                                       escapeChars (errorText err))])
                false (Normal VNull)
          end
      end
  end.

(** The loop's provider, from [callLLM] and the schema of the page;
    [rndAt k] is the number of draws of [Math.random] before the k-th
    call. *)
Definition pageProvider (rndAt : nat → nat) (k : nat) (messages : list value)
    : list (string * string) * completion value :=
  let r := callLLM (rndAt k) messages tools in
  (llm_raised r, llm_reply r).

End Providers.

(** Settings and hosts for the provider calls: a key that passes the
    check of each provider, and a stand-in for the literal 0.7. *)
Definition openaiSettings : Settings :=
  mkSettings "openai" "sk-test1234" "gpt-4o-mini" 800 "" "".

Definition geminiSettings : Settings :=
  mkSettings "gemini" "AIzaTest" "gemini-2.5-flash" 800 "" "".

Definition unknownSettings : Settings :=
  mkSettings "mistral" "some-key" "mistral-large" 800 "" "".

Definition dot7 : value := VStr "0.7".

(** A provider that refuses every request with the status 401 and a body
    with markup in it. *)
Definition refusingHost (s : Settings) : Host :=
  stubHost s (λ _, Throw offline)
    (Normal (failResponse 401 "Unauthorized" "<h1>bad key</h1>")).

(** The tool calls a reply adapter may hand to the loop: an id, the kind
    [function], a function object, string arguments. *)
Definition namedCall (tc : value) : Prop :=
  JS.nullish (JS.get tc "function") = false ∧
  JS.truthy (JS.get tc "id") = true ∧
  JS.get tc "type" = VStr "function" ∧
  ∃ a, JS.get (JS.get tc "function") "arguments" = VStr a.

(** A reply the loop takes without throwing: not empty, its tool calls
    all named, its text showable. *)
Definition loopReady (resp : value) : Prop :=
  JS.truthy resp = true ∧
  ∃ calls, replyToolCalls resp = Normal calls ∧ Forall namedCall calls ∧ showable resp.

(** A network on which no POST is answered with success: each one is
    rejected or answered with a status that is not OK. *)
Definition unanswered (host : Host) : Prop :=
  ∀ url headers body res, fetchPost host url headers body = Normal res → res_ok res = false.

(** The four providers of the dispatcher. *)
Definition providers : list string := ["openai"; "aipipe"; "gemini"; "anthropic"].

(** Text that can neither open nor close a tag. *)
Definition markupFree (s : string) : Prop :=
  Forall (λ c, c ≠ "<"%char ∧ c ≠ ">"%char) (list_ascii_of_string s).

(** Settings without a key, for a provider that needs one. *)
Definition keylessSettings : Settings :=
  mkSettings "anthropic" "" "claude-3-5-sonnet-latest" 800 "" "".

(** Answers of Gemini and of Anthropic with some text and one call of a
    tool, and a provider for the loop that translates the first. *)
Definition geminiAnswer : value :=
  VObj [("candidates",
          VArr [VObj [("content",
                       VObj [("parts",
                              VArr [VObj [("text", VStr "Looking it up.")];
                                    VObj [("functionCall",
                                           VObj [("name", VStr "web_search");
                                                 ("args",
                                                   VObj [("q", VStr "rocq")])])]])])]])].

Definition anthropicAnswer : value :=
  VObj [("content",
          VArr [VObj [("type", VStr "text"); ("text", VStr "Looking it up.")];
                VObj [("type", VStr "tool_use"); ("id", VStr "toolu_1");
                      ("name", VStr "js_exec");
                      ("input", VObj [("code", VStr "1+1")])]])].

Definition geminiBacked (k : nat) (_ : list value)
    : list (string * string) * completion value :=
  ([], fromGeminiResponseToOpenAI (offlineHost noSettings) k geminiAnswer).

(** What the proxy tool answers: an object with an error text and no
    text, or an object with a text only, which is never [null] or
    [undefined]. *)
Definition proxyAnswer (r : value) : Prop :=
  (∃ e, JS.get r "error" = VStr e ∧ JS.get r "text" = VUndef) ∨
  (∃ t, r = VObj [("text", t)] ∧ JS.nullish t = false).

(** The same function declared for Anthropic and for Gemini. *)
Definition sameDeclaration (a g : value) : Prop :=
  JS.get a "name" = JS.get g "name" ∧
  JS.get a "description" = JS.get g "description" ∧
  JS.get a "input_schema" = JS.get g "parameters" ∧
  JS.truthy (JS.get a "input_schema") = true.

(** The profile of AI Pipe gives no token: it cannot be loaded, or its
    token is missing or falsy. *)
Definition noProfileToken (host : Host) : Prop :=
  match aipipeProfile host with
  | Normal profile => JS.truthy (JS.optprop profile "token") = false
  | Throw _ => True
  end.

(** ** Vocabulary of the sanitizer's contract *)

(** An assistant message that carries at least one well-formed (truthy)
    tool call. *)
Definition hasToolCalls (m : value) : bool :=
  JS.isStr (JS.get m "role") "assistant" &&
  (if JS.get m "tool_calls" is VArr calls then existsb JS.truthy calls else false).

(** The text of a message whose content is text: the string itself, and
    the empty text when the content is missing or [null]. *)
Definition contentText (m : value) : option string :=
  match JS.get m "content" with
  | VStr s => Some s
  | VUndef | VNull => Some ""
  | _ => None
  end.

(** The messages of the data model: an object, with text for content
    where it carries tool calls. *)
Definition textMessage (m : value) : Prop :=
  JS.nullish m = false ∧ (hasToolCalls m = true → is_Some (contentText m)).

(** White space only. *)
Definition blank (s : string) : Prop :=
  Forall (λ c, JS.isWhite c = true) (list_ascii_of_string s).

(** Neither the first nor the last character is white space. *)
Definition unpadded (t : string) : Prop :=
  (∀ c rest, t = String c rest → JS.isWhite c = false) ∧
  (∀ init c, t = init +:+ String c EmptyString → JS.isWhite c = false).

(** [t] is the text [s] without the white space around it. *)
Definition trimmedOf (s t : string) : Prop :=
  ∃ pre post, s = pre +:+ t +:+ post ∧ blank pre ∧ blank post ∧ unpadded t.

(** The call [c] is the tool call [t] in the shape of lines 195-204: the
    same id and function name, the kind [function], and string
    arguments, those of [t] when they are a string. *)
Definition reshapedFrom (t c : value) : Prop :=
  JS.get c "id" = JS.get t "id" ∧
  JS.get c "type" = VStr "function" ∧
  JS.get (JS.get c "function") "name" = JS.optprop (JS.get t "function") "name" ∧
  (∀ a, JS.optprop (JS.get t "function") "arguments" = VStr a →
        JS.get (JS.get c "function") "arguments" = VStr a) ∧
  ∃ a, JS.get (JS.get c "function") "arguments" = VStr a.

(** What a lookup of a no-key source found: the items of its result,
    and none when it found nothing or failed. *)
Definition sourceFound (lookup : completion value) (q : value) (provider : string)
    (items : list value) : Prop :=
  match lookup with
  | Normal v => v = sourceResult q provider items
  | Throw _ => items = []
  end.

(** The items the two stub sources of [fallbackHost] answer with. *)
Definition abstractItem : value :=
  VObj [("title", VStr "Rocq"); ("link", VStr "https://rocq-prover.org");
        ("snippet", VStr "Rocq is a proof assistant.")].

Definition topicItem : value :=
  VObj [("title", VStr "Coq"); ("link", VStr "https://coq.inria.fr");
        ("snippet", VStr "Coq - the former name of Rocq")].

Definition summaryItem : value :=
  VObj [("title", VStr "Rocq"); ("link", VStr "https://en.wikipedia.org/wiki/Rocq");
        ("snippet", VStr "Rocq is an interactive theorem prover.")].

(** A search engine that answers with five items the one request for
    three results for [x], and no other. *)
Definition threeAskedHost : Host :=
  stubHost googleSettings
    (λ url, if String.eqb url
                 "https://www.googleapis.com/customsearch/v1?key=KEY&cx=CX&q=x&num=3"
            then Normal (okResponse fiveHits)
            else Throw offline)
    (Throw offline).

(** A host on which only the second no-key source answers. *)
Definition wikiOnlyHost : Host :=
  stubHost noSettings
    (λ url, if String.prefix "https://api.duckduckgo.com/" url
            then Throw offline
            else Normal (okResponse wikiAnswer))
    (Throw offline).

(** A message for which the Anthropic adapter generates no id: any
    message but a tool message without a [tool_call_id]. *)
Definition carriesId (m : value) : Prop :=
  JS.isStr (JS.get m "role") "tool" = true → JS.truthy (JS.get m "tool_call_id") = true.

(** A host whose draws of [Math.random] differ, and a tool message
    without an id. *)
Definition drawingHost : Host :=
  mkHost stubParse stubStringify (λ s, s) noSettings
    (λ _, Throw offline) (λ _ _ _, Throw offline)
    (λ _, ([], WDone VUndef)) (λ k, if (k =? 0)%nat then "r4nd0m" else "0th3r") (λ _, None)
    (Throw offline).

Definition namelessResult : value :=
  VObj [("role", VStr "tool"); ("name", VStr "js_exec"); ("content", VStr "{}")].

(** The result of [web_search] when neither source answers, and a host
    without network whose [JSON.parse] also reads the JSON text of that
    result. *)
Definition nothingFound : value :=
  VObj [("query", VStr "rocq"); ("provider", VStr "fallback"); ("items", VArr []);
        ("warning", VStr "No-key fallbacks returned no results (network/CORS?).")].

Definition searchArgs : value := VObj [("q", VStr "rocq")].

Definition readingParse (s : string) : option value :=
  if String.eqb s (stubStringify nothingFound) then Some nothingFound
  else if String.eqb s (stubStringify searchArgs) then Some searchArgs
  else stubParse s.

Definition readingHost : Host :=
  mkHost readingParse stubStringify (λ s, s) noSettings
    (λ _, Throw offline) (λ _ _ _, Throw offline)
    (λ _, ([], WDone VUndef)) (λ _, "r4nd0m") (λ _, None)
    (Throw offline).

(** The call of [web_search] that gives that result. *)
Definition searchCall : value :=
  VObj [("id", VStr "call_7"); ("type", VStr "function");
        ("function", VObj [("name", VStr "web_search");
                           ("arguments", VStr (stubStringify searchArgs))])].

(** * Properties *)

(** ** Sequencing *)

Lemma bind_Normal {A B} (a : A) (k : A → completion B) : (Normal a ≫= k) = k a.
Proof. reflexivity. Qed.

Lemma bind_Throw {A B} (e : exn) (k : A → completion B) : (Throw e ≫= k) = Throw e.
Proof. reflexivity. Qed.

Lemma bind_Normal_inv {A B} (c : completion A) (k : A → completion B) b :
  (c ≫= k) = Normal b → ∃ a, c = Normal a ∧ k a = Normal b.
Proof. destruct c as [a|e]; [eauto|done]. Qed.

(** ** Strings *)

Lemma trimStart_fixed c s : JS.isWhite c = false → JS.trimStart (String c s) = String c s.
Proof. intros H. simpl. by rewrite H. Qed.

Lemma trimStart_head s :
  JS.trimStart s = EmptyString ∨
  ∃ c t, JS.trimStart s = String c t ∧ JS.isWhite c = false.
Proof.
  induction s as [|c s IH]; simpl; [by left|].
  destruct (JS.isWhite c) eqn:E; [exact IH|right; eauto].
Qed.

Lemma trimEnd_head c s :
  JS.isWhite c = false → ∃ t, JS.trimEnd (String c s) = String c t.
Proof.
  intros H. simpl. destruct (JS.trimEnd s); rewrite ?H; eauto.
Qed.

Lemma trimEnd_idem s : JS.trimEnd (JS.trimEnd s) = JS.trimEnd s.
Proof.
  induction s as [|c s IH]; simpl; [done|].
  destruct (JS.trimEnd s) as [|d t] eqn:E.
  - destruct (JS.isWhite c) eqn:W; simpl; [done|]. by rewrite W.
  - simpl in *. by rewrite IH.
Qed.

Lemma trim_idem s : JS.trim (JS.trim s) = JS.trim s.
Proof.
  unfold JS.trim.
  destruct (trimStart_head s) as [->|(c & t & -> & W)]; [done|].
  destruct (trimEnd_head c t W) as [u E]. rewrite E.
  rewrite trimStart_fixed by done. rewrite <- E. apply trimEnd_idem.
Qed.

Lemma length_zero_iff s : (0 <? String.length s)%nat = negb (String.eqb s "").
Proof. by destruct s. Qed.

Lemma append_cons c (s t : string) : String c s +:+ t = String c (s +:+ t).
Proof. reflexivity. Qed.

(** [trimStart] drops white space and nothing else, and what it leaves
    does not start with white space; likewise [trimEnd] at the end. *)
Lemma trimStart_spec s :
  ∃ pre, s = pre +:+ JS.trimStart s ∧ blank pre.
Proof.
  induction s as [|c s (pre & IH & Hpre)]; simpl.
  - exists "". split; [done|constructor].
  - destruct (JS.isWhite c) eqn:W.
    + exists (String c pre). split; [rewrite append_cons; congruence|by constructor].
    + exists "". split; [done|constructor].
Qed.

Lemma trimEnd_spec s :
  ∃ post, s = JS.trimEnd s +:+ post ∧ blank post.
Proof.
  induction s as [|c s (post & IH & Hpost)]; simpl.
  - exists "". split; [done|constructor].
  - destruct (JS.trimEnd s) as [|d t] eqn:E.
    + change ("" +:+ post) with post in IH. subst post. destruct (JS.isWhite c) eqn:W.
      * exists (String c s). split; [done|by constructor].
      * exists s. split; [done|exact Hpost].
    + exists post. split; [rewrite append_cons; congruence|exact Hpost].
Qed.

Lemma trimEnd_last s init c :
  JS.trimEnd s = init +:+ String c EmptyString → JS.isWhite c = false.
Proof.
  revert init. induction s as [|a s IH]; intros init; simpl.
  - by destruct init.
  - destruct (JS.trimEnd s) as [|d t] eqn:E.
    + destruct (JS.isWhite a) eqn:W; [by destruct init|].
      destruct init as [|b init]; [by intros [= <-]|].
      rewrite append_cons. intros [= _ H]. by destruct init.
    + destruct init as [|b init]; [done|].
      rewrite append_cons. intros [= _ H]. by apply (IH init).
Qed.

Lemma trim_spec s : trimmedOf s (JS.trim s).
Proof.
  unfold JS.trim.
  destruct (trimStart_spec s) as (pre & Hs & Hpre).
  destruct (trimEnd_spec (JS.trimStart s)) as (post & Ht & Hpost).
  exists pre, post. split; [by rewrite <- Ht|]. split; [done|]. split; [done|].
  split; [|intros init c; apply trimEnd_last].
  intros c rest Hc.
  destruct (trimStart_head s) as [E|(d & t & E & W)]; rewrite E in Hc; [done|].
  destruct (trimEnd_head d t W) as [u Hu]. rewrite Hu in Hc. by injection Hc as <- _.
Qed.

(** White space has nothing left when trimmed, by the contract alone. *)
Lemma trimmedOf_blank s t : blank s → trimmedOf s t → t = "".
Proof.
  intros Hs (pre & post & -> & _ & _ & Hfirst & _).
  destruct t as [|c rest]; [done|].
  specialize (Hfirst c rest eq_refl).
  unfold blank in Hs. clear -Hs Hfirst. induction pre as [|a pre IH]; simpl in Hs.
  - apply Forall_cons in Hs as [Hc _]. congruence.
  - apply Forall_cons in Hs as [_ Hs]. by apply IH.
Qed.

(** ** [map] with exceptions *)

Lemma mapM_length {A B} (f : A → completion B) l out :
  mapM f l = Normal out → length out = length l.
Proof.
  revert out. induction l as [|x l IH]; intros out; simpl.
  - by intros [= <-].
  - destruct (f x) as [y|e]; simpl; [|done].
    destruct (mapM f l) as [ys|e]; simpl; [|done].
    intros [= <-]. simpl. f_equal. by apply IH.
Qed.

Lemma mapM_lookup {A B} (f : A → completion B) (l : list A) (out : list B) i x :
  mapM f l = Normal out → l !! i = Some x →
  ∃ y, out !! i = Some y ∧ f x = Normal y.
Proof.
  revert out i. induction l as [|a l IH]; intros out i; simpl; [done|].
  destruct (f a) as [y|e] eqn:Ey; simpl; [|done].
  destruct (mapM f l) as [ys|e] eqn:Eys; simpl; [|done].
  intros [= <-]. destruct i as [|i]; simpl.
  - intros [= <-]. eauto.
  - intros Hi. by apply IH.
Qed.

Lemma mapM_Forall {A B} (f : A → completion B) (l : list A) :
  Forall (λ x, ∃ y, f x = Normal y) l → ∃ out, mapM f l = Normal out.
Proof.
  induction 1 as [|x l [y Hy] _ [ys Hys]]; simpl; [eauto|].
  rewrite Hy. simpl. rewrite Hys. simpl. eauto.
Qed.

Lemma mapM_Throw {A B} (f : A → completion B) (l : list A) x :
  x ∈ l → (∃ e, f x = Throw e) → ∃ e, mapM f l = Throw e.
Proof.
  intros Hin [e He]. induction Hin as [x l|x a l _ IH]; simpl.
  - rewrite He. simpl. eauto.
  - destruct (f a) as [b|e0]; [|by eexists].
    rewrite bind_Normal. destruct (IH He) as [e' ->]. by eexists.
Qed.

Lemma mapM_fixed {A} (f : A → completion A) (l : list A) :
  Forall (λ x, f x = Normal x) l → mapM f l = Normal l.
Proof.
  induction 1 as [|x l Hx _ IH]; simpl; [done|]. rewrite Hx. simpl. by rewrite IH.
Qed.

Lemma mapM_image {A B} (f : A → completion B) (l : list A) (out : list B) :
  mapM f l = Normal out → Forall (λ y, ∃ x, f x = Normal y) out.
Proof.
  revert out. induction l as [|a l IH]; intros out; simpl.
  - intros [= <-]. constructor.
  - destruct (f a) as [y|e] eqn:Ey; simpl; [|done].
    destruct (mapM f l) as [ys|e] eqn:Eys; simpl; [|done].
    intros [= <-]. constructor; eauto.
Qed.

(** ** The sanitizer *)

Section SanitizerFacts.
Context (host : Host).
Import JS.

Lemma isStr_true v s : isStr v s = true → v = VStr s.
Proof.
  destruct v; simpl; try done. intros H. f_equal. by apply String.eqb_eq.
Qed.

Lemma isString_optprop f k :
  isString (optprop f k) = true → ∃ s, get f k = VStr s ∧ optprop f k = VStr s.
Proof.
  unfold optprop. destruct (nullish f); [done|].
  destruct (get f k); try done. eauto.
Qed.

Lemma sanitizeToolCall_truthy t : truthy (sanitizeToolCall host t) = true.
Proof. reflexivity. Qed.

Lemma filterBoolean_sanitized l :
  filterBoolean (map (sanitizeToolCall host) l) = map (sanitizeToolCall host) l.
Proof.
  unfold filterBoolean. induction l as [|t l IH]; simpl; [done|]. by rewrite IH.
Qed.

Lemma sanitizeToolCall_idem t :
  sanitizeToolCall host (sanitizeToolCall host t) = sanitizeToolCall host t.
Proof.
  unfold sanitizeToolCall. simpl.
  destruct (isString (optprop (get t "function") "arguments")) eqn:E.
  - apply isString_optprop in E as (s & Hs & _). rewrite Hs. reflexivity.
  - reflexivity.
Qed.

Lemma sanitizeMessage_idem m o :
  sanitizeMessage host m = Normal o → sanitizeMessage host o = Normal o.
Proof.
  unfold sanitizeMessage at 1. unfold prop.
  destruct (nullish m); [done|]. rewrite bind_Normal.
  set (role := get m "role").
  destruct (isStr role "assistant") eqn:Ea.
  { apply isStr_true in Ea. rewrite Ea.
    set (tc := keptToolCalls (get m "tool_calls")).
    destruct (0 <? length tc)%nat eqn:El.
    - intros H. apply bind_Normal_inv in H as (c0 & _ & [= <-]).
      unfold sanitizeMessage. simpl.
      rewrite filterBoolean_sanitized, length_map, El.
      rewrite map_map, (map_ext _ _ sanitizeToolCall_idem).
      destruct (0 <? String.length (trim c0))%nat eqn:Ec; simpl.
      + by rewrite trim_idem, Ec.
      + reflexivity.
    - intros [= <-]. reflexivity. }
  destruct (isStr role "tool") eqn:Et.
  { apply isStr_true in Et. rewrite Et.
    destruct (truthy (get m "name")) eqn:En; intros [= <-];
      unfold sanitizeMessage; simpl; by rewrite ?En. }
  destruct (truthy (get m "name")) eqn:En; intros [= <-];
    unfold sanitizeMessage; simpl; by rewrite ?Ea, ?Et, ?En.
Qed.

End SanitizerFacts.

Section SanitizerClaims.
Context (host : Host).
Import JS.

Lemma sanitizeMessage_returns m :
  sanitizable m = true ↔ ∃ o, sanitizeMessage host m = Normal o.
Proof.
  unfold sanitizable, carriesToolCalls, sanitizeMessage, prop.
  destruct (nullish m); simpl.
  { split; [done|]. by intros [o H]. }
  destruct (isStr (get m "role") "assistant"); simpl.
  - destruct (0 <? length (keptToolCalls (get m "tool_calls")))%nat.
    + destruct (toString (coalesce (get m "content") (VStr ""))) as [c|e]; simpl.
      * split; eauto.
      * split; [done|]. by intros [o H].
    + split; eauto.
  - destruct (isStr (get m "role") "tool"); split; eauto.
Qed.

(** What the callback makes of a message that keeps its tool calls. *)
Lemma sanitizeMessage_tool_calls m text :
  nullish m = false →
  carriesToolCalls m = true →
  toString (coalesce (get m "content") (VStr "")) = Normal text →
  sanitizeMessage host m =
    Normal (VObj [("role", VStr "assistant");
                  ("tool_calls",
                    VArr (map (sanitizeToolCall host) (keptToolCalls (get m "tool_calls"))));
                  ("content", if String.eqb (trim text) "" then VNull else VStr (trim text))]).
Proof.
  unfold carriesToolCalls, sanitizeMessage, prop. intros -> [Ha El]%andb_prop Ht.
  rewrite bind_Normal, Ha, El, Ht, bind_Normal. apply isStr_true in Ha. rewrite Ha.
  simpl. rewrite length_zero_iff. by destruct (String.eqb (trim text) "").
Qed.

(** What the callback makes of any other message: no [tool_calls] at all. *)
Lemma sanitizeMessage_no_tool_calls m o :
  carriesToolCalls m = false →
  sanitizeMessage host m = Normal o →
  hasOwn "tool_calls" (fieldsOf o) = false.
Proof.
  unfold carriesToolCalls, sanitizeMessage, prop.
  destruct (nullish m); [done|]. rewrite bind_Normal.
  destruct (isStr (get m "role") "assistant") eqn:Ha; simpl.
  - intros ->. by intros [= <-].
  - intros _. destruct (isStr (get m "role") "tool");
      destruct (truthy (get m "name")); by intros [= <-].
Qed.

(** The sanitizer returns exactly on the transcripts whose messages are
    all sanitizable; on any other it throws. *)
Lemma sanitizer_returns_iff (ms : list value) :
  Forall (λ m, sanitizable m = true) ms ↔
  ∃ out, sanitizeMessagesForOpenAI host ms = Normal out.
Proof.
  split.
  - intros Hall. apply mapM_Forall. eapply Forall_impl; [exact Hall|].
    intros m Hm. by apply sanitizeMessage_returns.
  - intros [out Hout]. unfold sanitizeMessagesForOpenAI in Hout.
    apply Forall_forall. intros m Hm.
    destruct (sanitizable m) eqn:Hs; [done|].
    destruct (mapM_Throw (sanitizeMessage host) ms m Hm) as [e He]; [|congruence].
    destruct (sanitizeMessage host m) as [o|e] eqn:E; [|by eexists].
    assert (sanitizable m = true) by (apply sanitizeMessage_returns; by eexists).
    congruence.
Qed.

End SanitizerClaims.

Section SanitizerContract.
Context (host : Host).
Import JS.

(** The test of lines 191-193, read off the message. *)
Lemma hasToolCalls_carries m : hasToolCalls m = carriesToolCalls m.
Proof.
  unfold hasToolCalls, carriesToolCalls, keptToolCalls, filterBoolean.
  destruct (isStr (get m "role") "assistant"); [|done]. simpl.
  destruct (get m "tool_calls") as [| | | | |calls|]; try done.
  induction calls as [|c calls IH]; simpl; [done|].
  destruct (truthy c); [done|exact IH].
Qed.

Lemma contentText_toString m text :
  contentText m = Some text →
  toString (coalesce (get m "content") (VStr "")) = Normal text.
Proof.
  unfold contentText. destruct (get m "content"); try done; by intros [= <-].
Qed.

Lemma textMessage_sanitizable m : textMessage m → sanitizable m = true.
Proof.
  intros [Hm Htext]. unfold sanitizable. rewrite Hm, <- hasToolCalls_carries. simpl.
  destruct (hasToolCalls m); [|done].
  destruct (Htext eq_refl) as [text Ht]. by rewrite (contentText_toString m text Ht).
Qed.

Lemma sanitizeToolCall_reshapes t : reshapedFrom t (sanitizeToolCall host t).
Proof.
  unfold reshapedFrom, sanitizeToolCall. simpl. repeat split.
  - intros a Ha. rewrite Ha. simpl. unfold optprop in Ha.
    by destruct (nullish (get t "function")).
  - destruct (isString (optprop (get t "function") "arguments")) eqn:E; [|by eexists].
    unfold optprop in *. destruct (nullish (get t "function")); [done|].
    destruct (get (get t "function") "arguments"); try done. by eexists.
Qed.

Lemma sanitizeToolCalls_reshape calls :
  Forall2 reshapedFrom calls (map (sanitizeToolCall host) calls).
Proof.
  induction calls as [|t calls IH]; simpl; constructor; [|exact IH].
  apply sanitizeToolCall_reshapes.
Qed.

(** What the callback makes of an assistant message with at least one
    truthy tool call and text for content. *)
Lemma sanitizeMessage_kept m calls text :
  nullish m = false →
  get m "role" = VStr "assistant" →
  get m "tool_calls" = VArr calls →
  Exists (λ tc, truthy tc = true) calls →
  contentText m = Some text →
  sanitizeMessage host m =
    Normal (VObj [("role", VStr "assistant");
                  ("tool_calls", VArr (map (sanitizeToolCall host) (List.filter truthy calls)));
                  ("content", if String.eqb (trim text) "" then VNull else VStr (trim text))]) ∧
  List.filter truthy calls ≠ [].
Proof.
  intros Hm Hrole Hcalls Hsome Htext.
  assert (List.filter truthy calls ≠ []) as Hkept.
  { clear -Hsome. induction Hsome as [c calls Hc|c calls _ IH]; simpl.
    - by rewrite Hc.
    - by destruct (truthy c). }
  split; [|exact Hkept].
  rewrite (sanitizeMessage_tool_calls host m text Hm).
  - unfold keptToolCalls, filterBoolean. by rewrite Hcalls.
  - unfold carriesToolCalls, keptToolCalls, filterBoolean. rewrite Hrole, Hcalls. simpl.
    by destruct (List.filter truthy calls).
  - by apply contentText_toString.
Qed.

End SanitizerContract.

(** C2. On every transcript of messages of the data model (objects, with
    text for content where they carry tool calls) the sanitizer returns
    one output message per input message, and no output message has an
    empty [tool_calls] array. An assistant message whose [tool_calls]
    array holds at least one well-formed (truthy) call becomes a message
    with a non-empty [tool_calls] array, one reshaped call per truthy
    call and in their order, and with the trimmed text for content:
    [null] when nothing is left of the text once the white space around
    it is taken away, and what is left otherwise. Every other message
    gets no [tool_calls] property at all. *)
Theorem sanitized_tool_calls_and_content host (ms : list value) :
  Forall textMessage ms →
  ∃ out, sanitizeMessagesForOpenAI host ms = Normal out ∧
    length out = length ms ∧
    ∀ i m, ms !! i = Some m →
      ∃ o, out !! i = Some o ∧
        JS.get o "tool_calls" ≠ VArr [] ∧
        (∀ calls text,
           JS.get m "role" = VStr "assistant" →
           JS.get m "tool_calls" = VArr calls →
           Exists (λ tc, JS.truthy tc = true) calls →
           contentText m = Some text →
           ∃ kept t,
             JS.get o "tool_calls" = VArr kept ∧ kept ≠ [] ∧
             Forall2 reshapedFrom (List.filter JS.truthy calls) kept ∧
             trimmedOf text t ∧
             JS.get o "content" = (if String.eqb t "" then VNull else VStr t)) ∧
        (hasToolCalls m = false → JS.hasOwn "tool_calls" (fieldsOf o) = false).
Proof.
  intros Hall.
  destruct (mapM_Forall (sanitizeMessage host) ms) as [out Hout].
  { eapply Forall_impl; [exact Hall|]. intros m Hm.
    by apply sanitizeMessage_returns, textMessage_sanitizable. }
  exists out. split; [exact Hout|]. split; [by eapply mapM_length|].
  intros i m Hi.
  destruct (mapM_lookup _ _ _ _ _ Hout Hi) as (o & Ho & Hm).
  exists o. split; [exact Ho|].
  destruct (proj1 (Forall_lookup _ _) Hall i m Hi) as [Hobj Htext].
  split; [|split].
  - destruct (hasToolCalls m) eqn:Hc.
    + destruct (Htext eq_refl) as [text Ht].
      unfold hasToolCalls in Hc. apply andb_prop in Hc as [Hrole%isStr_true Hc].
      destruct (JS.get m "tool_calls") as [| | | | |calls|] eqn:Hcalls; try done.
      apply existsb_exists in Hc as (tc & Hin & Htc).
      assert (Exists (λ tc, JS.truthy tc = true) calls) as Hsome
        by (apply List.Exists_exists; eauto).
      destruct (sanitizeMessage_kept host m calls text Hobj Hrole Hcalls Hsome Ht)
        as [Ho' Hkept].
      rewrite Ho' in Hm. injection Hm as <-. simpl.
      destruct (List.filter JS.truthy calls); [done|]. simpl. congruence.
    + rewrite hasToolCalls_carries in Hc.
      pose proof (sanitizeMessage_no_tool_calls host m o Hc Hm) as Hno.
      destruct o as [| | | | | |fs]; try done. simpl in *. unfold JS.hasOwn in Hno.
      destruct (JS.assoc "tool_calls" fs); [done|]. simpl. congruence.
  - intros calls text Hrole Hcalls Hsome Ht.
    destruct (sanitizeMessage_kept host m calls text Hobj Hrole Hcalls Hsome Ht)
      as [Ho' Hkept].
    rewrite Ho' in Hm. injection Hm as <-.
    exists (map (sanitizeToolCall host) (List.filter JS.truthy calls)), (JS.trim text).
    split; [reflexivity|]. split; [by destruct (List.filter JS.truthy calls)|].
    split; [apply sanitizeToolCalls_reshape|]. split; [apply trim_spec|reflexivity].
  - intros Hc. rewrite hasToolCalls_carries in Hc.
    exact (sanitizeMessage_no_tool_calls host m o Hc Hm).
Qed.

(** On the example transcript: the blank text beside the kept call of
    the first message becomes [null], the [null] entry of its tool calls
    is dropped, and the message with an empty array of tool calls gets
    no [tool_calls] property. *)
Lemma sanitized_tool_calls_and_content_witness :
  ∃ out o0 o2 c,
    sanitizeMessagesForOpenAI (offlineHost noSettings) exampleTranscript = Normal out ∧
    length out = 4%nat ∧
    out !! 0%nat = Some o0 ∧
    JS.get o0 "content" = VNull ∧
    JS.get o0 "tool_calls" = VArr [c] ∧
    JS.get c "id" = VStr "call_1" ∧
    JS.get (JS.get c "function") "name" = VStr "web_search" ∧
    JS.get (JS.get c "function") "arguments" = VStr "{}" ∧
    out !! 2%nat = Some o2 ∧
    JS.hasOwn "tool_calls" (fieldsOf o2) = false.
Proof.
  assert (Forall textMessage exampleTranscript) as Hmodel.
  { repeat (apply List.Forall_cons;
              [split; [reflexivity|intros H; first [discriminate H|by eexists]]|]).
    apply List.Forall_nil. }
  destruct (sanitized_tool_calls_and_content (offlineHost noSettings) exampleTranscript
              Hmodel) as (out & Hout & Hlen & Heach).
  destruct (Heach 0%nat _ eq_refl) as (o0 & Ho0 & _ & Hkept & _).
  destruct (Heach 2%nat _ eq_refl) as (o2 & Ho2 & _ & _ & Hnone).
  assert (Exists (λ tc, JS.truthy tc = true) [VNull; exampleCall]) as Hsome
    by (apply Exists_cons_tl, Exists_cons_hd; reflexivity).
  destruct (Hkept [VNull; exampleCall] "  " eq_refl eq_refl Hsome eq_refl) as
    (kept & t & Hcalls & _ & Hshape & Htrim & Hcontent).
  apply (trimmedOf_blank "  " t) in Htrim; [|by repeat constructor]. subst t.
  simpl in Hshape. apply Forall2_cons_inv_l in Hshape as (c & rest & Hc & Hrest & ->).
  apply Forall2_nil_inv_l in Hrest as ->.
  destruct Hc as (Hid & _ & Hname & Hargs & _).
  exists out, o0, o2, c. repeat split; try done.
  - by apply Hargs.
  - by apply Hnone.
Defined.

(** C3. Sanitizing is idempotent: when the sanitizer returns a transcript,
    sanitizing that transcript returns it again, unchanged. *)
Theorem sanitize_idempotent host (ms : list value) :
  match sanitizeMessagesForOpenAI host ms with
  | Normal out => sanitizeMessagesForOpenAI host out = Normal out
  | Throw _ => True
  end.
Proof.
  destruct (sanitizeMessagesForOpenAI host ms) as [out|e] eqn:E; [|done].
  apply mapM_fixed. eapply Forall_impl; [exact (mapM_image _ _ _ E)|].
  intros o [m Hm]. by eapply sanitizeMessage_idem.
Qed.

(** ** The adapters *)

Section AdapterFacts.
Context (host : Host).
Import JS.

Lemma isStr_truthy v s : s ≠ "" → isStr v s = true → truthy v = true.
Proof.
  intros Hs H. apply isStr_true in H as ->. simpl.
  apply negb_true_iff. by apply String.eqb_neq.
Qed.

Lemma geminiStep_skip contents m :
  translated m = false → geminiStep host contents m = Normal contents.
Proof.
  unfold translated, geminiStep. destruct (truthy m); simpl; [|done].
  intros [[Hu Ha]%orb_false_elim Ht]%orb_false_elim. rewrite Hu, Ha, Ht. simpl.
  by destruct (truthy (get m "role")).
Qed.

Lemma geminiStep_push contents m out :
  translated m = true → geminiStep host contents m = Normal out →
  ∃ entry, out = contents ++ [entry] ∧
           (isStr (get entry "role") "user" || isStr (get entry "role") "model" ||
            isStr (get entry "role") "tool") = true.
Proof.
  unfold translated, geminiStep. intros [Hm Hr]%andb_prop. rewrite Hm. simpl.
  assert (truthy (get m "role") = true) as ->.
  { apply orb_prop in Hr as [[H|H]%orb_prop|H];
      eapply isStr_truthy; try exact H; done. }
  simpl. destruct (isStr (get m "role") "user" || isStr (get m "role") "assistant") eqn:E.
  - intros (text & _ & [= <-])%bind_Normal_inv. eexists. split; [done|].
    by destruct (isStr (get m "role") "assistant").
  - simpl in Hr. rewrite Hr.
    intros (parsed & _ & [= <-])%bind_Normal_inv. eexists. split; done.
Qed.

Lemma gemini_filter ms contents :
  forOf (geminiStep host) (filter (λ m, translated m = true) ms) contents =
  forOf (geminiStep host) ms contents.
Proof.
  revert contents. induction ms as [|m ms IH]; intros contents; [done|].
  rewrite filter_cons. destruct (decide (translated m = true)) as [Ht|Hf]; simpl.
  - destruct (geminiStep host contents m); [by rewrite !bind_Normal|done].
  - apply not_true_is_false in Hf. rewrite (geminiStep_skip _ _ Hf), bind_Normal. apply IH.
Qed.

Lemma gemini_length ms contents out :
  forOf (geminiStep host) ms contents = Normal out →
  length out = (length contents + length (filter (λ m, translated m = true) ms))%nat.
Proof.
  revert contents. induction ms as [|m ms IH]; intros contents; simpl.
  - intros [= <-]. simpl. lia.
  - intros (c' & Hstep & Hrest)%bind_Normal_inv. apply IH in Hrest. rewrite Hrest.
    rewrite filter_cons. destruct (decide (translated m = true)) as [Ht|Hf].
    + destruct (geminiStep_push _ _ _ Ht Hstep) as (entry & -> & _).
      rewrite length_app. simpl. lia.
    + apply not_true_is_false in Hf. rewrite (geminiStep_skip _ _ Hf) in Hstep.
      injection Hstep as <-. lia.
Qed.

Lemma anthropicStep_skip acc m :
  translated m = false → anthropicStep host acc m = Normal acc.
Proof.
  unfold translated, anthropicStep. destruct acc as [out rnd].
  destruct (truthy m); simpl; [|done].
  intros [[Hu Ha]%orb_false_elim Ht]%orb_false_elim. rewrite Hu, Ha, Ht. simpl.
  by destruct (truthy (get m "role")).
Qed.

Lemma anthropicStep_push acc m acc' :
  translated m = true → anthropicStep host acc m = Normal acc' →
  ∃ entry, acc'.1 = acc.1 ++ [entry] ∧
           (isStr (get entry "role") "user" || isStr (get entry "role") "assistant") = true.
Proof.
  unfold translated, anthropicStep. destruct acc as [out rnd].
  intros [Hm Hr]%andb_prop. rewrite Hm. simpl.
  assert (truthy (get m "role") = true) as ->.
  { apply orb_prop in Hr as [[H|H]%orb_prop|H];
      eapply isStr_truthy; try exact H; done. }
  simpl. destruct (isStr (get m "role") "user" || isStr (get m "role") "assistant") eqn:E.
  - intros (text & _ & [= <-])%bind_Normal_inv. eexists. split; [done|]. simpl.
    apply orb_prop in E as [E|E]; apply isStr_true in E; by rewrite E.
  - simpl in Hr. rewrite Hr.
    intros (parsed & _ & H)%bind_Normal_inv.
    destruct (truthy (get m "tool_call_id")); injection H as <-; eexists; split; done.
Qed.

Lemma anthropic_filter ms acc :
  forOf (anthropicStep host) (filter (λ m, translated m = true) ms) acc =
  forOf (anthropicStep host) ms acc.
Proof.
  revert acc. induction ms as [|m ms IH]; intros acc; [done|].
  rewrite filter_cons. destruct (decide (translated m = true)) as [Ht|Hf]; simpl.
  - destruct (anthropicStep host acc m); [by rewrite !bind_Normal|done].
  - apply not_true_is_false in Hf.
    rewrite (anthropicStep_skip _ _ Hf), bind_Normal. apply IH.
Qed.

Lemma anthropic_length ms acc acc' :
  forOf (anthropicStep host) ms acc = Normal acc' →
  length acc'.1 = (length acc.1 + length (filter (λ m, translated m = true) ms))%nat.
Proof.
  revert acc. induction ms as [|m ms IH]; intros acc; simpl.
  - intros [= <-]. simpl. lia.
  - intros (c' & Hstep & Hrest)%bind_Normal_inv. apply IH in Hrest. rewrite Hrest.
    rewrite filter_cons. destruct (decide (translated m = true)) as [Ht|Hf].
    + destruct (anthropicStep_push _ _ _ Ht Hstep) as (entry & -> & _).
      rewrite length_app. simpl. lia.
    + apply not_true_is_false in Hf. rewrite (anthropicStep_skip _ _ Hf) in Hstep.
      injection Hstep as <-. lia.
Qed.

End AdapterFacts.

Section AdapterRoles.
Context (host : Host).
Import JS.

Lemma gemini_roles ms contents out :
  forOf (geminiStep host) ms contents = Normal out →
  Forall geminiRole contents → Forall geminiRole out.
Proof.
  revert contents. induction ms as [|m ms IH]; intros contents; simpl.
  - by intros [= <-].
  - intros (c' & Hstep & Hrest)%bind_Normal_inv Hc. apply (IH _ Hrest).
    destruct (translated m) eqn:Ht.
    + destruct (geminiStep_push _ _ _ _ Ht Hstep) as (entry & -> & Hrole).
      apply Forall_app. split; [done|]. by constructor.
    + rewrite (geminiStep_skip _ _ _ Ht) in Hstep. by injection Hstep as <-.
Qed.

Lemma anthropic_roles ms acc acc' :
  forOf (anthropicStep host) ms acc = Normal acc' →
  Forall anthropicRole acc.1 → Forall anthropicRole acc'.1.
Proof.
  revert acc. induction ms as [|m ms IH]; intros acc; simpl.
  - by intros [= <-].
  - intros (c' & Hstep & Hrest)%bind_Normal_inv Hc. apply (IH _ Hrest).
    destruct (translated m) eqn:Ht.
    + destruct (anthropicStep_push _ _ _ _ Ht Hstep) as (entry & -> & Hrole).
      apply Forall_app. split; [done|]. by constructor.
    + rewrite (anthropicStep_skip _ _ _ Ht) in Hstep. by injection Hstep as <-.
Qed.

Lemma system_not_translated m : isStr (get m "role") "system" = true → translated m = false.
Proof.
  intros H. apply isStr_true in H. unfold translated. rewrite H. simpl.
  apply andb_false_r.
Qed.

End AdapterRoles.

(** C10. Both adapters translate exactly the truthy messages whose role
    is [user], [assistant] or [tool]: dropping every other message from
    the transcript (a system message, one with a missing or unknown role)
    changes nothing in what the adapter returns; when it returns, there
    is one entry per translated message, and each entry has a role of the
    provider (user, model or tool for Gemini; user or assistant for
    Anthropic). A system message is never translated. *)
Theorem adapters_omit_system_messages host (rnd : nat) (ms : list value) :
  let kept := filter (λ m, translated m = true) ms in
  toGeminiContents host ms = toGeminiContents host kept ∧
  toAnthropicMessages host rnd ms = toAnthropicMessages host rnd kept ∧
  match toGeminiContents host ms with
  | Normal out => length out = length kept ∧ Forall geminiRole out
  | Throw _ => True
  end ∧
  match toAnthropicMessages host rnd ms with
  | Normal (out, _) => length out = length kept ∧ Forall anthropicRole out
  | Throw _ => True
  end ∧
  Forall (λ m, JS.isStr (JS.get m "role") "system" = false) kept.
Proof.
  intros kept. unfold toGeminiContents, toAnthropicMessages.
  split; [symmetry; apply gemini_filter|].
  split; [symmetry; apply anthropic_filter|].
  split; [|split].
  - destruct (JS.forOf (geminiStep host) ms []) as [out|e] eqn:E; [|done]. split.
    + by apply (gemini_length _ _ _ _ E).
    + by apply (gemini_roles _ _ _ _ E).
  - destruct (JS.forOf (anthropicStep host) ms ([], rnd)) as [[out rnd']|e] eqn:E; [|done].
    split.
    + by apply (anthropic_length _ _ _ _ E).
    + by apply (anthropic_roles _ _ _ _ E).
  - apply Forall_forall. intros m [Hm _]%list_elem_of_filter.
    destruct (JS.isStr (JS.get m "role") "system") eqn:Hs; [|done].
    by rewrite (system_not_translated _ Hs) in Hm.
Qed.

Example gemini_mixed :
  toGeminiContents (offlineHost noSettings) mixedTranscript =
  Normal
    [VObj [("role", VStr "user"); ("parts", VArr [VObj [("text", VStr "hi")]])];
     VObj [("role", VStr "model"); ("parts", VArr [VObj [("text", VStr "")]])];
     VObj [("role", VStr "tool");
           ("parts", VArr [VObj [("functionResponse",
              VObj [("name", VStr "web_search"); ("response", VObj [])])]])];
     VObj [("role", VStr "tool");
           ("parts", VArr [VObj [("functionResponse",
              VObj [("name", VStr "js_exec");
                    ("response", VObj [("text", VStr "oops")])])]])]].
Proof. reflexivity. Qed.

Example anthropic_mixed :
  toAnthropicMessages (offlineHost noSettings) 0 mixedTranscript =
  Normal
    ([VObj [("role", VStr "user");
            ("content", VArr [VObj [("type", VStr "text"); ("text", VStr "hi")]])];
      VObj [("role", VStr "assistant");
            ("content", VArr [VObj [("type", VStr "text"); ("text", VStr "")]])];
      VObj [("role", VStr "user");
            ("content", VArr [VObj [("type", VStr "tool_result");
                                    ("tool_use_id", VStr "call_1");
                                    ("content", VStr "{}");
                                    ("is_error", VBool false)]])];
      VObj [("role", VStr "user");
            ("content", VArr [VObj [("type", VStr "tool_result");
                                    ("tool_use_id", VStr "tool_r4nd0m");
                                    ("content", VStr (stubStringify (VObj [("text", VStr "oops")])));
                                    ("is_error", VBool false)]])]], 1%nat).
Proof. reflexivity. Qed.

(** ** The tools *)

Section ToolFacts.
Context (host : Host).
Import JS.

Lemma ddgTopic_grows q items rt items' :
  ddgTopic q items rt = Normal items' →
  ∃ more, items' = items ++ more ∧ (length more ≤ 1)%nat.
Proof.
  unfold ddgTopic. destruct (truthy (optprop rt "Text")).
  - intros (head & _ & [= <-])%bind_Normal_inv. eexists. split; [done|]. simpl. lia.
  - intros [= <-]. exists []. split; [by rewrite app_nil_r|]. simpl. lia.
Qed.

Lemma ddgTopics_grow q topics items items' :
  forOf (ddgTopic q) topics items = Normal items' →
  ∃ more, items' = items ++ more ∧ (length more ≤ length topics)%nat.
Proof.
  revert items. induction topics as [|rt topics IH]; intros items; simpl.
  - intros [= <-]. exists []. split; [by rewrite app_nil_r|]. simpl. lia.
  - intros (mid & Hstep & Hrest)%bind_Normal_inv.
    destruct (ddgTopic_grows _ _ _ _ Hstep) as (m1 & -> & H1).
    destruct (IH _ Hrest) as (m2 & -> & H2).
    exists (m1 ++ m2). split; [by rewrite app_assoc|]. rewrite length_app. lia.
Qed.

Lemma sliceMax0_length l z :
  (Z.of_nat (length (sliceMax0 l (Some z))) ≤ Z.max 0 z)%Z.
Proof. simpl. rewrite length_firstn. lia. Qed.

(** The first lookup ends with [null] or with a result that has items,
    at most [max 1 n] of them for a numeric count [n]. *)
Lemma ddgLookup_result q num v :
  ddgLookup host q num = Normal v →
  ∃ items, v = sourceResult q "duckduckgo" items ∧
           ∀ n, num = VNum n → (Z.of_nat (length items) ≤ Z.max 1 n)%Z.
Proof.
  unfold ddgLookup.
  intros (qs & _ & H)%bind_Normal_inv.
  apply bind_Normal_inv in H as (ddgRes & _ & H).
  destruct (res_ok ddgRes);
    [|injection H as <-; exists []; split; [done|simpl; intros; lia]].
  apply bind_Normal_inv in H as (data & _ & H).
  apply bind_Normal_inv in H as (abstract & _ & H).
  apply bind_Normal_inv in H as (items & Hitems & H).
  injection H as <-. exists (if (0 <? length items)%nat then items else []).
  split.
  { destruct items; simpl; done. }
  intros n ->.
  assert (Z.of_nat (length items) ≤ Z.max 1 n)%Z as Hlen.
  { destruct (isArray (get data "RelatedTopics")).
    - simpl in Hitems.
      apply ddgTopics_grow in Hitems as (more & -> & Hmore).
      rewrite length_firstn in Hmore. rewrite length_app.
      destruct (truthy abstract); simpl in *; lia.
    - injection Hitems as <-. destruct (truthy abstract); simpl; lia. }
  destruct (0 <? length items)%nat; simpl; lia.
Qed.

Lemma wikiLookup_result q v :
  wikiLookup host q = Normal v →
  ∃ items, v = sourceResult q "wikipedia" items ∧ (length items ≤ 1)%nat.
Proof.
  unfold wikiLookup.
  intros (qs & _ & H)%bind_Normal_inv.
  apply bind_Normal_inv in H as (wres & _ & H).
  destruct (res_ok wres); [|injection H as <-; exists []; split; [done|simpl; lia]].
  apply bind_Normal_inv in H as (w & _ & H).
  destruct (truthy (optprop w "extract")); injection H as <-.
  - eexists [_]. split; [reflexivity|]. simpl. lia.
  - exists []. split; [done|]. simpl. lia.
Qed.

Lemma swallow_ddg q num :
  ∃ items, swallow (ddgLookup host q num) = sourceResult q "duckduckgo" items ∧
           ∀ n, num = VNum n → (Z.of_nat (length items) ≤ Z.max 1 n)%Z.
Proof.
  destruct (ddgLookup host q num) as [v|e] eqn:E; simpl.
  - by apply ddgLookup_result in E.
  - exists []. split; [done|]. simpl. intros. lia.
Qed.

Lemma swallow_wiki q :
  ∃ items, swallow (wikiLookup host q) = sourceResult q "wikipedia" items ∧
           (length items ≤ 1)%nat.
Proof.
  destruct (wikiLookup host q) as [v|e] eqn:E; simpl.
  - by apply wikiLookup_result in E.
  - exists []. split; [done|]. simpl. lia.
Qed.

End ToolFacts.

Lemma sourceFound_swallow (lookup : completion value) q provider items :
  sourceFound lookup q provider items →
  swallow lookup = sourceResult q provider items.
Proof. destruct lookup as [v|e]; simpl; [done|by intros ->]. Qed.

(** C6. Without a key pair, [web_search] with a numeric count [n] never
    throws, and its answer has at most [max 1 n] items. Whatever items
    the two sources found: when both found some, it returns the first
    source's items cut to [n - 1] (none when [n < 1]) followed by the
    first item of the second, tagged as the combined fallback; when only
    one source found items, that source's own result with its items as
    they are; when neither did, an empty item list with a warning. *)
Theorem fallback_search_merges host (args : value) (n : Z) :
  googleKey (getSettings host) = "" ∨ googleCx (getSettings host) = "" →
  JS.nullish args = false →
  paramDefault args "num" (VNum 3) = VNum n →
  let q := JS.get args "q" in
  (∃ result, toolWebSearch host args = Normal result ∧
             (Z.of_nat (length (itemsOf result)) ≤ Z.max 1 n)%Z) ∧
  ∀ ddgItems wikiItems,
    sourceFound (ddgLookup host q (VNum n)) q "duckduckgo" ddgItems →
    sourceFound (wikiLookup host q) q "wikipedia" wikiItems →
    toolWebSearch host args =
      Normal
        match ddgItems, wikiItems with
        | _ :: _, _ :: _ =>
            VObj [("query", q); ("provider", VStr "fallback(duckduckgo+wiki)");
                  ("items", VArr (firstn (Z.to_nat (Z.max 0 (n - 1))) ddgItems ++
                                  firstn 1 wikiItems))]
        | _ :: _, [] =>
            VObj [("query", q); ("provider", VStr "duckduckgo"); ("items", VArr ddgItems)]
        | [], _ :: _ =>
            VObj [("query", q); ("provider", VStr "wikipedia"); ("items", VArr wikiItems)]
        | [], [] =>
            VObj [("query", q); ("provider", VStr "fallback"); ("items", VArr []);
                  ("warning", VStr "No-key fallbacks returned no results (network/CORS?).")]
        end.
Proof.
  intros Hkeys Hargs Hnum q.
  assert (JS.truthy (VStr (googleKey (getSettings host))) &&
          JS.truthy (VStr (googleCx (getSettings host))) = false) as Hno.
  { destruct Hkeys as [-> | ->]; simpl; [done|apply andb_false_r]. }
  assert (∀ ddgItems wikiItems,
    swallow (ddgLookup host q (VNum n)) = sourceResult q "duckduckgo" ddgItems →
    swallow (wikiLookup host q) = sourceResult q "wikipedia" wikiItems →
    toolWebSearch host args =
      Normal
        match ddgItems, wikiItems with
        | _ :: _, _ :: _ =>
            VObj [("query", q); ("provider", VStr "fallback(duckduckgo+wiki)");
                  ("items", VArr (firstn (Z.to_nat (Z.max 0 (n - 1))) ddgItems ++
                                  firstn 1 wikiItems))]
        | _ :: _, [] =>
            VObj [("query", q); ("provider", VStr "duckduckgo"); ("items", VArr ddgItems)]
        | [], _ :: _ =>
            VObj [("query", q); ("provider", VStr "wikipedia"); ("items", VArr wikiItems)]
        | [], [] =>
            VObj [("query", q); ("provider", VStr "fallback"); ("items", VArr []);
                  ("warning", VStr "No-key fallbacks returned no results (network/CORS?).")]
        end) as Hmerge.
  { intros ddgItems wikiItems Hd Hw.
    unfold toolWebSearch, JS.prop. rewrite Hargs, bind_Normal, Hno, Hnum.
    unfold fallbackSearch. fold q. rewrite Hd, Hw.
    by destruct ddgItems as [|d ds], wikiItems as [|w ws]. }
  split.
  - destruct (swallow_ddg host q (VNum n)) as (ddgItems & Hd & Hdlen).
    destruct (swallow_wiki host q) as (wikiItems & Hw & Hwlen).
    specialize (Hdlen n eq_refl).
    eexists. split; [exact (Hmerge ddgItems wikiItems Hd Hw)|].
    destruct ddgItems as [|d ds], wikiItems as [|w ws]; unfold itemsOf; simpl in *;
      try lia.
    rewrite length_app, length_firstn. destruct ws; simpl in *; lia.
  - intros ddgItems wikiItems Hd%sourceFound_swallow Hw%sourceFound_swallow.
    by apply Hmerge.
Qed.

(** Against the two stub sources, of which the first finds two items
    and the second one: a count of three gives those two and the one,
    tagged as the combined fallback; a count of two gives the first of
    the first source and the one of the second. When the first source
    cannot be reached, the result of the second is returned as it is. *)
Lemma fallback_search_merges_witness :
  toolWebSearch fallbackHost (VObj [("q", VStr "rocq prover"); ("num", VNum 3)]) =
    Normal (VObj [("query", VStr "rocq prover");
                  ("provider", VStr "fallback(duckduckgo+wiki)");
                  ("items", VArr [abstractItem; topicItem; summaryItem])]) ∧
  toolWebSearch fallbackHost (VObj [("q", VStr "rocq prover"); ("num", VNum 2)]) =
    Normal (VObj [("query", VStr "rocq prover");
                  ("provider", VStr "fallback(duckduckgo+wiki)");
                  ("items", VArr [abstractItem; summaryItem])]) ∧
  toolWebSearch wikiOnlyHost (VObj [("q", VStr "rocq prover"); ("num", VNum 3)]) =
    Normal (VObj [("query", VStr "rocq prover"); ("provider", VStr "wikipedia");
                  ("items", VArr [summaryItem])]).
Proof.
  split; [|split].
  - destruct (fallback_search_merges fallbackHost
                (VObj [("q", VStr "rocq prover"); ("num", VNum 3)]) 3
                (or_introl eq_refl) eq_refl eq_refl) as [_ Hmerge].
    exact (Hmerge [abstractItem; topicItem] [summaryItem] eq_refl eq_refl).
  - destruct (fallback_search_merges fallbackHost
                (VObj [("q", VStr "rocq prover"); ("num", VNum 2)]) 2
                (or_introl eq_refl) eq_refl eq_refl) as [_ Hmerge].
    exact (Hmerge [abstractItem; topicItem] [summaryItem] eq_refl eq_refl).
  - destruct (fallback_search_merges wikiOnlyHost
                (VObj [("q", VStr "rocq prover"); ("num", VNum 3)]) 3
                (or_introl eq_refl) eq_refl eq_refl) as [_ Hmerge].
    exact (Hmerge [] [summaryItem] eq_refl eq_refl).
Defined.

(** The two items of the first source and the one of the second, for a
    count of three. *)
Example fallback_two_plus_one :
  toolWebSearch fallbackHost (VObj [("q", VStr "rocq prover"); ("num", VNum 3)]) =
  Normal
    (VObj [("query", VStr "rocq prover");
           ("provider", VStr "fallback(duckduckgo+wiki)");
           ("items",
             VArr [VObj [("title", VStr "Rocq"); ("link", VStr "https://rocq-prover.org");
                         ("snippet", VStr "Rocq is a proof assistant.")];
                   VObj [("title", VStr "Coq"); ("link", VStr "https://coq.inria.fr");
                         ("snippet", VStr "Coq - the former name of Rocq")];
                   VObj [("title", VStr "Rocq");
                         ("link", VStr "https://en.wikipedia.org/wiki/Rocq");
                         ("snippet", VStr "Rocq is an interactive theorem prover.")]])]).
Proof. reflexivity. Qed.

Example fallback_nothing_found :
  toolWebSearch (offlineHost noSettings) (VObj [("q", VStr "x")]) =
  Normal (VObj [("query", VStr "x"); ("provider", VStr "fallback"); ("items", VArr []);
                ("warning", VStr "No-key fallbacks returned no results (network/CORS?).")]).
Proof. reflexivity. Qed.

Lemma googleItems_shaped (hits : list value) :
  Forall isObject hits →
  mapM googleItem hits = Normal (map shapedItem hits).
Proof.
  induction 1 as [|i hits [fs ->] _ IH]; simpl; [done|].
  by rewrite IH.
Qed.

(** With a key pair configured and an engine that answers with an
    array of hits, [web_search] returns one [{title, link, snippet}] item
    per hit, all of them, in the engine's order, tagged [google_cse]. *)
Lemma google_search_returns_engine_items host (args : value)
    (qs ns : string) (res : Response) (json : value) (hits : list value) :
  googleKey (getSettings host) ≠ "" →
  googleCx (getSettings host) ≠ "" →
  JS.nullish args = false →
  JS.toString (JS.get args "q") = Normal qs →
  JS.toString (paramDefault args "num" (VNum 3)) = Normal ns →
  fetch host (googleUrl host qs ns) = Normal res →
  res_ok res = true →
  res_json res = Normal json →
  JS.nullish json = false →
  JS.get json "items" = VArr hits →
  Forall isObject hits →
  toolWebSearch host args =
    Normal (VObj [("query", JS.get args "q"); ("provider", VStr "google_cse");
                  ("items", VArr (map shapedItem hits))]) ∧
  length (map shapedItem hits) = length hits.
Proof.
  intros Hk Hc Hargs Hq Hn Hfetch Hok Hjson Hnj Hitems Hhits.
  split; [|apply length_map].
  unfold toolWebSearch, JS.prop. rewrite Hargs, bind_Normal.
  apply String.eqb_neq in Hk, Hc. simpl. rewrite Hk, Hc. simpl.
  unfold googleSearch. rewrite Hq, bind_Normal, Hn, bind_Normal, Hfetch, bind_Normal, Hok.
  simpl. rewrite Hjson, bind_Normal. unfold JS.prop. rewrite Hnj, bind_Normal, Hitems.
  simpl. by rewrite (googleItems_shaped hits Hhits), bind_Normal.
Qed.

(** C5. The count is not applied to the answer of the engine. With a
    key pair configured, [web_search] for [x] with the count 3 sends the
    request with [num=3]; the stub engine answers that request with five
    hits, and [web_search] returns all five as [{title, link, snippet}]
    items in the engine's order, where the claim has at most three. The
    path without a key pair does cut its result to the count: on the
    two stub sources a count of one gives one item. *)
Theorem web_search_count_not_applied :
  toolWebSearch threeAskedHost (VObj [("q", VStr "x"); ("num", VNum 3)]) =
    Normal (VObj [("query", VStr "x"); ("provider", VStr "google_cse");
                  ("items", VArr (map shapedItem (map searchHit [1; 2; 3; 4; 5])))]) ∧
  length (map shapedItem (map searchHit [1; 2; 3; 4; 5])) = 5%nat ∧
  ¬ (length (map shapedItem (map searchHit [1; 2; 3; 4; 5]%Z)) ≤ 3)%nat ∧
  toolWebSearch fallbackHost (VObj [("q", VStr "rocq prover"); ("num", VNum 1)]) =
    Normal (VObj [("query", VStr "rocq prover");
                  ("provider", VStr "fallback(duckduckgo+wiki)");
                  ("items", VArr [summaryItem])]).
Proof.
  split; [reflexivity|]. split; [reflexivity|]. split; [simpl; lia|reflexivity].
Qed.

Section ToolResults.
Context (host : Host).
Import JS.

Lemma sourceResult_object q p items :
  truthy (sourceResult q p items) = true → isObject (sourceResult q p items).
Proof. destruct items; [done|]. intros _. by eexists. Qed.

Lemma httpError_object label res v : httpError label res = Normal v → isObject v.
Proof.
  unfold httpError. intros (detail & _ & [= <-])%bind_Normal_inv. by eexists.
Qed.

Lemma googleSearch_object q num v : googleSearch host q num = Normal v → isObject v.
Proof.
  unfold googleSearch.
  intros (qs & _ & H)%bind_Normal_inv.
  apply bind_Normal_inv in H as (ns & _ & H).
  apply bind_Normal_inv in H as (res & _ & H).
  destruct (res_ok res); simpl in H; [|by eapply httpError_object].
  apply bind_Normal_inv in H as (json & _ & H).
  apply bind_Normal_inv in H as (items0 & _ & H).
  apply bind_Normal_inv in H as (items & _ & [= <-]). by eexists.
Qed.

Lemma fallbackSearch_object q num v : fallbackSearch host q num = Normal v → isObject v.
Proof.
  unfold fallbackSearch.
  destruct (swallow_ddg host q num) as (ddgItems & -> & _).
  destruct (swallow_wiki host q) as (wikiItems & -> & _).
  destruct (truthy (sourceResult q "duckduckgo" ddgItems)) eqn:Ed;
    destruct (truthy (sourceResult q "wikipedia" wikiItems)) eqn:Ew; simpl.
  - intros (n & _ & [= <-])%bind_Normal_inv. by eexists.
  - intros [= <-]. by apply sourceResult_object.
  - intros [= <-]. by apply sourceResult_object.
  - intros [= <-]. by eexists.
Qed.

Lemma toolWebSearch_object args v : toolWebSearch host args = Normal v → isObject v.
Proof.
  unfold toolWebSearch. intros (q & _ & H)%bind_Normal_inv.
  destruct (_ && _) in H; [by eapply googleSearch_object|by eapply fallbackSearch_object].
Qed.

Lemma toolAIPipeProxy_object args v : toolAIPipeProxy host args = Normal v → isObject v.
Proof.
  unfold toolAIPipeProxy. intros (prompt & _ & H)%bind_Normal_inv.
  destruct (negb (truthy _)) in H; [injection H as <-; by eexists|].
  apply bind_Normal_inv in H as (bearer & _ & H).
  apply bind_Normal_inv in H as (res & _ & H).
  destruct (res_ok res); simpl in H; [|by eapply httpError_object].
  apply bind_Normal_inv in H as (data & _ & [= <-]). by eexists.
Qed.

Lemma toolJsExec_object args v : toolJsExec host args = Normal v → isObject v.
Proof.
  unfold toolJsExec. intros (code & _ & H)%bind_Normal_inv.
  apply bind_Normal_inv in H as (safe & _ & H).
  destruct (runWorker host safe) as [msgs [r|e]]; injection H as <-; by eexists.
Qed.

Lemma executeTool_object name args v : executeTool host name args = Normal v → isObject v.
Proof.
  unfold executeTool.
  destruct (isStr name "web_search"); [apply toolWebSearch_object|].
  destruct (isStr name "aipipe_proxy"); [apply toolAIPipeProxy_object|].
  destruct (isStr name "js_exec"); [apply toolJsExec_object|].
  intros (n & _ & [= <-])%bind_Normal_inv. by eexists.
Qed.

(** A non-OK answer of the search engine is returned, not thrown. *)
Lemma google_http_failure args qs ns res body :
  googleKey (getSettings host) ≠ "" →
  googleCx (getSettings host) ≠ "" →
  nullish args = false →
  toString (get args "q") = Normal qs →
  toString (paramDefault args "num" (VNum 3)) = Normal ns →
  fetch host (googleUrl host qs ns) = Normal res →
  res_ok res = false →
  res_text res = Normal body →
  executeTool host (VStr "web_search") args =
    Normal (VObj [("error", VStr ("Google CSE error: " +:+ pretty (res_status res) +:+
                                   " " +:+ res_statusText res));
                  ("detail", VStr body)]).
Proof.
  intros Hk Hc Hargs Hq Hn Hfetch Hok Hbody.
  unfold executeTool, toolWebSearch, prop. simpl. rewrite Hargs, bind_Normal.
  apply String.eqb_neq in Hk, Hc. simpl. rewrite Hk, Hc. simpl.
  unfold googleSearch. rewrite Hq, bind_Normal, Hn, bind_Normal, Hfetch, bind_Normal, Hok.
  simpl. unfold httpError. by rewrite Hbody, bind_Normal.
Qed.

End ToolResults.

(** ** The agent loop *)

Section LoopFacts.
Context (host : Host).
Context (callLLM : nat → list value → list (string * string) * completion value).
Import JS.

Lemma runToolCall_result st tc :
  nullish (get tc "function") = false →
  runToolCall host st tc =
    (pushMessage
       (toolMessage host tc
          (executeToolCaught host (get (get tc "function") "name") (toolCallArgs host tc)))
       st,
     Normal ()).
Proof. unfold runToolCall, prop. by intros ->. Qed.

Lemma runToolCall_throws st tc :
  nullish (get tc "function") = true →
  ∃ e, runToolCall host st tc = (st, Throw e).
Proof. unfold runToolCall, prop. intros ->. by eexists. Qed.

Lemma runToolCall_running st tc st' c :
  runToolCall host st tc = (st', c) → running st' = running st ∧ alerts st' = alerts st.
Proof.
  unfold runToolCall. destruct (prop _ _); by intros [= <- <-].
Qed.

Lemma runToolCalls_running tcs st st' c :
  runToolCalls host st tcs = (st', c) → running st' = running st ∧ alerts st' = alerts st.
Proof.
  revert st. induction tcs as [|tc tcs IH]; intros st; simpl.
  - by intros [= <- <-].
  - destruct (runToolCall host st tc) as [st1 [[]|e]] eqn:E;
      apply runToolCall_running in E as [E1 E2].
    + intros H. apply IH in H as [H1 H2]. split; congruence.
    + intros [= <- <-]. done.
Qed.

(** A turn of the loop never touches the running flag. *)
Lemma iteration_running k st st' c :
  iteration host callLLM k st = (st', c) → running st' = running st.
Proof.
  unfold iteration. destruct (callLLM k (messages st)) as [raised [resp|e]];
    [|by intros [= <- <-]].
  destruct (negb (truthy resp)); [by intros [= <- <-]|].
  destruct (getAssistantMessage resp) as [msg|e]; [|by intros [= <- <-]].
  destruct (truthy (optprop msg "content")).
  - destruct (escapeHtml (get msg "content")) as [html|e]; simpl; [|by intros [= <- <-]].
    destruct (_ =? _)%nat; [by intros [= <- <-]|].
    destruct (runToolCalls _ _ _) as [st1 [[]|e]] eqn:E;
      apply runToolCalls_running in E as [E _]; by intros [= <- <-].
  - simpl. destruct (_ =? _)%nat; [by intros [= <- <-]|].
    destruct (runToolCalls _ _ _) as [st1 [[]|e]] eqn:E;
      apply runToolCalls_running in E as [E _]; by intros [= <- <-].
Qed.

(** The loop ends within the fuel of nine tests, after at most eight turns. *)
Lemma whileTurns_ends d turns st :
  (turns + d = 8)%nat →
  ∃ r, (∀ fuel, (d < fuel)%nat → whileTurns host callLLM fuel turns st = Some r) ∧
       (turns ≤ iterations r ≤ 8)%nat ∧
       running (final r) = running st.
Proof.
  revert turns st. induction d as [|d IH]; intros turns st Hd.
  - exists (mkLoopEnd turns st (Normal ())). split; [|simpl; split; [lia|done]].
    intros [|fuel] Hf; [lia|]. simpl.
    assert ((turns <? 8)%nat = false) as -> by (apply Nat.ltb_ge; lia). done.
  - assert ((turns <? 8)%nat = true) as Hlt by (apply Nat.ltb_lt; lia).
    destruct (iteration host callLLM turns st) as [st' [[]|e]] eqn:E;
      pose proof (iteration_running _ _ _ _ E) as Hrun.
    + destruct (IH (S turns) st') as (r & Hr & Hn & Hrun'); [lia|].
      exists r. split; [|split; [lia|congruence]].
      intros [|fuel] Hf; [lia|]. simpl. rewrite Hlt, E. apply Hr. lia.
    + exists (mkLoopEnd (S turns) st' (Normal ())). split; [|simpl; split; [lia|done]].
      intros [|fuel] Hf; [lia|]. simpl. by rewrite Hlt, E.
    + exists (mkLoopEnd (S turns) st' (Throw e)). split; [|simpl; split; [lia|done]].
      intros [|fuel] Hf; [lia|]. simpl. by rewrite Hlt, E.
Qed.

Lemma replyToolCalls_inv resp tcs :
  replyToolCalls resp = Normal tcs →
  ∃ msg, getAssistantMessage resp = Normal msg ∧
         keptToolCalls (optprop msg "tool_calls") = tcs.
Proof.
  unfold replyToolCalls. intros (msg & Hmsg & [= <-])%bind_Normal_inv. eauto.
Qed.

(** A turn on a reply without tool calls breaks out of the loop. *)
Lemma iteration_no_tool_call k st resp :
  callLLM k (messages st) = ([], Normal resp) →
  truthy resp = true →
  replyToolCalls resp = Normal [] →
  ∃ st', (iteration host callLLM k st = (st', Normal Break) ∨
          ∃ e, iteration host callLLM k st = (st', Throw e)).
Proof.
  intros Hcall Ht (msg & Hmsg & Htc)%replyToolCalls_inv.
  unfold iteration. rewrite Hcall, Ht, Hmsg, Htc. simpl.
  destruct (truthy (optprop msg "content")); [|eauto].
  destruct (escapeHtml (get msg "content")); simpl; eauto.
Qed.

(** A turn on a reply with one tool call runs the tool and goes on. *)
Lemma iteration_one_tool_call k st resp tc :
  callLLM k (messages st) = ([], Normal resp) →
  truthy resp = true →
  replyToolCalls resp = Normal [tc] →
  nullish (get tc "function") = false →
  showable resp →
  ∃ st', iteration host callLLM k st = (st', Normal Continue) ∧
         alerts st' = alerts st ∧
         ∃ content,
           messages st' =
             messages st ++
             [VObj [("role", VStr "assistant"); ("content", content);
                    ("tool_calls", VArr [tc])];
              toolMessage host tc
                (executeToolCaught host (get (get tc "function") "name")
                   (toolCallArgs host tc))].
Proof.
  intros Hcall Ht (msg & Hmsg & Htc)%replyToolCalls_inv Hf (msg' & Hmsg' & Hshow).
  rewrite Hmsg in Hmsg'. injection Hmsg' as <-.
  unfold iteration. rewrite Hcall, Ht, Hmsg, Htc. simpl.
  destruct (truthy (optprop msg "content")) eqn:Hc.
  - destruct (Hshow eq_refl) as [s Hs]. unfold escapeHtml. rewrite Hs. simpl.
    rewrite runToolCall_result by done. eexists. split; [reflexivity|].
    split; [by rewrite app_nil_r|]. eexists. simpl. by rewrite <- app_assoc.
  - rewrite runToolCall_result by done. eexists. split; [reflexivity|].
    split; [by rewrite app_nil_r|]. eexists. simpl. by rewrite <- app_assoc.
Qed.

Lemma whileTurns_no_tool_call st :
  alwaysNoToolCall callLLM →
  ∃ r, (∀ fuel, (0 < fuel)%nat → whileTurns host callLLM fuel 0 st = Some r) ∧
       iterations r = 1%nat.
Proof.
  intros Hstub. destruct (Hstub 0%nat (messages st)) as (resp & Hcall & Ht & Htc).
  destruct (iteration_no_tool_call 0 st resp Hcall Ht Htc) as (st' & [E|[e E]]).
  - exists (mkLoopEnd 1 st' (Normal ())). split; [|done].
    intros [|fuel] Hf; [lia|]. simpl. by rewrite E.
  - exists (mkLoopEnd 1 st' (Throw e)). split; [|done].
    intros [|fuel] Hf; [lia|]. simpl. by rewrite E.
Qed.

Lemma whileTurns_one_tool_call d turns st :
  alwaysOneToolCall callLLM →
  (turns + d = 8)%nat →
  ∃ r, (∀ fuel, (d < fuel)%nat → whileTurns host callLLM fuel turns st = Some r) ∧
       iterations r = 8%nat ∧ outcome r = Normal () ∧
       alerts (final r) = alerts st ∧
       length (messages (final r)) = (length (messages st) + 2 * d)%nat.
Proof.
  intros Hstub. revert turns st. induction d as [|d IH]; intros turns st Hd.
  - exists (mkLoopEnd turns st (Normal ())). split; [|simpl; repeat split; lia].
    intros [|fuel] Hf; [lia|]. simpl.
    assert ((turns <? 8)%nat = false) as -> by (apply Nat.ltb_ge; lia). done.
  - assert ((turns <? 8)%nat = true) as Hlt by (apply Nat.ltb_lt; lia).
    destruct (Hstub turns (messages st)) as (resp & tc & Hcall & Ht & Htc & Hf & Hshow).
    destruct (iteration_one_tool_call turns st resp tc Hcall Ht Htc Hf Hshow)
      as (st' & E & Hal & content & Hms).
    destruct (IH (S turns) st') as (r & Hr & Hn & Hout & Hal' & Hlen); [lia|].
    exists r. split; [|repeat split; try congruence].
    + intros [|fuel] Hfuel; [lia|]. simpl. rewrite Hlt, E. apply Hr. lia.
    + rewrite Hlen, Hms, length_app. simpl. lia.
Qed.

End LoopFacts.

Lemma stubWithoutToolCalls_read
    (callLLM : nat → list value → list (string * string) * completion value) :
  stubWithoutToolCalls callLLM → alwaysNoToolCall callLLM.
Proof.
  intros Hstub k ms. destruct (Hstub k ms) as [content [H|H]]; rewrite H; by eexists.
Qed.

Lemma stubWithOneToolCall_read
    (callLLM : nat → list value → list (string * string) * completion value) :
  stubWithOneToolCall callLLM → alwaysOneToolCall callLLM.
Proof.
  intros Hstub k ms. destruct (Hstub k ms) as (content & id & name & arguments & H).
  rewrite H. eexists _, _. repeat split; try reflexivity.
  eexists. split; [reflexivity|]. intros _. by eexists.
Qed.

(** C1. Whatever the provider does, the loop ends, the fuel of nine
    tests of [turns++ < 8] suffices, and its body runs at most eight
    times. From an idle session: with a stub whose every reply has no
    tool call the body runs exactly once; with a stub whose every reply
    has exactly one tool call it runs exactly eight times and the loop
    ends normally: no alert is raised, the running flag is clear again,
    and the eight assistant messages and eight tool messages are in the
    transcript. The stubs are given by their replies. *)
Theorem agent_loop_at_most_eight_turns host
    (callLLM : nat → list value → list (string * string) * completion value)
    (st : session) :
  ∃ n st',
    (∀ fuel, (9 ≤ fuel)%nat → agentLoop host callLLM fuel st = Some (n, st')) ∧
    (n ≤ 8)%nat ∧
    running st' = running st ∧
    (running st = false → stubWithoutToolCalls callLLM → n = 1%nat) ∧
    (running st = false → stubWithOneToolCall callLLM →
     n = 8%nat ∧ alerts st' = alerts st ∧
     length (messages st') = (length (messages st) + 16)%nat).
Proof.
  unfold agentLoop. destruct (running st) eqn:Hrun.
  { exists 0%nat, st. repeat split; try done; lia. }
  destruct (whileTurns_ends host callLLM 8 0 (setBusy true st) eq_refl)
    as (r & Hr & Hn & _).
  exists (iterations r),
    (setBusy false
       match outcome r with
       | Normal _ => final r
       | Throw err =>
           addAlert "danger" ("Agent loop error: " +:+ JS.escapeChars (errorText err))
             (final r)
       end).
  split; [|split; [lia|split; [done|split]]].
  - intros fuel Hfuel. rewrite Hr by lia. reflexivity.
  - intros _ Hstub%stubWithoutToolCalls_read.
    destruct (whileTurns_no_tool_call host callLLM (setBusy true st) Hstub)
      as (r1 & Hr1 & Hn1).
    specialize (Hr 9%nat ltac:(lia)). rewrite Hr1 in Hr by lia. by injection Hr as <-.
  - intros _ Hstub%stubWithOneToolCall_read.
    destruct (whileTurns_one_tool_call host callLLM 8 0 (setBusy true st) Hstub eq_refl)
      as (r8 & Hr8 & Hn8 & Hout & Hal & Hlen).
    specialize (Hr 9%nat ltac:(lia)). rewrite Hr8 in Hr by lia. injection Hr as <-.
    rewrite Hout. simpl. done.
Qed.

Lemma agent_loop_at_most_eight_turns_witness :
  (∃ st', agentLoop (offlineHost noSettings) answeringProvider 9 idleSession =
            Some (1%nat, st')) ∧
  (∃ st', agentLoop (offlineHost noSettings) searchingProvider 9 idleSession =
            Some (8%nat, st') ∧
          alerts st' = [] ∧ running st' = false ∧ length (messages st') = 16%nat).
Proof.
  split.
  - destruct (agent_loop_at_most_eight_turns (offlineHost noSettings) answeringProvider
                idleSession) as (n & st' & Hends & _ & _ & Hone & _).
    assert (n = 1%nat) as ->.
    { apply Hone; [reflexivity|]. intros k ms. exists "All done.". by right. }
    exists st'. apply Hends. lia.
  - destruct (agent_loop_at_most_eight_turns (offlineHost noSettings) searchingProvider
                idleSession) as (n & st' & Hends & _ & Hflag & _ & Height).
    destruct Height as (-> & Halerts & Hlen).
    { reflexivity. }
    { intros k ms. by exists "", "call_1", "web_search", "{}". }
    exists st'. split; [apply Hends; lia|]. by repeat split.
Defined.

Example loop_without_tool_calls :
  agentLoop (offlineHost noSettings) answeringProvider 9 idleSession =
  Some (1%nat,
        mkSession [VObj [("role", VStr "assistant"); ("content", VStr "All done.")]]
                  false [] [("assistant", "All done.")]).
Proof. reflexivity. Qed.

Example loop_with_one_tool_call :
  (λ r, (r.1, alerts r.2, running r.2, length (messages r.2))) <$>
    agentLoop (offlineHost noSettings) searchingProvider 9 idleSession =
  Some (8%nat, [], false, 16%nat).
Proof. reflexivity. Qed.

Lemma answeringProvider_stub : alwaysNoToolCall answeringProvider.
Proof. intros k ms. by eexists. Qed.

Lemma searchingProvider_stub : alwaysOneToolCall searchingProvider.
Proof.
  intros k ms. eexists _, _. repeat split; try reflexivity.
  eexists. split; [reflexivity|]. done.
Qed.

(** C7. The arguments of a tool call that names its function: a string
    that does not parse as JSON gives the empty object, a string that
    parses gives the parsed value, anything else is taken as it is (the
    empty object when falsy). Whatever the arguments, the turn goes on:
    the tool runs on them and its result is pushed as a tool message. *)
Theorem malformed_arguments_are_empty_object host (st : session) (tc : value) :
  JS.nullish (JS.get tc "function") = false →
  toolCallArgs host tc =
    match JS.get (JS.get tc "function") "arguments" with
    | VStr s => if JSON_parse host s is Some v then v else VObj []
    | a => JS.or a (VObj [])
    end ∧
  runToolCall host st tc =
    (pushMessage
       (toolMessage host tc
          (executeToolCaught host (JS.get (JS.get tc "function") "name")
             (toolCallArgs host tc)))
       st,
     Normal ()).
Proof.
  intros Hf. split; [|by apply runToolCall_result].
  unfold toolCallArgs, JS.prop. rewrite Hf, bind_Normal.
  destruct (JS.get (JS.get tc "function") "arguments") as [| | | |s| |]; try done.
  by destruct (JSON_parse host s).
Qed.

Lemma malformed_arguments_are_empty_object_witness :
  JS.nullish (JS.get garbledCall "function") = false ∧
  toolCallArgs (offlineHost noSettings) garbledCall = VObj [] ∧
  runToolCall (offlineHost noSettings) idleSession garbledCall =
    (pushMessage
       (toolMessage (offlineHost noSettings) garbledCall
          (executeToolCaught (offlineHost noSettings)
             (JS.get (JS.get garbledCall "function") "name")
             (toolCallArgs (offlineHost noSettings) garbledCall)))
       idleSession,
     Normal ()).
Proof.
  split; [reflexivity|].
  apply (malformed_arguments_are_empty_object (offlineHost noSettings) idleSession
           garbledCall).
  reflexivity.
Defined.

(** C8. While the running flag is set, [agentLoop] and [onSend] return
    at once and leave the session as it is: no message, no alert, no
    change of the flag. And a turn of the loop never changes the flag,
    so from the guard to the end of a running loop every further call is
    turned away. *)
Theorem reentry_while_running_is_no_op host
    (callLLM : nat → list value → list (string * string) * completion value)
    (st : session) :
  running st = true →
  (∀ fuel, agentLoop host callLLM fuel st = Some (0%nat, st)) ∧
  (∀ fuel input, onSend host callLLM fuel input st = Some st) ∧
  (∀ k st' c, iteration host callLLM k st = (st', c) → running st' = true).
Proof.
  intros Hrun. unfold agentLoop, onSend. rewrite Hrun. repeat split.
  intros k st' c E. apply iteration_running in E. congruence.
Qed.

Lemma reentry_while_running_is_no_op_witness :
  running busySession = true ∧
  (∀ fuel, agentLoop (offlineHost noSettings) searchingProvider fuel busySession =
           Some (0%nat, busySession)) ∧
  (∀ fuel input, onSend (offlineHost noSettings) searchingProvider fuel input busySession =
                 Some busySession) ∧
  (∀ k st' c, iteration (offlineHost noSettings) searchingProvider k busySession = (st', c) →
              running st' = true).
Proof.
  split; [reflexivity|].
  apply (reentry_while_running_is_no_op (offlineHost noSettings) searchingProvider
           busySession).
  reflexivity.
Defined.

(** C4, as the code has it. [executeTool] itself can throw; the handler
    the loop attaches to it (line 260) cannot. For every tool name and
    arguments the loop receives an object: the tool's own result, or
    [{error: String(e)}] for the exception [e] that left [executeTool].
    A non-OK answer of the search engine whose body can be read is such
    an own result, [{error, detail}] with the status in the message. The
    tool message pushed for a call that names its function has for
    content the JSON text of that very object: of the result of the
    tool on the name and the arguments of the call, or of the error
    object of its exception. *)
Theorem tool_failures_reach_the_transcript_as_objects host :
  (∀ name args, ∃ fs,
     executeToolCaught host name args = VObj fs ∧
     match executeTool host name args with
     | Normal result => result = VObj fs
     | Throw e => fs = [("error", VStr (JS.exnToString e))]
     end) ∧
  (∀ args qs ns res body,
     googleKey (getSettings host) ≠ "" → googleCx (getSettings host) ≠ "" →
     JS.nullish args = false →
     JS.toString (JS.get args "q") = Normal qs →
     JS.toString (paramDefault args "num" (VNum 3)) = Normal ns →
     fetch host (googleUrl host qs ns) = Normal res →
     res_ok res = false →
     res_text res = Normal body →
     executeTool host (VStr "web_search") args =
       Normal (VObj [("error", VStr ("Google CSE error: " +:+ pretty (res_status res) +:+
                                      " " +:+ res_statusText res));
                     ("detail", VStr body)])) ∧
  (∀ st tc, JS.nullish (JS.get tc "function") = false →
     ∃ fs,
       match executeTool host (JS.get (JS.get tc "function") "name") (toolCallArgs host tc)
       with
       | Normal result => result = VObj fs
       | Throw e => fs = [("error", VStr (JS.exnToString e))]
       end ∧
       runToolCall host st tc =
         (mkSession
            (messages st ++
             [VObj [("role", VStr "tool");
                    ("tool_call_id", JS.or (JS.get tc "id") VUndef);
                    ("name", JS.get (JS.get tc "function") "name");
                    ("content", VStr (JSON_stringify host (VObj fs)))]])
            (running st) (alerts st) (chat st),
          Normal ())).
Proof.
  assert (∀ name args, ∃ fs,
     executeToolCaught host name args = VObj fs ∧
     match executeTool host name args with
     | Normal result => result = VObj fs
     | Throw e => fs = [("error", VStr (JS.exnToString e))]
     end) as Hobj.
  { intros name args. unfold executeToolCaught.
    destruct (executeTool host name args) as [result|e] eqn:E.
    - destruct (executeTool_object host name args result E) as [fs ->]. by exists fs.
    - by eexists. }
  split; [exact Hobj|]. split; [apply google_http_failure|].
  intros st tc Hf.
  destruct (Hobj (JS.get (JS.get tc "function") "name") (toolCallArgs host tc))
    as (fs & Hfs & Hfrom).
  exists fs. split; [exact Hfrom|].
  rewrite (runToolCall_result host st tc Hf), Hfs. reflexivity.
Qed.

(** With a key pair configured and the network down, the rejection of
    [fetch] leaves [executeTool], and the tool message of the call has
    the JSON text of its error object for content. *)
Lemma tool_failures_reach_the_transcript_as_objects_witness :
  runToolCall (offlineHost googleSettings) idleSession exampleCall =
    (mkSession
       [VObj [("role", VStr "tool"); ("tool_call_id", VStr "call_1");
              ("name", VStr "web_search");
              ("content",
                VStr (stubStringify
                        (VObj [("error", VStr "TypeError: Failed to fetch")])))]]
       false [] [],
     Normal ()).
Proof.
  destruct (proj2 (proj2 (tool_failures_reach_the_transcript_as_objects
                            (offlineHost googleSettings)))
              idleSession exampleCall eq_refl) as (fs & Hfrom & Hpushed).
  vm_compute in Hfrom. subst fs. exact Hpushed.
Defined.

(** The claim as stated fails: with a key pair configured and the
    network down, [fetch] rejects and the rejection leaves [executeTool];
    so does the [TypeError] of destructuring [null] arguments. *)
Lemma executeTool_can_throw :
  executeTool (offlineHost googleSettings) (VStr "web_search") (VObj [("q", VStr "x")]) =
    Throw (TypeError "Failed to fetch") ∧
  executeTool (offlineHost noSettings) (VStr "web_search") VNull =
    Throw (TypeError "Cannot read properties of null") ∧
  executeToolCaught (offlineHost googleSettings) (VStr "web_search")
    (VObj [("q", VStr "x")]) =
    VObj [("error", VStr "TypeError: Failed to fetch")].
Proof. repeat split. Qed.

(** ** The sanitizer and the store *)

Section HeapFacts.
Import Heap.
Context (toStringH : heap → hval → completion string).
Context (stringifyH : heap → hval → string).

Lemma unchanged_refl (h : heap) : unchanged h h.
Proof. by intros l o. Qed.

Lemma alloc_unchanged (h0 h : heap) o l h' :
  unchanged h0 h → alloc o h = (l, h') →
  unchanged h0 h' ∧ h0 !! l = None ∧ h' !! l = Some o.
Proof.
  unfold alloc. intros Hun [= <- <-].
  pose proof (is_fresh (dom h)) as Hfresh.
  assert (h0 !! fresh (dom h) = None) as Hnone.
  { destruct (h0 !! fresh (dom h)) as [o'|] eqn:E; [|done].
    apply Hun in E. destruct Hfresh. apply elem_of_dom. by eexists. }
  split; [|split; [done|by rewrite lookup_insert_eq]].
  intros l o' Hl. rewrite lookup_insert_ne; [by apply Hun|]. congruence.
Qed.

Lemma setProp_unchanged (h0 h : heap) l k v :
  unchanged h0 h → h0 !! l = None → unchanged h0 (setProp l k v h).
Proof.
  unfold setProp. intros Hun Hl. destruct (h !! l) as [[fs|items]|]; try done.
  intros l' o Hl'. rewrite lookup_insert_ne; [by apply Hun|]. congruence.
Qed.

Lemma pushItem_unchanged (h0 h : heap) l v :
  unchanged h0 h → h0 !! l = None → unchanged h0 (pushItem l v h).
Proof.
  unfold pushItem. intros Hun Hl. destruct (h !! l) as [[fs|items]|]; try done.
  intros l' o Hl'. rewrite lookup_insert_ne; [by apply Hun|]. congruence.
Qed.

Lemma sanitizeToolCall_unchanged (h0 h : heap) t v h' :
  unchanged h0 h → Heap.sanitizeToolCall stringifyH h t = (v, h') →
  unchanged h0 h' ∧ newIn h0 v.
Proof.
  unfold Heap.sanitizeToolCall. intros Hun.
  destruct (alloc (HObject []) h) as [o h1] eqn:E1.
  apply (alloc_unchanged h0) in E1 as (Hun1 & Ho & _); [|done].
  set (h2 := setProp o "type" _ (setProp o "id" _ h1)).
  assert (unchanged h0 h2) as Hun2 by (by repeat apply setProp_unchanged).
  destruct (alloc (HObject []) h2) as [fo h3] eqn:E3.
  apply (alloc_unchanged h0) in E3 as (Hun3 & Hfo & _); [|done].
  set (h4 := setProp fo "name" _ h3).
  assert (unchanged h0 h4) as Hun4 by (by apply setProp_unchanged).
  set (f := Heap.get h2 t "function").
  destruct (Heap.isString (Heap.optprop h4 f "arguments")).
  { intros [= <- <-]. split; [by repeat apply setProp_unchanged|by exists o]. }
  destruct (Heap.truthy (Heap.optprop h4 f "arguments")).
  { intros [= <- <-]. split; [by repeat apply setProp_unchanged|by exists o]. }
  destruct (alloc (HObject []) h4) as [empty h5] eqn:E5.
  apply (alloc_unchanged h0) in E5 as (Hun5 & _ & _); [|done].
  intros [= <- <-]. split; [by repeat apply setProp_unchanged|by exists o].
Qed.

Lemma mapToolCalls_fold (h0 h : heap) arr tc :
  unchanged h0 h → h0 !! arr = None →
  unchanged h0
    (fold_left (λ h t, let '(v, h) := Heap.sanitizeToolCall stringifyH h t in
                       pushItem arr v h) tc h).
Proof.
  intros Hun Harr. revert h Hun. induction tc as [|t tc IH]; intros h Hun; simpl; [done|].
  destruct (Heap.sanitizeToolCall stringifyH h t) as [v h1] eqn:E.
  apply (sanitizeToolCall_unchanged h0) in E as [Hun1 _]; [|done].
  apply IH. by apply pushItem_unchanged.
Qed.

Lemma mapToolCalls_unchanged (h0 h : heap) tc v h' :
  unchanged h0 h → mapToolCalls stringifyH h tc = (v, h') → unchanged h0 h'.
Proof.
  unfold mapToolCalls. intros Hun.
  destruct (alloc (HArray []) h) as [arr h1] eqn:E1.
  apply (alloc_unchanged h0) in E1 as (Hun1 & Harr & _); [|done].
  intros [= <- <-]. by apply mapToolCalls_fold.
Qed.

(** The callback writes to new objects only, and returns one. *)
Lemma sanitizeMessage_unchanged (h0 h : heap) m r h' :
  unchanged h0 h → Heap.sanitizeMessage toStringH stringifyH h m = (r, h') →
  unchanged h0 h' ∧ ∀ v, r = Normal v → newIn h0 v.
Proof.
  unfold Heap.sanitizeMessage. intros Hun.
  destruct (Heap.nullish m); [by intros [= <- <-]|].
  destruct (alloc (HObject []) h) as [out h1] eqn:E1.
  apply (alloc_unchanged h0) in E1 as (Hun1 & Hout & _); [|done].
  set (h2 := setProp out "role" _ h1).
  assert (unchanged h0 h2) as Hun2 by (by apply setProp_unchanged).
  assert (∀ v, Normal (HRef out) = Normal v → newIn h0 v) as Hnew.
  { intros v [= <-]. by exists out. }
  destruct (Heap.isStr (Heap.get h2 m "role") "assistant").
  { destruct (alloc (HArray _) h2) as [tc h3] eqn:E3.
    apply (alloc_unchanged h0) in E3 as (Hun3 & _ & _); [|done].
    destruct (0 <? length _)%nat.
    - destruct (mapToolCalls stringifyH h3 _) as [calls h4] eqn:E4.
      apply (mapToolCalls_unchanged h0) in E4; [|done].
      destruct (toStringH _ _) as [c0|e]; intros [= <- <-].
      + split; [by repeat apply setProp_unchanged|done].
      + split; [by repeat apply setProp_unchanged|done].
    - intros [= <- <-]. split; [by repeat apply setProp_unchanged|done]. }
  destruct (Heap.isStr (Heap.get h2 m "role") "tool").
  { intros [= <- <-]. split; [|done].
    apply setProp_unchanged; [|done].
    destruct (Heap.truthy _); by repeat apply setProp_unchanged. }
  intros [= <- <-]. split; [|done].
  destruct (Heap.truthy _); by repeat apply setProp_unchanged.
Qed.

Lemma pushItem_lookup (h : heap) arr items v :
  h !! arr = Some (HArray items) → pushItem arr v h !! arr = Some (HArray (items ++ [v])).
Proof. unfold pushItem. intros ->. by rewrite lookup_insert_eq. Qed.

(** Each call of the callback leaves every object but its new ones as
    it is; so the array being filled keeps its elements. *)
Lemma sanitizeMessage_keeps (h : heap) m r h' l o :
  Heap.sanitizeMessage toStringH stringifyH h m = (r, h') →
  h !! l = Some o → h' !! l = Some o.
Proof.
  intros E Hl.
  destruct (sanitizeMessage_unchanged h h m r h' (unchanged_refl h) E) as [Hun _].
  by apply Hun.
Qed.

Lemma mapMessages_unchanged (h0 h : heap) arr ms items r h' :
  unchanged h0 h → h0 !! arr = None →
  h !! arr = Some (HArray items) → Forall (newIn h0) items →
  mapMessages toStringH stringifyH arr ms h = (r, h') →
  unchanged h0 h' ∧
  (r = Normal () →
   ∃ items', h' !! arr = Some (HArray items') ∧ Forall (newIn h0) items' ∧
             length items' = (length items + length ms)%nat).
Proof.
  intros Hun Harr. revert h items Hun.
  induction ms as [|m ms IH]; intros h items Hun Hitems Hnew; simpl.
  - intros [= <- <-]. split; [done|]. intros _. exists items. repeat split; [done..|lia].
  - destruct (Heap.sanitizeMessage toStringH stringifyH h m) as [[v|e] h1] eqn:E.
    + pose proof (sanitizeMessage_keeps _ _ _ _ _ _ E Hitems) as Hitems1.
      apply (sanitizeMessage_unchanged h0) in E as [Hun1 Hv]; [|done].
      intros H.
      apply (IH (pushItem arr v h1) (items ++ [v])) in H as [Hun' Hres].
      * split; [exact Hun'|]. intros Hr. destruct (Hres Hr) as (items' & ? & ? & Hlen).
        exists items'. repeat split; [done..|]. rewrite Hlen, length_app. simpl. lia.
      * by apply pushItem_unchanged.
      * by apply pushItem_lookup.
      * apply Forall_app. split; [done|]. constructor; [by apply Hv|done].
    + apply (sanitizeMessage_unchanged h0) in E as [Hun1 _]; [|done].
      intros [= <- <-]. split; [done|]. done.
Qed.

End HeapFacts.

(** C9. The sanitizer does not change what it is given: whatever the
    store and the argument, and whether the call returns or throws, every
    object and array that existed before the call, the transcript array
    and each message among them, is the same after it. When the call
    returns, the result is a new array, with one element per message,
    each a reference to a new object. *)
Theorem sanitizer_leaves_its_input
    (toStringH : Heap.heap → Heap.hval → completion string)
    (stringifyH : Heap.heap → Heap.hval → string)
    (h : Heap.heap) (messages : Heap.hval) :
  let result := Heap.sanitizeMessagesForOpenAI toStringH stringifyH h messages in
  Heap.unchanged h result.2 ∧
  match result.1 with
  | Normal v =>
      ∃ l ms arr items,
        messages = Heap.HRef l ∧ h !! l = Some (Heap.HArray ms) ∧
        v = Heap.HRef arr ∧ h !! arr = None ∧
        result.2 !! arr = Some (Heap.HArray items) ∧
        length items = length ms ∧
        Forall (Heap.newIn h) items
  | Throw _ => True
  end.
Proof.
  unfold Heap.sanitizeMessagesForOpenAI.
  destruct messages as [| | | | |l]; try (split; [apply unchanged_refl|done]).
  destruct (h !! l) as [[fs|ms]|] eqn:Hl; try (split; [apply unchanged_refl|done]).
  destruct (Heap.alloc (Heap.HArray []) h) as [arr h1] eqn:E1.
  apply (alloc_unchanged h) in E1 as (Hun1 & Harr & Harr1); [|apply unchanged_refl].
  destruct (Heap.mapMessages toStringH stringifyH arr ms h1) as [[[]|e] h2] eqn:E2;
    apply (mapMessages_unchanged _ _ h _ _ _ [] _ _ Hun1 Harr Harr1 (List.Forall_nil _)) in E2
      as [Hun2 Hres]; simpl.
  - split; [done|]. destruct (Hres eq_refl) as (items & Hitems & Hnew & Hlen).
    exists l, ms, arr, items. repeat split; done.
  - done.
Qed.

Example sanitizer_on_example_heap :
  let result :=
    Heap.sanitizeMessagesForOpenAI stubToStringH stubStringifyH exampleHeap (Heap.HRef 1%positive) in
  result.1 = Normal (Heap.HRef 7%positive) ∧
  result.2 !! 1%positive = exampleHeap !! 1%positive ∧
  result.2 !! 3%positive = exampleHeap !! 3%positive ∧
  result.2 !! 5%positive = exampleHeap !! 5%positive ∧
  result.2 !! 7%positive = Some (Heap.HArray [Heap.HRef 8%positive; Heap.HRef 9%positive]) ∧
  result.2 !! 8%positive =
    Some (Heap.HObject [("role", Heap.HStr "user"); ("content", Heap.HStr "hi")]) ∧
  result.2 !! 9%positive =
    Some (Heap.HObject [("role", Heap.HStr "assistant"); ("tool_calls", Heap.HRef 11%positive);
                        ("content", Heap.HNull)]).
Proof. vm_compute. repeat split. Qed.

(** * Further properties *)

(** ** Escaping and neutralizing *)

Lemma chars_append (s t : string) :
  list_ascii_of_string (s +:+ t) = list_ascii_of_string s ++ list_ascii_of_string t.
Proof. induction s as [|c s IH]; simpl; [done|]. by rewrite IH. Qed.

(** X1. Whatever [escapeHtml] returns contains neither [<] nor [>]: the
    text it is given cannot open or close a tag in the page. *)
Theorem escapeHtml_has_no_angle_bracket (v : value) :
  match escapeHtml v with
  | Normal html =>
      Forall (λ c, c ≠ "<"%char ∧ c ≠ ">"%char) (list_ascii_of_string html)
  | Throw _ => True
  end.
Proof.
  unfold escapeHtml. destruct (JS.toString v) as [s|e]; [|done]. simpl.
  induction s as [|c s IH]; simpl; [constructor|].
  rewrite chars_append. apply Forall_app. split; [|exact IH].
  destruct (Ascii.eqb c "&") eqn:E1; [by repeat constructor|].
  destruct (Ascii.eqb c "<") eqn:E2; [by repeat constructor|].
  destruct (Ascii.eqb c ">") eqn:E3; [by repeat constructor|].
  apply Ascii.eqb_neq in E2, E3. by repeat constructor.
Qed.

Lemma startsWithFold_spec (p s : string) :
  String.eqb (JS.lowerString (String.substring 0 (String.length p) s)) p =
  startsWithFold p s.
Proof.
  revert s. induction p as [|a p IH]; intros [|c s]; simpl; try done.
  rewrite IH. by destruct (Ascii.eqb (JS.lowerAscii c) a).
Qed.

Lemma substring_drop (n m : nat) (s : string) :
  String.substring n m s = String.substring 0 m (dropString n s).
Proof.
  revert s. induction n as [|n IH]; intros [|c s]; simpl; try done.
  by destruct m.
Qed.

Lemma neutralize_skip (k : nat) (s : string) :
  JS.neutralizeScriptEnd k s = JS.neutralizeScriptEnd 0 (dropString k s).
Proof.
  revert k. induction s as [|c s IH]; intros [|k]; try done. simpl. apply IH.
Qed.

Lemma dropString_length (k : nat) (s : string) :
  (String.length (dropString k s) ≤ String.length s)%nat.
Proof.
  revert s. induction k as [|k IH]; intros [|c s]; simpl; try lia.
  specialize (IH s). lia.
Qed.

Lemma neutralize_step (c : ascii) (s : string) :
  JS.neutralizeScriptEnd 0 (String c s) =
  if startsWithFold "</script>" (String c s)
  then "<\/script>" +:+ JS.neutralizeScriptEnd 0 (dropString 8 s)
  else String c (JS.neutralizeScriptEnd 0 s).
Proof.
  rewrite <- (startsWithFold_spec "</script>"), <- neutralize_skip. reflexivity.
Qed.

Lemma startsWithFold_cons (a c : ascii) (p s : string) :
  startsWithFold (String a p) (String c s) =
  Ascii.eqb (JS.lowerAscii c) a && startsWithFold p s.
Proof. reflexivity. Qed.

(** What the replacement leaves in front, up to the first [<], is what
    the code had there. *)
Lemma neutralize_keeps_prefix (p s : string) :
  forallb (λ a, negb (Ascii.eqb a "<")) (list_ascii_of_string p) = true →
  startsWithFold p (JS.neutralizeScriptEnd 0 s) = true →
  startsWithFold p s = true.
Proof.
  revert s. induction p as [|a p IH]; intros s Hp; [done|].
  simpl in Hp. apply andb_prop in Hp as [Ha Hp].
  destruct s as [|c s]; [done|]. rewrite neutralize_step.
  destruct (startsWithFold "</script>" (String c s)).
  - apply negb_true_iff in Ha. rewrite Ascii.eqb_sym in Ha.
    set (rest := JS.neutralizeScriptEnd 0 (dropString 8 s)).
    change (startsWithFold (String a p) ("<\/script>" +:+ rest))
      with (Ascii.eqb "<" a && startsWithFold p ("\/script>" +:+ rest)).
    by rewrite Ha.
  - rewrite !startsWithFold_cons. intros [Hc Hrest]%andb_prop. rewrite Hc. by apply IH.
Qed.

Lemma neutralize_clean (m : nat) (s : string) :
  (String.length s ≤ m)%nat →
  ∀ n, startsWithFold "</script>" (dropString n (JS.neutralizeScriptEnd 0 s)) = false.
Proof.
  revert s. induction m as [|m IH]; intros s Hlen n.
  { destruct s; [|simpl in Hlen; lia]. by destruct n. }
  destruct s as [|c s]; [by destruct n|]. simpl in Hlen.
  rewrite neutralize_step.
  destruct (startsWithFold "</script>" (String c s)) eqn:E.
  - assert (∀ k, startsWithFold "</script>"
                   (dropString k (JS.neutralizeScriptEnd 0 (dropString 8 s))) = false)
      as Hrest.
    { apply IH. pose proof (dropString_length 8 s). lia. }
    do 10 (destruct n as [|n]; [reflexivity|]). simpl. apply Hrest.
  - destruct n as [|n]; [|simpl; apply IH; lia].
    cbn [dropString]. change "</script>" with (String "<" "/script>") in *.
    rewrite startsWithFold_cons in *.
    destruct (Ascii.eqb (JS.lowerAscii c) "<"); [|done]. rewrite andb_true_l in *.
    destruct (startsWithFold "/script>" (JS.neutralizeScriptEnd 0 s)) eqn:Ep; [|done].
    apply neutralize_keeps_prefix in Ep; [|done]. congruence.
Qed.

(** X2. The code sent to the sandbox worker never contains the closing
    tag of a script, in any mix of upper and lower case, wherever one
    looks in it. *)
Theorem sandbox_code_has_no_script_end (code : string) (n : nat) :
  JS.lowerString (String.substring n 9 (JS.neutralizeScriptEnd 0 code)) ≠ "</script>".
Proof.
  rewrite substring_drop. intros H. apply String.eqb_eq in H.
  rewrite (startsWithFold_spec "</script>") in H.
  by rewrite (neutralize_clean (String.length code) code) in H.
Qed.

(** ** The title guess of the encyclopedia lookup (line 479) *)

Lemma replaceWhiteRuns_no_white (b : bool) (s : string) :
  Forall (λ c, JS.isWhite c = false) (list_ascii_of_string (JS.replaceWhiteRuns b s)).
Proof.
  revert b. induction s as [|c s IH]; intros b; simpl; [constructor|].
  destruct (JS.isWhite c) eqn:E.
  - destruct b; [apply IH|]. simpl. constructor; [reflexivity|apply IH].
  - simpl. constructor; [exact E|apply IH].
Qed.

Lemma replaceWhiteRuns_id (b : bool) (s : string) :
  Forall (λ c, JS.isWhite c = false) (list_ascii_of_string s) →
  JS.replaceWhiteRuns b s = s.
Proof.
  revert b. induction s as [|c s IH]; intros b; simpl; [done|].
  intros [Hc Hs]%Forall_cons. rewrite Hc. f_equal. by apply IH.
Qed.

Lemma trimEnd_id (s : string) :
  Forall (λ c, JS.isWhite c = false) (list_ascii_of_string s) → JS.trimEnd s = s.
Proof.
  induction s as [|c s IH]; simpl; [done|].
  intros [Hc Hs]%Forall_cons. rewrite (IH Hs), Hc. by destruct s.
Qed.

Lemma trim_id (s : string) :
  Forall (λ c, JS.isWhite c = false) (list_ascii_of_string s) → JS.trim s = s.
Proof.
  intros Hs. unfold JS.trim.
  assert (JS.trimStart s = s) as ->; [|by apply trimEnd_id].
  destruct s as [|c s]; [done|]. apply Forall_cons in Hs as [Hc _]. simpl. by rewrite Hc.
Qed.

(** X3. The page title guessed from a query, [q.trim().replace(/\s+/g, "_")],
    never contains white space, and a query without white space is its
    own title. *)
Theorem title_guess_has_no_white_space (q : string) :
  Forall (λ c, JS.isWhite c = false)
    (list_ascii_of_string (JS.replaceWhiteRuns false (JS.trim q))) ∧
  (Forall (λ c, JS.isWhite c = false) (list_ascii_of_string q) →
   JS.replaceWhiteRuns false (JS.trim q) = q).
Proof.
  split; [apply replaceWhiteRuns_no_white|].
  intros Hq. rewrite (trim_id q Hq). by apply replaceWhiteRuns_id.
Qed.

(** ** What the loop adds to the session *)

Section LoopGrowth.
Context (host : Host).
Context (callLLM : nat → list value → list (string * string) * completion value).
Import JS.

Lemma extends_refl st : extends st st.
Proof. exists [], [], []. by rewrite !app_nil_r. Qed.

Lemma extends_trans st1 st2 st3 : extends st1 st2 → extends st2 st3 → extends st1 st3.
Proof.
  intros (a1 & r1 & l1 & Hm1 & Ha1 & Hc1 & Hr1 & Hl1)
         (a2 & r2 & l2 & Hm2 & Ha2 & Hc2 & Hr2 & Hl2).
  exists (a1 ++ a2), (r1 ++ r2), (l1 ++ l2).
  rewrite Hm2, Hm1, Hc2, Hc1, Hl2, Hl1, !app_assoc.
  repeat split; try done; by apply Forall_app.
Qed.

Lemma extends_push st m : loopMessage m → extends st (pushMessage m st).
Proof.
  intros Hm. exists [m], [], []. simpl. rewrite !app_nil_r.
  repeat split; try done. by constructor.
Qed.

Lemma extends_raise st raised :
  extends st (mkSession (messages st) (running st) (alerts st ++ raised) (chat st)).
Proof. exists [], [], raised. simpl. by rewrite !app_nil_r. Qed.

Lemma extends_setBusy st st' b : extends st st' → extends st (setBusy b st').
Proof. intros (a & r & l & H). by exists a, r, l. Qed.

Lemma extends_addAlert st type msg : extends st (addAlert type msg st).
Proof. exists [], [], [(type, msg)]. simpl. by rewrite !app_nil_r. Qed.

Lemma escapeChars_no_angle_bracket s :
  Forall (λ c, c ≠ "<"%char ∧ c ≠ ">"%char) (list_ascii_of_string (escapeChars s)).
Proof.
  induction s as [|c s IH]; simpl; [constructor|].
  rewrite chars_append. apply Forall_app. split; [|exact IH].
  destruct (Ascii.eqb c "&") eqn:E1; [by repeat constructor|].
  destruct (Ascii.eqb c "<") eqn:E2; [by repeat constructor|].
  destruct (Ascii.eqb c ">") eqn:E3; [by repeat constructor|].
  apply Ascii.eqb_neq in E2, E3. by repeat constructor.
Qed.

Lemma runToolCall_extends st tc st' c :
  runToolCall host st tc = (st', c) → extends st st'.
Proof.
  unfold runToolCall. destruct (prop _ _); intros [= <- <-];
    [by apply extends_push|apply extends_refl].
Qed.

Lemma runToolCalls_extends tcs st st' c :
  runToolCalls host st tcs = (st', c) → extends st st'.
Proof.
  revert st. induction tcs as [|tc tcs IH]; intros st; simpl.
  - intros [= <- <-]. apply extends_refl.
  - destruct (runToolCall host st tc) as [st1 [[]|e]] eqn:E;
      apply runToolCall_extends in E.
    + intros H. apply IH in H. by eapply extends_trans.
    + by intros [= <- <-].
Qed.

Lemma iteration_extends k st st' c :
  iteration host callLLM k st = (st', c) → extends st st'.
Proof.
  unfold iteration. destruct (callLLM k (messages st)) as [raised reply].
  set (st0 := mkSession (messages st) (running st) (alerts st ++ raised) (chat st)).
  assert (extends st st0) as H0 by apply extends_raise.
  destruct reply as [resp|e]; [|by intros [= <- <-]].
  destruct (negb (truthy resp)); [by intros [= <- <-]|].
  destruct (getAssistantMessage resp) as [msg|e]; [|by intros [= <- <-]].
  set (m := VObj _). set (st1 := pushMessage m st0).
  assert (extends st st1) as H1.
  { eapply extends_trans; [exact H0|]. apply extends_push.
    unfold m, loopMessage. reflexivity. }
  assert (∀ html, extends st (addMessage "assistant" (escapeChars html) st1)) as H2.
  { intros html. eapply extends_trans; [exact H1|].
    exists [], [("assistant", escapeChars html)], []. simpl. rewrite !app_nil_r.
    repeat split; try done. constructor; [|done].
    split; [done|apply escapeChars_no_angle_bracket]. }
  destruct (truthy (optprop msg "content")).
  - unfold escapeHtml. destruct (toString (get msg "content")) as [s|e]; simpl;
      [|by intros [= <- <-]].
    destruct (_ =? _)%nat; [by intros [= <- <-]|].
    destruct (runToolCalls _ _ _) as [st2 [[]|e]] eqn:E;
      apply runToolCalls_extends in E; intros [= <- <-];
      (eapply extends_trans; [apply H2|exact E]).
  - simpl. destruct (_ =? _)%nat; [by intros [= <- <-]|].
    destruct (runToolCalls _ _ _) as [st2 [[]|e]] eqn:E;
      apply runToolCalls_extends in E; intros [= <- <-];
      (eapply extends_trans; [exact H1|exact E]).
Qed.

Lemma whileTurns_extends fuel turns st r :
  whileTurns host callLLM fuel turns st = Some r → extends st (final r).
Proof.
  revert turns st. induction fuel as [|fuel IH]; intros turns st; simpl; [done|].
  destruct (turns <? 8)%nat; [|intros [= <-]; apply extends_refl].
  destruct (iteration host callLLM turns st) as [st' [[]|e]] eqn:E;
    apply iteration_extends in E.
  - intros H. apply IH in H. by eapply extends_trans.
  - by intros [= <-].
  - by intros [= <-].
Qed.

End LoopGrowth.

(** X4. The loop only ever adds to the session. Whatever the provider
    and the tools do, the transcript after [agentLoop] is the transcript
    before it followed by assistant and tool messages; the chat is the
    chat before it followed by assistant rows without [<] or [>]; the
    alerts are the alerts before followed by new ones. Nothing that was
    there is removed, changed or reordered. *)
Theorem agent_loop_only_appends host
    (callLLM : nat → list value → list (string * string) * completion value)
    (fuel : nat) (st : session) :
  match agentLoop host callLLM fuel st with
  | Some (_, st') => extends st st'
  | None => True
  end.
Proof.
  unfold agentLoop. destruct (running st); [apply extends_refl|].
  destruct (whileTurns host callLLM fuel 0 (setBusy true st)) as [r|] eqn:E; [|done].
  apply whileTurns_extends in E.
  assert (extends st (final r)) as H.
  { destruct E as (a & rows & l & E). by exists a, rows, l. }
  apply extends_setBusy. destruct (outcome r); [done|].
  eapply extends_trans; [exact H|apply extends_addAlert].
Qed.

Example loop_shows_escaped_text :
  (λ r, head (chat r.2)) <$>
    agentLoop (offlineHost noSettings) twoToolsProvider 9 idleSession =
  Some (Some ("assistant", "&lt;b&gt;working&lt;/b&gt;")).
Proof. reflexivity. Qed.

(** ** One turn of the loop *)

Section TurnFacts.
Context (host : Host).
Context (callLLM : nat → list value → list (string * string) * completion value).
Import JS.

Lemma runToolCalls_all tcs st :
  Forall (λ tc, nullish (get tc "function") = false) tcs →
  runToolCalls host st tcs =
    (mkSession (messages st ++ map (toolMessageOf host) tcs) (running st) (alerts st)
       (chat st),
     Normal ()).
Proof.
  intros Hall. revert st. induction Hall as [|tc tcs Htc _ IH]; intros st; simpl.
  - rewrite app_nil_r. by destruct st.
  - rewrite (runToolCall_result host st tc Htc), IH. simpl. by rewrite <- app_assoc.
Qed.

End TurnFacts.

(** X5. A turn on a reply with tool calls that all name their function
    pushes the assistant message with exactly those calls and then one
    tool message per call, in the order of the calls, each with the id
    and the function name of its call and the JSON text of its result;
    then the loop goes on. *)
Theorem turn_answers_every_tool_call host
    (callLLM : nat → list value → list (string * string) * completion value)
    (k : nat) (st : session) (raised : list (string * string)) (resp : value)
    (tcs : list value) :
  callLLM k (messages st) = (raised, Normal resp) →
  JS.truthy resp = true →
  replyToolCalls resp = Normal tcs →
  tcs ≠ [] →
  Forall (λ tc, JS.nullish (JS.get tc "function") = false) tcs →
  showable resp →
  ∃ st' content,
    iteration host callLLM k st = (st', Normal Continue) ∧
    messages st' =
      messages st ++
      VObj [("role", VStr "assistant"); ("content", content); ("tool_calls", VArr tcs)] ::
      map (toolMessageOf host) tcs ∧
    Forall2 (λ tc m, JS.get m "role" = VStr "tool" ∧
                     JS.get m "tool_call_id" = JS.or (JS.get tc "id") VUndef ∧
                     JS.get m "name" = JS.get (JS.get tc "function") "name")
      tcs (map (toolMessageOf host) tcs).
Proof.
  intros Hcall Ht (msg & Hmsg & Htc)%replyToolCalls_inv Hne Hall (msg' & Hmsg' & Hshow).
  rewrite Hmsg in Hmsg'. injection Hmsg' as <-.
  assert ((0 <? length tcs)%nat = true ∧ (length tcs =? 0)%nat = false) as [Hpos Hzero].
  { destruct tcs; [done|]. done. }
  assert (Forall2 (λ tc m, JS.get m "role" = VStr "tool" ∧
                     JS.get m "tool_call_id" = JS.or (JS.get tc "id") VUndef ∧
                     JS.get m "name" = JS.get (JS.get tc "function") "name")
            tcs (map (toolMessageOf host) tcs)) as Hids.
  { clear. induction tcs as [|tc tcs IH]; simpl; constructor; [|exact IH]. done. }
  unfold iteration. rewrite Hcall, Ht, Hmsg, Htc, Hpos, Hzero. simpl.
  destruct (JS.truthy (JS.optprop msg "content")) eqn:Hc.
  - destruct (Hshow eq_refl) as [s Hs]. unfold escapeHtml. rewrite Hs. simpl.
    rewrite (runToolCalls_all host tcs _ Hall). eexists _, _.
    split; [reflexivity|]. split; [|exact Hids]. simpl. by rewrite <- app_assoc.
  - rewrite (runToolCalls_all host tcs _ Hall). eexists _, _.
    split; [reflexivity|]. split; [|exact Hids]. simpl. by rewrite <- app_assoc.
Qed.

Lemma turn_answers_every_tool_call_witness :
  ∃ st' content,
    iteration (offlineHost noSettings) twoToolsProvider 0 idleSession =
      (st', Normal Continue) ∧
    messages st' =
      messages idleSession ++
      VObj [("role", VStr "assistant"); ("content", content);
            ("tool_calls", VArr [exampleCall; secondCall])] ::
      map (toolMessageOf (offlineHost noSettings)) [exampleCall; secondCall] ∧
    Forall2 (λ tc m, JS.get m "role" = VStr "tool" ∧
                     JS.get m "tool_call_id" = JS.or (JS.get tc "id") VUndef ∧
                     JS.get m "name" = JS.get (JS.get tc "function") "name")
      [exampleCall; secondCall]
      (map (toolMessageOf (offlineHost noSettings)) [exampleCall; secondCall]).
Proof.
  apply (turn_answers_every_tool_call (offlineHost noSettings) twoToolsProvider 0
           idleSession [] (replyWith "<b>working</b>" [exampleCall; secondCall])
           [exampleCall; secondCall]); try reflexivity; try done.
  - by repeat constructor.
  - eexists. split; [reflexivity|]. intros _. by eexists.
Defined.

(** X6. A reply that is not empty but has no choice (the property is
    missing, or the array is empty) still counts as an answer: the turn
    pushes an assistant message with empty content and no tool calls,
    shows nothing, and ends the loop. *)
Theorem reply_without_choices_adds_empty_message host
    (callLLM : nat → list value → list (string * string) * completion value)
    (k : nat) (st : session) (raised : list (string * string)) (resp : value) :
  callLLM k (messages st) = (raised, Normal resp) →
  JS.truthy resp = true →
  JS.get resp "choices" = VUndef ∨ JS.get resp "choices" = VNull ∨
  JS.get resp "choices" = VArr [] →
  iteration host callLLM k st =
    (mkSession
       (messages st ++ [VObj [("role", VStr "assistant"); ("content", VStr "")]])
       (running st) (alerts st ++ raised) (chat st),
     Normal Break).
Proof.
  intros Hcall Ht Hch. unfold iteration. rewrite Hcall, Ht. simpl.
  assert (getAssistantMessage resp = Normal VNull) as ->.
  { unfold getAssistantMessage, JS.optprop.
    destruct (JS.nullish resp); [done|].
    by destruct Hch as [-> | [-> | ->]]. }
  reflexivity.
Qed.

Lemma reply_without_choices_adds_empty_message_witness :
  iteration (offlineHost noSettings) emptyProvider 0 idleSession =
    (mkSession
       (messages idleSession ++ [VObj [("role", VStr "assistant"); ("content", VStr "")]])
       (running idleSession) (alerts idleSession ++ []) (chat idleSession),
     Normal Break).
Proof.
  apply (reply_without_choices_adds_empty_message (offlineHost noSettings) emptyProvider
           0%nat idleSession [] (VObj [("choices", VArr [])]));
    [reflexivity|reflexivity|by right; right].
Defined.

(** X7. A round trip that fails on the first call leaves the transcript
    and the chat as they were and clears the running flag. Without a
    reply the loop adds nothing to what the provider call raised; when
    the call throws, the loop adds one danger alert with the escaped
    message of the error. *)
Theorem failed_first_call_keeps_transcript host
    (callLLM : nat → list value → list (string * string) * completion value)
    (fuel : nat) (st : session) (raised : list (string * string))
    (reply : completion value) :
  running st = false →
  callLLM 0%nat (messages st) = (raised, reply) →
  match reply with
  | Normal resp =>
      JS.truthy resp = false →
      agentLoop host callLLM (S fuel) st =
        Some (1%nat, mkSession (messages st) false (alerts st ++ raised) (chat st))
  | Throw e =>
      agentLoop host callLLM (S fuel) st =
        Some (1%nat,
              mkSession (messages st) false
                (alerts st ++ raised ++
                 [("danger", "Agent loop error: " +:+ JS.escapeChars (errorText e))])
                (chat st))
  end.
Proof.
  intros Hrun Hcall. unfold agentLoop. rewrite Hrun. simpl. unfold iteration. simpl.
  rewrite Hcall. destruct reply as [resp|e].
  - intros ->. reflexivity.
  - simpl. unfold addAlert, setBusy. simpl. by rewrite <- app_assoc.
Qed.

Lemma failed_first_call_keeps_transcript_witness :
  agentLoop (offlineHost noSettings) brokenProvider 9 idleSession =
    Some (1%nat,
          mkSession (messages idleSession) false
            (alerts idleSession ++ [] ++
             [("danger",
               "Agent loop error: " +:+
               JS.escapeChars (errorText (TypeError "key.trim is not a function")))])
            (chat idleSession)).
Proof.
  apply (failed_first_call_keeps_transcript (offlineHost noSettings) brokenProvider 8
           idleSession [] (Throw (TypeError "key.trim is not a function")));
    reflexivity.
Defined.

(** ** Sending *)

Lemma trimStart_blank (s : string) :
  Forall (λ c, JS.isWhite c = true) (list_ascii_of_string s) → JS.trimStart s = "".
Proof.
  induction s as [|c s IH]; simpl; [done|].
  intros [Hc Hs]%Forall_cons. rewrite Hc. by apply IH.
Qed.

(** X8. Input that is empty or white space only sends nothing: [onSend]
    leaves the session as it is, whatever its state. *)
Theorem blank_input_sends_nothing host
    (callLLM : nat → list value → list (string * string) * completion value)
    (fuel : nat) (input : string) (st : session) :
  Forall (λ c, JS.isWhite c = true) (list_ascii_of_string input) →
  onSend host callLLM fuel input st = Some st.
Proof.
  intros Hblank. unfold onSend, JS.trim. rewrite (trimStart_blank input Hblank). simpl.
  by destruct (running st).
Qed.

Lemma blank_input_sends_nothing_witness :
  onSend (offlineHost noSettings) searchingProvider 9
    (String (ascii_of_nat 32) (String (ascii_of_nat 10) (String (ascii_of_nat 9) "")))
    idleSession = Some idleSession.
Proof.
  apply (blank_input_sends_nothing (offlineHost noSettings) searchingProvider 9
           (String (ascii_of_nat 32) (String (ascii_of_nat 10) (String (ascii_of_nat 9) "")))
           idleSession).
  repeat constructor.
Defined.

(** X9. From an idle session, input with text is sent trimmed: [onSend]
    returns, the running flag is clear again, the transcript is the old
    one followed by the user message with the trimmed text and then by
    what the loop added (assistant and tool messages), and the chat is
    the old one followed by the user row with the escaped text and then
    by escaped assistant rows. *)
Theorem send_pushes_trimmed_user_message host
    (callLLM : nat → list value → list (string * string) * completion value)
    (fuel : nat) (input : string) (st : session) :
  running st = false →
  JS.trim input ≠ "" →
  (9 ≤ fuel)%nat →
  ∃ st' added rows,
    onSend host callLLM fuel input st = Some st' ∧
    running st' = false ∧
    messages st' =
      messages st ++
      VObj [("role", VStr "user"); ("content", VStr (JS.trim input))] :: added ∧
    Forall loopMessage added ∧
    chat st' = chat st ++ ("user", JS.escapeChars (JS.trim input)) :: rows ∧
    Forall escapedRow rows.
Proof.
  intros Hrun Htext Hfuel. unfold onSend. rewrite Hrun.
  assert (JS.truthy (VStr (JS.trim input)) = true) as ->.
  { simpl. apply negb_true_iff. by apply String.eqb_neq. }
  simpl negb. cbv iota.
  set (st1 := pushMessage _ (addMessage "user" _ st)).
  unfold agentLoop. change (running st1) with (running st). rewrite Hrun.
  destruct (whileTurns_ends host callLLM 8 0 (setBusy true st1) eq_refl) as (r & Hr & _).
  rewrite (Hr fuel) by lia.
  destruct (whileTurns_extends host callLLM fuel 0 (setBusy true st1) r (Hr fuel ltac:(lia)))
    as (added & rows & raised & Hm & Hadded & Hc & Hrows & _).
  simpl in Hm, Hc.
  eexists _, added, rows. split; [reflexivity|].
  destruct (outcome r); simpl; rewrite Hm, Hc, <- !app_assoc; done.
Qed.

Lemma send_pushes_trimmed_user_message_witness :
  ∃ st' added rows,
    onSend (offlineHost noSettings) answeringProvider 9 "  hello <there>  " idleSession =
      Some st' ∧
    running st' = false ∧
    messages st' =
      messages idleSession ++
      VObj [("role", VStr "user"); ("content", VStr (JS.trim "  hello <there>  "))] ::
      added ∧
    Forall loopMessage added ∧
    chat st' =
      chat idleSession ++
      ("user", JS.escapeChars (JS.trim "  hello <there>  ")) :: rows ∧
    Forall escapedRow rows.
Proof.
  apply (send_pushes_trimmed_user_message (offlineHost noSettings) answeringProvider 9
           "  hello <there>  " idleSession); [reflexivity|done|lia].
Defined.

Example send_hello :
  onSend (offlineHost noSettings) answeringProvider 9 "  hello <there>  " idleSession =
  Some (mkSession
          [VObj [("role", VStr "user"); ("content", VStr "hello <there>")];
           VObj [("role", VStr "assistant"); ("content", VStr "All done.")]]
          false []
          [("user", "hello &lt;there&gt;"); ("assistant", "All done.")]).
Proof. reflexivity. Qed.

(** ** The shape of the sanitized transcript *)

Lemma mapM_Forall2 {A B} (f : A → completion B) (l : list A) (out : list B) :
  mapM f l = Normal out → Forall2 (λ x y, f x = Normal y) l out.
Proof.
  revert out. induction l as [|x l IH]; intros out; simpl.
  - intros [= <-]. constructor.
  - intros (y & Hy & H)%bind_Normal_inv.
    apply bind_Normal_inv in H as (ys & Hys & [= <-]). constructor; [done|by apply IH].
Qed.

Lemma sanitizeToolCall_strict host t : strictToolCall (sanitizeToolCall host t).
Proof.
  unfold strictToolCall, sanitizeToolCall. simpl. split; [done|].
  destruct (JS.isString (JS.optprop (JS.get t "function") "arguments")) eqn:E.
  - apply isString_optprop in E as (s & -> & _). by eexists.
  - by eexists.
Qed.

Lemma sanitizeMessage_shape host m o :
  sanitizeMessage host m = Normal o → sanitizedFrom m o.
Proof.
  unfold sanitizeMessage, sanitizedFrom, carriesToolCalls, JS.prop.
  destruct (JS.nullish m); [done|]. rewrite bind_Normal.
  destruct (JS.isStr (JS.get m "role") "assistant") eqn:Ea; simpl.
  { destruct (0 <? length (JS.keptToolCalls (JS.get m "tool_calls")))%nat; simpl.
    - intros (c0 & _ & [= <-])%bind_Normal_inv. simpl.
      repeat split; try done.
      + destruct (0 <? String.length (JS.trim c0))%nat; [right; by eexists|by left].
      + intros Ht. apply isStr_true in Ea, Ht. congruence.
      + apply Forall_forall. intros c (t & -> & _)%list_elem_of_fmap.
        apply sanitizeToolCall_strict.
    - intros [= <-]. simpl. repeat split; try done.
      + right. by eexists.
      + by intros s _ ->.
      + intros Ht. apply isStr_true in Ea, Ht. congruence. }
  destruct (JS.isStr (JS.get m "role") "tool") eqn:Et.
  - destruct (JS.truthy (JS.get m "name")); intros [= <-]; simpl;
      (repeat split; try done; [right; by eexists|by intros s _ ->]).
  - destruct (JS.truthy (JS.get m "name")); intros [= <-]; simpl;
      (repeat split; try done; [right; by eexists|by intros s _ ->]).
Qed.

(** X10. When the sanitizer returns, its output lines up with its
    input, message by message and in order, and each output message has
    the role of its input message; content that is a string, or [null]
    only where tool calls were kept; string content unchanged where no
    tool calls were kept; the [tool_call_id] of a tool message; and tool
    calls that all have the type [function] and string arguments. *)
Theorem sanitized_transcript_is_strict host (ms : list value) :
  match sanitizeMessagesForOpenAI host ms with
  | Normal out => Forall2 sanitizedFrom ms out
  | Throw _ => True
  end.
Proof.
  destruct (sanitizeMessagesForOpenAI host ms) as [out|e] eqn:E; [|done].
  apply mapM_Forall2 in E. eapply Forall2_impl; [exact E|].
  intros m o. apply sanitizeMessage_shape.
Qed.

(** ** The adapters on a growing transcript *)

Section AdapterComposition.
Context (host : Host).
Import JS.

Lemma forOf_app {S A} (body : S → A → completion S) (l1 l2 : list A) (s : S) :
  forOf body (l1 ++ l2) s = forOf body l1 s ≫= forOf body l2.
Proof.
  revert s. induction l1 as [|x l1 IH]; intros s; simpl; [done|].
  destruct (body s x) as [s'|e]; [|done]. rewrite !bind_Normal. apply IH.
Qed.

Lemma forOf_cons {S A} (body : S → A → completion S) (x : A) (l : list A) (s : S) :
  forOf body (x :: l) s = body s x ≫= forOf body l.
Proof. reflexivity. Qed.

Lemma geminiStep_shift contents m :
  geminiStep host contents m =
  geminiStep host [] m ≫= λ entries, Normal (contents ++ entries).
Proof.
  unfold geminiStep.
  destruct (negb (truthy m) || negb (truthy (get m "role"))).
  { by rewrite bind_Normal, app_nil_r. }
  destruct (isStr (get m "role") "user" || isStr (get m "role") "assistant").
  { destruct (toString _); [by rewrite !bind_Normal|done]. }
  destruct (isStr (get m "role") "tool"); [|by rewrite bind_Normal, app_nil_r].
  destruct (parseToolContent host _); [by rewrite !bind_Normal|done].
Qed.

Lemma gemini_shift ms contents :
  forOf (geminiStep host) ms contents =
  forOf (geminiStep host) ms [] ≫= λ entries, Normal (contents ++ entries).
Proof.
  revert contents. induction ms as [|m ms IH]; intros contents; simpl.
  - by rewrite ?bind_Normal, ?app_nil_r.
  - rewrite geminiStep_shift. destruct (geminiStep host [] m) as [e1|e]; [|done].
    rewrite !bind_Normal. rewrite (IH (contents ++ e1)), (IH e1).
    destruct (forOf (geminiStep host) ms []) as [e2|e]; [|done].
    by rewrite !bind_Normal, app_assoc.
Qed.

Lemma anthropicStep_shift out rnd m :
  anthropicStep host (out, rnd) m =
  anthropicStep host ([], rnd) m ≫= λ acc, Normal (out ++ acc.1, acc.2).
Proof.
  unfold anthropicStep.
  destruct (negb (truthy m) || negb (truthy (get m "role")));
    [by rewrite bind_Normal, app_nil_r|].
  destruct (isStr (get m "role") "user" || isStr (get m "role") "assistant").
  { destruct (toString _); [by rewrite !bind_Normal|done]. }
  destruct (isStr (get m "role") "tool"); [|by rewrite bind_Normal, app_nil_r].
  destruct (parseToolContent host _); [|done]. rewrite !bind_Normal.
  by destruct (truthy (get m "tool_call_id")).
Qed.

Lemma anthropic_shift ms out rnd :
  forOf (anthropicStep host) ms (out, rnd) =
  forOf (anthropicStep host) ms ([], rnd) ≫= λ acc, Normal (out ++ acc.1, acc.2).
Proof.
  revert out rnd. induction ms as [|m ms IH]; intros out rnd.
  - simpl. by rewrite ?bind_Normal, ?app_nil_r.
  - rewrite !forOf_cons, anthropicStep_shift.
    destruct (anthropicStep host ([], rnd) m) as [[e1 r1]|e]; [|done].
    rewrite !bind_Normal. cbn [fst snd]. rewrite (IH (out ++ e1)), (IH e1).
    destruct (forOf (anthropicStep host) ms ([], r1)) as [[e2 r2]|e]; [|done].
    rewrite !bind_Normal. simpl. by rewrite app_assoc.
Qed.

End AdapterComposition.

Section AdapterDraws.
Context (host : Host).
Import JS.

Lemma anthropicStep_no_draw out rnd m :
  carriesId m →
  anthropicStep host (out, rnd) m =
  anthropicStep host (out, 0%nat) m ≫= λ r, Normal (r.1, rnd).
Proof.
  intros Hid. unfold anthropicStep.
  destruct (negb (truthy m) || negb (truthy (get m "role"))); [done|].
  destruct (isStr (get m "role") "user" || isStr (get m "role") "assistant").
  { by destruct (toString (or (get m "content") (VStr ""))). }
  destruct (isStr (get m "role") "tool") eqn:Et; [|done].
  rewrite (Hid Et).
  by destruct (parseToolContent host (get m "content")).
Qed.

Lemma anthropic_no_draw ms out rnd :
  Forall carriesId ms →
  forOf (anthropicStep host) ms (out, rnd) =
  forOf (anthropicStep host) ms (out, 0%nat) ≫= λ r, Normal (r.1, rnd).
Proof.
  intros Hall. revert out. induction Hall as [|m ms Hm _ IH]; intros out; [done|].
  rewrite !forOf_cons, (anthropicStep_no_draw out rnd m Hm).
  destruct (anthropicStep host (out, 0%nat) m) as [[out' r']|e] eqn:E; [|done].
  rewrite !bind_Normal. simpl.
  assert (r' = 0%nat) as ->.
  { pose proof (anthropicStep_no_draw out 0%nat m Hm) as H. rewrite E in H.
    by injection H as ->. }
  apply IH.
Qed.

End AdapterDraws.

(** X11. Both adapters translate a transcript piece by piece: the
    translation of a transcript followed by more messages is the
    translation of the transcript followed by the translation of those
    messages. The Gemini adapter draws nothing, so what it made of the
    messages already sent is the same in every later request. The
    Anthropic adapter generates an id for a tool message without one,
    from a new draw of [Math.random] in every request: its translation
    is piecewise when the ids are drawn in the same order, and it does
    not depend on the draws at all when every tool message carries its
    id. *)
Theorem adapters_translate_piecewise host (rnd : nat) (ms more : list value) :
  toGeminiContents host (ms ++ more) =
    (toGeminiContents host ms ≫= λ sent,
     toGeminiContents host more ≫= λ new, Normal (sent ++ new)) ∧
  toAnthropicMessages host rnd (ms ++ more) =
    (toAnthropicMessages host rnd ms ≫= λ sent,
     toAnthropicMessages host sent.2 more ≫= λ new, Normal (sent.1 ++ new.1, new.2)) ∧
  (Forall carriesId ms →
   toAnthropicMessages host rnd ms =
     (toAnthropicMessages host 0 ms ≫= λ sent, Normal (sent.1, rnd))).
Proof.
  unfold toGeminiContents, toAnthropicMessages. split; [|split].
  - rewrite forOf_app. destruct (JS.forOf (geminiStep host) ms []) as [sent|e]; [|done].
    rewrite !bind_Normal. apply gemini_shift.
  - rewrite forOf_app.
    destruct (JS.forOf (anthropicStep host) ms ([], rnd)) as [[sent r]|e]; [|done].
    rewrite !bind_Normal. apply anthropic_shift.
  - apply anthropic_no_draw.
Qed.

Lemma adapters_translate_piecewise_witness :
  toAnthropicMessages drawingHost 1 [toolMessage drawingHost exampleCall (VObj [])] =
    (toAnthropicMessages drawingHost 0 [toolMessage drawingHost exampleCall (VObj [])]
       ≫= λ sent, Normal (sent.1, 1%nat)).
Proof.
  apply (proj2 (proj2 (adapters_translate_piecewise drawingHost 1
                         [toolMessage drawingHost exampleCall (VObj [])] []))).
  apply List.Forall_cons; [|apply List.Forall_nil]. intros _. reflexivity.
Defined.

(** A tool message without an id gets the id of the draw: another draw,
    another id; with its id it is translated the same at every draw. *)
Example anthropic_ids_follow_the_draws :
  toAnthropicMessages drawingHost 0 [namelessResult] ≠
  toAnthropicMessages drawingHost 1 [namelessResult] ∧
  (toAnthropicMessages drawingHost 0 [toolMessage drawingHost exampleCall (VObj [])]
     ≫= λ sent, Normal sent.1) =
  (toAnthropicMessages drawingHost 1 [toolMessage drawingHost exampleCall (VObj [])]
     ≫= λ sent, Normal sent.1).
Proof. split; [discriminate|reflexivity]. Qed.

(** X12. A tool result reaches both providers whole. For the tool
    message the loop pushes for a call [tc] with result [result], on a
    host whose [JSON.parse] reads back what its [JSON.stringify] wrote
    for [result]: the Gemini adapter adds a function response that
    carries [result] itself under the tool's name; the Anthropic adapter
    adds a user message with one tool result that carries the JSON text
    of [result] under the id of the call, or under a generated id when
    the call has none. *)
Theorem tool_result_reaches_provider host (tc result : value)
    (contents out : list value) (rnd : nat) :
  JSON_parse host (JSON_stringify host result) = Some result →
  geminiStep host contents (toolMessage host tc result) =
    Normal (contents ++
      [VObj [("role", VStr "tool");
             ("parts", VArr [VObj [("functionResponse",
                VObj [("name", JS.or (JS.get (JS.get tc "function") "name") (VStr "tool"));
                      ("response", result)])]])]]) ∧
  anthropicStep host (out, rnd) (toolMessage host tc result) =
    Normal (out ++
      [VObj [("role", VStr "user");
             ("content", VArr [VObj [("type", VStr "tool_result");
                ("tool_use_id",
                  if JS.truthy (JS.get tc "id") then JS.get tc "id"
                  else VStr ("tool_" +:+ randomSuffix host rnd));
                ("content", VStr (JSON_stringify host result));
                ("is_error", VBool false)]])]],
      if JS.truthy (JS.get tc "id") then rnd else S rnd).
Proof.
  intros Hround. unfold geminiStep, anthropicStep, toolMessage, parseToolContent. simpl.
  rewrite Hround. simpl. split; [reflexivity|].
  unfold JS.or. by destruct (JS.truthy (JS.get tc "id")) eqn:E; simpl; rewrite ?E.
Qed.

(** On a host that reads the JSON text of the result back: the loop's
    call of [web_search] finds nothing, and that result reaches Gemini
    as it is and Anthropic as its JSON text, under the id of the call. *)
Lemma tool_result_reaches_provider_witness :
  executeTool readingHost (VStr "web_search") (toolCallArgs readingHost searchCall) =
    Normal nothingFound ∧
  JSON_parse readingHost (JSON_stringify readingHost nothingFound) = Some nothingFound ∧
  geminiStep readingHost [] (toolMessage readingHost searchCall nothingFound) =
    Normal ([] ++
      [VObj [("role", VStr "tool");
             ("parts", VArr [VObj [("functionResponse",
                VObj [("name",
                        JS.or (JS.get (JS.get searchCall "function") "name") (VStr "tool"));
                      ("response", nothingFound)])]])]]) ∧
  anthropicStep readingHost ([], 0%nat) (toolMessage readingHost searchCall nothingFound) =
    Normal ([] ++
      [VObj [("role", VStr "user");
             ("content", VArr [VObj [("type", VStr "tool_result");
                ("tool_use_id",
                  if JS.truthy (JS.get searchCall "id") then JS.get searchCall "id"
                  else VStr ("tool_" +:+ randomSuffix readingHost 0));
                ("content", VStr (JSON_stringify readingHost nothingFound));
                ("is_error", VBool false)]])]],
      if JS.truthy (JS.get searchCall "id") then 0%nat else 1%nat).
Proof.
  split; [reflexivity|]. split; [reflexivity|].
  apply (tool_result_reaches_provider readingHost searchCall nothingFound [] [] 0%nat).
  reflexivity.
Defined.

(** ** The key check and the dispatcher *)

Lemma validate_warns provider key ok warned :
  validateApiKeyOrWarn provider key = Normal (ok, warned) →
  if ok then warned = [] else ∃ msg, warned = [("warning", msg)].
Proof.
  unfold validateApiKeyOrWarn.
  intros (trimmed & _ & H)%bind_Normal_inv.
  destruct (negb (JS.truthy (VStr trimmed))).
  { destruct (String.eqb provider "aipipe"); injection H as <- <-; [done|by eexists]. }
  destruct (String.eqb provider "openai" && negb (looksLikeOpenAIKey trimmed));
    [injection H as <- <-; by eexists|].
  destruct (String.eqb provider "aipipe" && (String.length trimmed <? 20)%nat);
    injection H as <- <-; [by eexists|done].
Qed.

Lemma validate_string provider s :
  ∃ ok warned, validateApiKeyOrWarn provider (VStr s) = Normal (ok, warned) ∧
    (ok = true ↔
     if String.eqb (JS.trim s) "" then provider = "aipipe"
     else (provider = "openai" → looksLikeOpenAIKey (JS.trim s) = true) ∧
          (provider = "aipipe" → (20 ≤ String.length (JS.trim s))%nat)).
Proof.
  unfold validateApiKeyOrWarn, JS.or.
  assert (∀ t, (if JS.truthy (VStr t) then VStr t else VStr "") = VStr t) as Hor.
  { intros [|c t]; reflexivity. }
  rewrite Hor, bind_Normal. simpl JS.truthy. rewrite negb_involutive.
  destruct (String.eqb (JS.trim s) "") eqn:Eempty.
  { destruct (String.eqb provider "aipipe") eqn:Ep; eexists _, _; (split; [reflexivity|]).
    - apply String.eqb_eq in Ep. done.
    - apply String.eqb_neq in Ep. done. }
  destruct (String.eqb provider "openai") eqn:Eo; simpl.
  - apply String.eqb_eq in Eo as ->. simpl.
    destruct (looksLikeOpenAIKey (JS.trim s)); simpl; eexists _, _;
      (split; [reflexivity|]); split; try done.
    intros [H _]. by specialize (H eq_refl).
  - apply String.eqb_neq in Eo.
    destruct (String.eqb provider "aipipe") eqn:Ea; simpl.
    + apply String.eqb_eq in Ea as ->.
      destruct (String.length (JS.trim s) <? 20)%nat eqn:El; eexists _, _;
        (split; [reflexivity|]).
      * apply Nat.ltb_lt in El. split; [done|]. intros [_ H]. specialize (H eq_refl). lia.
      * apply Nat.ltb_ge in El. done.
    + apply String.eqb_neq in Ea. eexists _, _. split; [reflexivity|]. done.
Qed.

(** X13. The key check warns exactly when it refuses: an accepted key
    adds no alert, a refused key adds one warning, and the check throws
    only on a truthy key that is not a string. A string key is accepted
    exactly when, trimmed, it is empty and the provider is AI Pipe, or
    it is not empty and, for OpenAI, starts with [sk-] and a letter or
    digit and, for AI Pipe, has at least 20 units. *)
Theorem key_check_warns_exactly_when_refusing (provider : string) (key : value) :
  match validateApiKeyOrWarn provider key with
  | Normal (ok, warned) => if ok then warned = [] else ∃ msg, warned = [("warning", msg)]
  | Throw _ => JS.truthy key = true ∧ JS.isString key = false
  end ∧
  ∀ s, key = VStr s →
    ∃ ok warned, validateApiKeyOrWarn provider key = Normal (ok, warned) ∧
      (ok = true ↔
       if String.eqb (JS.trim s) "" then provider = "aipipe"
       else (provider = "openai" → looksLikeOpenAIKey (JS.trim s) = true) ∧
            (provider = "aipipe" → (20 ≤ String.length (JS.trim s))%nat)).
Proof.
  split; [|intros s ->; apply validate_string].
  destruct (validateApiKeyOrWarn provider key) as [[ok warned]|e] eqn:E.
  - by apply validate_warns in E.
  - unfold validateApiKeyOrWarn, JS.or in E.
    destruct (JS.truthy key) eqn:Ht; [|by rewrite bind_Normal in E; repeat case_match].
    split; [done|]. destruct key; try done.
    rewrite bind_Normal in E. by repeat case_match.
Qed.

Example openai_key_checks :
  validateApiKeyOrWarn "openai" (VStr "  sk-test1234 ") = Normal (true, []) ∧
  validateApiKeyOrWarn "openai" (VStr "pk-test1234") =
    Normal (false,
            [("warning",
              "That does not look like an OpenAI key (should start with " +:+
              quoted "sk-" +:+ ").")]) ∧
  validateApiKeyOrWarn "gemini" (VStr "   ") =
    Normal (false, [("warning", "Missing API key/token for gemini.")]) ∧
  validateApiKeyOrWarn "aipipe" (VStr "") = Normal (true, []).
Proof. repeat split. Qed.

Section DispatcherFacts.
Context (host : Host) (temperature : value).
Import JS.

(** What [resolveKey] hands on is the key of the settings, or a truthy
    token of the profile when the provider is AI Pipe without a key. *)
Lemma resolveKey_inl key :
  resolveKey host = inl key →
  key = VStr (apiKey (getSettings host)) ∨
  provider (getSettings host) = "aipipe" ∧ apiKey (getSettings host) = "" ∧
  ∃ profile, aipipeProfile host = Normal profile ∧ key = get profile "token" ∧
             truthy key = true.
Proof.
  unfold resolveKey.
  destruct (String.eqb (provider (getSettings host)) "aipipe") eqn:Ep; simpl.
  - destruct (String.eqb (apiKey (getSettings host)) "") eqn:Ek; simpl;
      [|intros [= <-]; by left].
    apply String.eqb_eq in Ep, Ek.
    destruct (aipipeProfile host) as [profile|e]; [|done].
    destruct (truthy (optprop profile "token")) eqn:Et; [|done].
    intros [= <-]. right. repeat split; try done. exists profile.
    unfold optprop in Et. destruct (nullish profile); [done|]. done.
  - intros [= <-]. by left.
Qed.

Lemma resolveKey_inr ended :
  resolveKey host = inr ended →
  provider (getSettings host) = "aipipe" ∧ apiKey (getSettings host) = "" ∧
  llm_reply ended = Normal VNull ∧ (length (llm_raised ended) ≤ 1)%nat ∧
  (llm_redirected ended = true → llm_raised ended = []).
Proof.
  unfold resolveKey.
  destruct (String.eqb (provider (getSettings host)) "aipipe") eqn:Ep; simpl; [|done].
  destruct (String.eqb (apiKey (getSettings host)) "") eqn:Ek; simpl; [|done].
  apply String.eqb_eq in Ep, Ek.
  destruct (aipipeProfile host) as [profile|e].
  - destruct (truthy (optprop profile "token")); [done|].
    intros [= <-]. simpl. repeat split; try done; lia.
  - intros [= <-]. simpl. repeat split; try done; lia.
Qed.

End DispatcherFacts.

(** X14. [callLLM] keeps the failures of the providers to itself. It
    adds at most one alert; it sends the page to the login only for AI
    Pipe without a key, then without an alert and without a reply; and
    it throws in one case only: AI Pipe without a key whose profile has
    a truthy token that is not a string. Every other failure, of the
    network, of the provider or of a translation, ends in [null]. *)
Theorem callLLM_keeps_provider_failures host (temperature : value) (rnd : nat)
    (messages : list value) (schema : value) :
  let r := callLLM host temperature rnd messages schema in
  let s := getSettings host in
  (length (llm_raised r) ≤ 1)%nat ∧
  (llm_redirected r = true →
   provider s = "aipipe" ∧ apiKey s = "" ∧ llm_raised r = [] ∧ llm_reply r = Normal VNull) ∧
  match llm_reply r with
  | Normal _ => True
  | Throw _ =>
      provider s = "aipipe" ∧ apiKey s = "" ∧
      ∃ profile, aipipeProfile host = Normal profile ∧
                 JS.truthy (JS.get profile "token") = true ∧
                 JS.isString (JS.get profile "token") = false
  end.
Proof.
  intros r s. subst r s. unfold callLLM.
  destruct (resolveKey host) as [key|ended] eqn:Ekey.
  2:{ apply resolveKey_inr in Ekey as (Hp & Hk & Hreply & Hlen & Hred).
      rewrite Hreply. repeat split; try done. by apply Hred. }
  apply resolveKey_inl in Ekey.
  pose proof (key_check := validate_warns (provider (getSettings host)) key).
  destruct (validateApiKeyOrWarn (provider (getSettings host)) key)
    as [[ok warned]|e] eqn:Ev.
  - specialize (key_check ok warned eq_refl). destruct ok.
    + subst warned.
      destruct (dispatch host temperature rnd key messages schema) as [[reply|]|err];
        simpl; repeat split; try done; lia.
    + destruct key_check as [msg ->]. simpl. repeat split; try done; lia.
  - simpl. split; [lia|]. split; [done|].
    destruct Ekey as [-> | (Hp & Hk & profile & Hprofile & -> & Ht)].
    + unfold validateApiKeyOrWarn, JS.or in Ev. simpl in Ev.
      destruct (negb (String.eqb (apiKey (getSettings host)) "")); simpl in Ev;
        rewrite ?bind_Normal in Ev; by repeat case_match.
    + repeat split; try done. exists profile. repeat split; try done.
      unfold validateApiKeyOrWarn, JS.or in Ev. rewrite Ht in Ev.
      destruct (JS.get profile "token"); try done.
      rewrite bind_Normal in Ev. by repeat case_match.
Qed.

Section UnansweredCalls.
Context (host : Host) (temperature : value).
Hypothesis deaf : unanswered host.

Lemma unanswered_throws {A} (url : string) (headers : list (string * string)) (body : string)
    (fail ok : Response → completion A) :
  (∀ res, ∃ e, fail res = Throw e) →
  ∃ e, (res ← fetchPost host url headers body ;
        if negb (res_ok res) then fail res else ok res) = Throw e.
Proof.
  intros Hfail. destruct (fetchPost host url headers body) as [res|e] eqn:E; [|by eexists].
  rewrite bind_Normal, (deaf _ _ _ _ E). simpl. apply Hfail.
Qed.

Lemma refusal_throws (text : completion string) (render : string → string) :
  ∃ e, (t ← text ; (Throw (Exn "Error" (render t)) : completion value)) = Throw e.
Proof. destruct text; by eexists. Qed.

Lemma callOpenAI_unanswered key model messages maxTokens schema :
  ∃ e, callOpenAI host temperature key model messages maxTokens schema = Throw e.
Proof.
  unfold callOpenAI.
  destruct (JS.toString key) as [bearer|e]; [|by eexists]. rewrite bind_Normal.
  destruct (sanitizeMessagesForOpenAI host messages) as [safe|e]; [|by eexists].
  rewrite bind_Normal. apply unanswered_throws. intros res.
  apply (refusal_throws (res_text res) (λ t, t)).
Qed.

Lemma callAIPipe_unanswered key model messages maxTokens schema :
  ∃ e, callAIPipe host temperature key model messages maxTokens schema = Throw e.
Proof.
  unfold callAIPipe.
  destruct key; try by eexists. rewrite bind_Normal.
  destruct (sanitizeMessagesForOpenAI host messages) as [safe|e]; [|by eexists].
  rewrite bind_Normal. apply unanswered_throws. intros res.
  apply (refusal_throws (res_text res)
           (λ t, pretty (res_status res) +:+ " " +:+ res_statusText res +:+ ": " +:+ t)).
Qed.

Lemma callGemini_unanswered rnd key model messages maxTokens schema :
  ∃ e, callGemini host temperature rnd key model messages maxTokens schema = Throw e.
Proof.
  unfold callGemini.
  destruct (JS.toString key) as [k|e]; [|by eexists]. rewrite bind_Normal.
  destruct (toGeminiContents host messages) as [contents|e]; [|by eexists].
  rewrite bind_Normal.
  destruct (toGeminiTools schema) as [declared|e]; [|by eexists].
  rewrite bind_Normal. apply unanswered_throws. intros res.
  apply (refusal_throws (res_text res)
           (λ t, pretty (res_status res) +:+ " " +:+ res_statusText res +:+ ": " +:+ t)).
Qed.

Lemma callAnthropic_unanswered rnd key model messages maxTokens schema :
  ∃ e, callAnthropic host temperature rnd key model messages maxTokens schema = Throw e.
Proof.
  unfold callAnthropic.
  destruct (toAnthropicTools schema) as [declared|e]; [|by eexists].
  rewrite bind_Normal.
  destruct (toAnthropicMessages host rnd messages) as [translated|e]; [|by eexists].
  rewrite bind_Normal.
  destruct (JS.toString key) as [k|e]; [|by eexists]. rewrite bind_Normal.
  apply unanswered_throws. intros res.
  apply (refusal_throws (res_text res)
           (λ t, pretty (res_status res) +:+ " " +:+ res_statusText res +:+ ": " +:+ t)).
Qed.

Lemma dispatch_unanswered rnd key messages schema :
  In (provider (getSettings host)) providers →
  ∃ e, dispatch host temperature rnd key messages schema = Throw e.
Proof.
  intros Hp. unfold dispatch, answered.
  destruct (String.eqb (provider (getSettings host)) "openai") eqn:E1.
  { destruct (callOpenAI_unanswered key (model (getSettings host)) messages
                (maxTokens (getSettings host)) schema) as [e ->]. by eexists. }
  destruct (String.eqb (provider (getSettings host)) "aipipe") eqn:E2.
  { destruct (callAIPipe_unanswered key (model (getSettings host)) messages
                (maxTokens (getSettings host)) schema) as [e ->]. by eexists. }
  destruct (String.eqb (provider (getSettings host)) "gemini") eqn:E3.
  { destruct (callGemini_unanswered rnd key (model (getSettings host)) messages
                (maxTokens (getSettings host)) schema) as [e ->]. by eexists. }
  destruct (String.eqb (provider (getSettings host)) "anthropic") eqn:E4.
  { destruct (callAnthropic_unanswered rnd key (model (getSettings host)) messages
                (maxTokens (getSettings host)) schema) as [e ->]. by eexists. }
  apply String.eqb_neq in E1, E2, E3, E4.
  simpl in Hp. intuition congruence.
Qed.

End UnansweredCalls.



Example refused_key_alert :
  callLLM (refusingHost openaiSettings) dot7 0 exampleTranscript tools =
    mkLlmResult [("danger", "openai error: &lt;h1&gt;bad key&lt;/h1&gt;")] false
      (Normal VNull).
Proof. reflexivity. Qed.

(** ** Alerts are set as markup *)

Lemma markupFree_check s :
  forallb (λ c, negb (Ascii.eqb c "<") && negb (Ascii.eqb c ">")) (list_ascii_of_string s)
    = true →
  markupFree s.
Proof.
  unfold markupFree. induction (list_ascii_of_string s) as [|c l IH]; simpl; [constructor|].
  intros [[H1 H2]%andb_prop IH']%andb_prop. constructor; [|by apply IH].
  apply negb_true_iff in H1, H2. by apply Ascii.eqb_neq in H1, H2.
Qed.

Lemma markupFree_app s t : markupFree s → markupFree t → markupFree (s +:+ t).
Proof. unfold markupFree. rewrite chars_append. intros. by apply Forall_app. Qed.

Lemma validate_markupFree p key ok warned :
  validateApiKeyOrWarn p key = Normal (ok, warned) →
  markupFree p →
  Forall (λ a, markupFree a.2) warned.
Proof.
  unfold validateApiKeyOrWarn.
  intros (trimmed & _ & H)%bind_Normal_inv Hp.
  destruct (negb (JS.truthy (VStr trimmed))).
  { destruct (String.eqb p "aipipe"); injection H as <- <-; [constructor|].
    apply List.Forall_cons; [|apply List.Forall_nil]. simpl. repeat apply markupFree_app; try done;
      by apply markupFree_check. }
  destruct (String.eqb p "openai" && negb (looksLikeOpenAIKey trimmed)).
  { injection H as <- <-. apply List.Forall_cons; [|apply List.Forall_nil]. by apply markupFree_check. }
  destruct (String.eqb p "aipipe" && (String.length trimmed <? 20)%nat);
    injection H as <- <-; [|constructor].
  apply List.Forall_cons; [|apply List.Forall_nil]. by apply markupFree_check.
Qed.

(** X16. No alert of [callLLM] carries markup of its own making: when
    the name of the provider has no angle bracket, no text it hands to
    [addAlert] has one, whatever the provider or the network put into
    the error. The text of an alert is set as [innerHTML]. *)
Theorem provider_alerts_carry_no_markup host (temperature : value) (rnd : nat)
    (messages : list value) (schema : value) :
  markupFree (provider (getSettings host)) →
  Forall (λ a, markupFree a.2) (llm_raised (callLLM host temperature rnd messages schema)).
Proof.
  intros Hp. unfold callLLM.
  destruct (resolveKey host) as [key|ended] eqn:Ekey.
  2:{ unfold resolveKey in Ekey.
      destruct (_ && _) in Ekey; [|done].
      destruct (aipipeProfile host) as [profile|e].
      - destruct (JS.truthy _) in Ekey; [done|]. injection Ekey as <-. constructor.
      - injection Ekey as <-. apply List.Forall_cons; [|apply List.Forall_nil]. by apply markupFree_check. }
  destruct (validateApiKeyOrWarn (provider (getSettings host)) key)
    as [[ok warned]|e] eqn:Ev; [|constructor].
  pose proof (validate_markupFree _ _ _ _ Ev Hp) as Hwarned.
  destruct ok; [|exact Hwarned].
  destruct (dispatch host temperature rnd key messages schema) as [[reply|]|err]; simpl.
  - exact Hwarned.
  - apply Forall_app. split; [exact Hwarned|]. apply List.Forall_cons; [|apply List.Forall_nil]. simpl.
    apply markupFree_app; [by apply markupFree_check|exact Hp].
  - apply Forall_app. split; [exact Hwarned|]. apply List.Forall_cons; [|apply List.Forall_nil]. simpl.
    repeat apply markupFree_app; try done; [by apply markupFree_check|].
    apply escapeChars_no_angle_bracket.
Qed.

Lemma provider_alerts_carry_no_markup_witness :
  Forall (λ a, markupFree a.2)
    (llm_raised (callLLM (refusingHost openaiSettings) dot7 0 exampleTranscript tools)).
Proof.
  apply (provider_alerts_carry_no_markup (refusingHost openaiSettings) dot7 0
           exampleTranscript tools).
  by apply markupFree_check.
Defined.

(** ** A send without a key *)

Lemma callLLM_missing_key host (temperature : value) rnd messages schema :
  provider (getSettings host) ≠ "aipipe" →
  JS.trim (apiKey (getSettings host)) = "" →
  callLLM host temperature rnd messages schema =
    mkLlmResult
      [("warning", "Missing API key/token for " +:+ provider (getSettings host) +:+ ".")]
      false (Normal VNull).
Proof.
  intros Hp%String.eqb_neq Hkey. unfold callLLM, resolveKey. rewrite Hp. simpl andb.
  cbv iota. unfold validateApiKeyOrWarn, JS.or.
  destruct (JS.truthy (VStr (apiKey (getSettings host)))); rewrite bind_Normal, ?Hkey;
    simpl; by rewrite Hp.
Qed.

(** X17. A send without a key, for a provider other than AI Pipe, stops
    at the key check: the user message is pushed and shown, the one
    alert is the warning about the missing key, nothing else joins the
    transcript or the chat, and the running flag is clear again. A key
    of white space only counts as missing. *)
Theorem send_without_key_only_warns host (temperature : value) (rndAt : nat → nat)
    (fuel : nat) (input : string) (st : session) :
  running st = false →
  JS.trim input ≠ "" →
  provider (getSettings host) ≠ "aipipe" →
  JS.trim (apiKey (getSettings host)) = "" →
  onSend host (pageProvider host temperature rndAt) (S fuel) input st =
    Some (mkSession
            (messages st ++ [VObj [("role", VStr "user"); ("content", VStr (JS.trim input))]])
            false
            (alerts st ++
             [("warning",
               "Missing API key/token for " +:+ provider (getSettings host) +:+ ".")])
            (chat st ++ [("user", JS.escapeChars (JS.trim input))])).
Proof.
  intros Hrun Htext Hp Hkey. unfold onSend. rewrite Hrun.
  assert (JS.truthy (VStr (JS.trim input)) = true) as ->.
  { simpl. apply negb_true_iff. by apply String.eqb_neq. }
  simpl negb. cbv iota.
  unfold agentLoop. simpl running. rewrite Hrun. simpl whileTurns.
  unfold iteration, pageProvider.
  rewrite (callLLM_missing_key host temperature _ _ _ Hp Hkey). reflexivity.
Qed.

Lemma send_without_key_only_warns_witness :
  onSend (offlineHost keylessSettings) (pageProvider (offlineHost keylessSettings) dot7 id)
         9 " what is <b>new</b>? " idleSession =
    Some (mkSession
            (messages idleSession ++
             [VObj [("role", VStr "user");
                    ("content", VStr (JS.trim " what is <b>new</b>? "))]])
            false
            (alerts idleSession ++
             [("warning",
               "Missing API key/token for " +:+
               provider (getSettings (offlineHost keylessSettings)) +:+ ".")])
            (chat idleSession ++ [("user", JS.escapeChars (JS.trim " what is <b>new</b>? "))])).
Proof.
  apply (send_without_key_only_warns (offlineHost keylessSettings) dot7 id 8
           " what is <b>new</b>? " idleSession); done.
Defined.

(** ** The replies of the adapters *)

Section AdapterReplies.
Context (host : Host).
Import JS.

Lemma canonicalCall_named id name arguments :
  truthy id = true →
  namedCall (canonicalCall host id name arguments) ∧
  truthy (canonicalCall host id name arguments) = true.
Proof.
  intros Hid. split; [|done]. unfold namedCall, canonicalCall. simpl.
  repeat split; try done. by eexists.
Qed.

Lemma canonicalReply_ready content calls :
  Forall (λ c, namedCall c ∧ truthy c = true) calls →
  loopReady (canonicalReply content calls).
Proof.
  intros Hcalls. split; [done|]. exists calls.
  assert (filterBoolean calls = calls) as Hkept.
  { unfold filterBoolean. induction Hcalls as [|c l [_ Hc] _ IH]; simpl; [done|].
    by rewrite Hc, IH. }
  split; [|split].
  - unfold replyToolCalls, canonicalReply. simpl. by rewrite Hkept.
  - eapply Forall_impl; [exact Hcalls|]. by intros c [Hc _].
  - eexists. split; [reflexivity|]. intros _. by eexists.
Qed.

Lemma geminiPart_calls parts acc :
  Forall (λ c, namedCall c ∧ truthy c = true) acc.1.2 →
  Forall (λ c, namedCall c ∧ truthy c = true) (fold_left (geminiPart host) parts acc).1.2.
Proof.
  revert acc. induction parts as [|p parts IH]; intros [[content calls] rnd] Hacc;
    simpl; [done|].
  apply IH. unfold geminiPart.
  destruct (truthy (optprop p "functionCall") && truthy (get (optprop p "functionCall") "name"));
    simpl; [|done].
  apply Forall_app. split; [done|]. constructor; [|constructor].
  by apply canonicalCall_named.
Qed.

Lemma anthropicBlock_calls blocks acc acc' :
  forOf (anthropicBlock host) blocks acc = Normal acc' →
  Forall (λ c, namedCall c ∧ truthy c = true) acc.1.2 →
  Forall (λ c, namedCall c ∧ truthy c = true) acc'.1.2.
Proof.
  revert acc. induction blocks as [|b blocks IH]; intros [[content calls] rnd]; simpl.
  { by intros [= <-]. }
  intros (mid & Hmid & Hrest)%bind_Normal_inv Hacc. apply (IH mid Hrest).
  unfold anthropicBlock in Hmid. apply bind_Normal_inv in Hmid as (type & _ & Hmid).
  destruct (isStr type "text" && isString (get b "text")).
  { by injection Hmid as <-. }
  destruct (isStr type "tool_use"); [|by injection Hmid as <-].
  destruct (truthy (get b "id")) eqn:Hid; injection Hmid as <-; simpl;
    (apply Forall_app; split; [done|]; constructor; [|constructor];
     by apply canonicalCall_named).
Qed.

Lemma gemini_reply_ready rnd data resp :
  fromGeminiResponseToOpenAI host rnd data = Normal resp → loopReady resp.
Proof.
  unfold fromGeminiResponseToOpenAI. intros (parts & _ & H)%bind_Normal_inv.
  pose proof (geminiPart_calls parts ("", [], rnd) ltac:(constructor)) as Hcalls.
  destruct (fold_left (geminiPart host) parts ("", [], rnd)) as [[content calls] n].
  injection H as <-. by apply canonicalReply_ready.
Qed.

Lemma anthropic_reply_ready rnd data resp :
  fromAnthropicResponseToOpenAI host rnd data = Normal resp → loopReady resp.
Proof.
  unfold fromAnthropicResponseToOpenAI.
  intros (blocks & _ & (acc & Hacc & H)%bind_Normal_inv)%bind_Normal_inv.
  pose proof (anthropicBlock_calls blocks _ acc Hacc ltac:(constructor)) as Hcalls.
  destruct acc as [[content calls] n]. injection H as <-. by apply canonicalReply_ready.
Qed.

Context (callLLM : nat → list value → list (string * string) * completion value).

Lemma loopReady_turn k st raised resp :
  callLLM k (messages st) = (raised, Normal resp) →
  loopReady resp →
  ∃ st' f, iteration host callLLM k st = (st', Normal f).
Proof.
  intros Hcall (Ht & tcs & (msg & Hmsg & Htc)%replyToolCalls_inv & Hnamed &
                msg' & Hmsg' & Hshow).
  rewrite Hmsg in Hmsg'. injection Hmsg' as <-.
  assert (Forall (λ tc, nullish (get tc "function") = false) tcs) as Hall.
  { eapply Forall_impl; [exact Hnamed|]. by intros tc [H _]. }
  unfold iteration. rewrite Hcall, Ht, Hmsg, Htc. simpl.
  destruct (truthy (optprop msg "content")) eqn:Hc.
  - destruct (Hshow eq_refl) as [s Hs]. unfold escapeHtml. rewrite Hs. simpl.
    destruct (length tcs =? 0)%nat; [by eexists _, _|].
    rewrite (runToolCalls_all host tcs _ Hall). by eexists _, _.
  - destruct (length tcs =? 0)%nat; [by eexists _, _|].
    rewrite (runToolCalls_all host tcs _ Hall). by eexists _, _.
Qed.

End AdapterReplies.


Example gemini_answer_translated :
  fromGeminiResponseToOpenAI (offlineHost noSettings) 0 geminiAnswer =
    Normal (replyWith "Looking it up."
              [VObj [("id", VStr "gemini_r4nd0m"); ("type", VStr "function");
                     ("function",
                       VObj [("name", VStr "web_search");
                             ("arguments",
                               VStr (stubStringify (VObj [("q", VStr "rocq")])))])]]).
Proof. reflexivity. Qed.

Example anthropic_answer_translated :
  fromAnthropicResponseToOpenAI (offlineHost noSettings) 0 anthropicAnswer =
    Normal (replyWith "Looking it up."
              [VObj [("id", VStr "toolu_1"); ("type", VStr "function");
                     ("function",
                       VObj [("name", VStr "js_exec");
                             ("arguments",
                               VStr (stubStringify (VObj [("code", VStr "1+1")])))])]]).
Proof. reflexivity. Qed.

(** X19. A turn of the loop on a reply that came out of one of the two
    reply adapters does not throw: the loop reads the message, shows its
    text, runs every tool call and either goes on or ends. *)
Theorem turn_on_adapter_reply_completes host
    (callLLM : nat → list value → list (string * string) * completion value)
    (k : nat) (st : session) (raised : list (string * string)) (resp : value)
    (rnd : nat) (data : value) :
  callLLM k (messages st) = (raised, Normal resp) →
  fromGeminiResponseToOpenAI host rnd data = Normal resp ∨
  fromAnthropicResponseToOpenAI host rnd data = Normal resp →
  ∃ st' f, iteration host callLLM k st = (st', Normal f).
Proof.
  intros Hcall Hfrom. apply (loopReady_turn host callLLM k st raised resp Hcall).
  destruct Hfrom as [H|H].
  - by apply (gemini_reply_ready host rnd data).
  - by apply (anthropic_reply_ready host rnd data).
Qed.

Lemma turn_on_adapter_reply_completes_witness :
  ∃ st' f, iteration (offlineHost noSettings) geminiBacked 0 idleSession = (st', Normal f).
Proof.
  apply (turn_on_adapter_reply_completes (offlineHost noSettings) geminiBacked 0 idleSession
           []
           (replyWith "Looking it up."
              [VObj [("id", VStr "gemini_r4nd0m"); ("type", VStr "function");
                     ("function",
                       VObj [("name", VStr "web_search");
                             ("arguments",
                               VStr (stubStringify (VObj [("q", VStr "rocq")])))])]])
           0 geminiAnswer).
  - reflexivity.
  - left. reflexivity.
Defined.

(** ** The declarations of the tools *)


Example page_tools_declared :
  toAnthropicTools tools ≫= (λ a, Normal (map (λ d, JS.get d "name") (JS.elems a))) =
    Normal [VStr "web_search"; VStr "aipipe_proxy"; VStr "js_exec"] ∧
  toGeminiTools (VArr [VNull; VObj [("type", VStr "function")]]) = Normal (VArr []).
Proof. split; reflexivity. Qed.

(** ** The proxy tool *)

(** X21. Whatever the proxy tool returns is an object with an error
    text and no text, or an object with nothing but a text; the text is
    the content of the first choice, or the empty string when that is
    missing or falsy, never [null] or [undefined]. *)
Theorem proxy_answers_text_or_error host (args : value) :
  match toolAIPipeProxy host args with
  | Normal r => proxyAnswer r
  | Throw _ => True
  end.
Proof.
  unfold toolAIPipeProxy.
  destruct (JS.prop args "prompt") as [prompt|e]; [|done]. rewrite bind_Normal.
  cbv zeta.
  match goal with
  | |- match (if negb (JS.truthy ?k) then _ else _) with _ => _ end =>
      destruct (negb (JS.truthy k))
  end.
  { left. by eexists. }
  match goal with
  | |- match (?c ≫= _) with _ => _ end => destruct c as [bearer|e]; [|done]
  end.
  rewrite bind_Normal.
  match goal with
  | |- match (?c ≫= _) with _ => _ end => destruct c as [res|e]; [|done]
  end.
  rewrite bind_Normal.
  destruct (negb (res_ok res)).
  - unfold httpError. destruct (res_text res) as [detail|e]; [|done].
    left. by eexists.
  - destruct (res_json res) as [data|e]; [|done]. rewrite bind_Normal.
    right. eexists. split; [reflexivity|].
    unfold JS.or. destruct (JS.truthy _) eqn:E; [|done].
    by destruct (JS.optprop _ "content").
Qed.

(** X22. Without a key in the settings and without a token from the
    profile of AI Pipe, the proxy tool answers with the error object
    that asks for a token, whatever else its arguments hold; a profile
    that cannot be loaded is passed over in silence. The profile is
    looked at only when the provider is AI Pipe. *)
Theorem proxy_without_key_asks_for_token host (args : value) :
  JS.nullish args = false →
  apiKey (getSettings host) = "" →
  (provider (getSettings host) = "aipipe" → noProfileToken host) →
  toolAIPipeProxy host args =
    Normal (VObj [("error",
      VStr "AI Pipe token required (use Provider: AI Pipe or log in via AI Pipe).")]).
Proof.
  intros Hargs Hkey Hprofile. unfold toolAIPipeProxy, JS.prop.
  rewrite Hargs, bind_Normal, Hkey. cbv zeta. simpl (negb (JS.truthy (VStr ""))).
  rewrite andb_true_l.
  destruct (String.eqb (provider (getSettings host)) "aipipe") eqn:Ep; [|done].
  apply String.eqb_eq in Ep. specialize (Hprofile Ep). unfold noProfileToken in Hprofile.
  destruct (aipipeProfile host) as [profile|e]; [|done]. by rewrite Hprofile.
Qed.

Lemma proxy_without_key_asks_for_token_witness :
  toolAIPipeProxy (offlineHost noSettings) (VObj [("prompt", VStr "Say hello")]) =
    Normal (VObj [("error",
      VStr "AI Pipe token required (use Provider: AI Pipe or log in via AI Pipe).")]).
Proof.
  apply (proxy_without_key_asks_for_token (offlineHost noSettings)
           (VObj [("prompt", VStr "Say hello")])); done.
Defined.
